(** * homebridge-dahua-ultimate: the media pipeline and the event parser

    A shallow embedding of the HKSV helpers ([hksvHelpers.ts]), the
    prebuffer ([prebuffer.ts]), the recording delegate
    ([recordingDelegate.ts]), the Dahua event stream handler
    ([events.ts]) and the streaming delegate ([streamingDelegate.ts]:
    resolution negotiation, live streams and snapshots), with the
    properties the specification states about them and further
    properties of the code. *)

From Stdlib Require Import ZArith List Strings.String Strings.Ascii Strings.Byte Bool Lia.
From Stdlib Require Import Numbers.DecimalString Sorting.Sorted.
From Stdlib Require Import QArith.QArith_base QArith.Qround.
From stdpp Require Import gmap strings list.
Import ListNotations.

Local Open Scope Z_scope.

(** A Node [Buffer] is a sequence of bytes. *)
Abbreviation Buffer := (list byte).

(** ** MP4 atoms ([hksvHelpers.ts], interface [MP4Atom]) *)

Module MP4Atom.
Record t : Type := mk
  { header : Buffer;
    length : Z;
    type : string;
    data : Buffer }.

(** [Buffer.concat([atom.header, atom.data])] *)
Definition bytes (atom : t) : Buffer := header atom ++ data atom.
End MP4Atom.

(** ** Generators

    An async generator run to its end is recorded as the values it yielded,
    the way it ended, and the lengths it passed to [readLength], in order. *)

Inductive Error : Type :=
| StreamEnded (minimum : Z)
    (* Error(`stream ended during read for minimum ${length} bytes`) *)
| InvalidBox (length : Z) (type : string)
    (* Error(`Invalid MP4 box: ${length}B for ${type}`) *)
| OutOfRange
    (* RangeError of Buffer.readInt32BE on a buffer shorter than 4 bytes *)
| StdoutUnavailable
    (* Error('FFmpeg stdout unavailable') *)
| NoVideoSource
    (* Error('No video source configured') *)
| NoVideoSourceForRecording
    (* Error('No video source configured for recording') *)
| SessionStartupFailed.
    (* Error(`FFmpeg session startup failed: ${error}`) *)

Inductive Ending : Type :=
| Returned
| Threw (e : Error).

Record Run (A : Type) : Type := mkRun
  { yielded : list A;
    ending : Ending;
    reads : list Z }.
Arguments mkRun {A}.
Arguments yielded {A}.
Arguments ending {A}.
Arguments reads {A}.

(** ** [hksvHelpers.ts] *)

Module HksvHelpers.

(** The [Readable] a parser reads from, seen through [readLength]: the
    bytes the source delivers, in order, before it ends. *)
Abbreviation Readable := (list byte).

Inductive ReadResult : Type :=
| Resolved (ret : Buffer) (rest : Readable)
| Rejected (e : Error).

(** [readLength(readable, length)], which reads an exact number of bytes:
    a zero length resolves to an empty buffer at once; otherwise
    [readable.read(length)] is retried on every 'readable' event until it
    returns a buffer, and the 'end' event rejects.  The source is taken
    through this contract: a positive length it can cover resolves to
    exactly that many bytes; any other length, one it never covers or a
    negative one, which [read] never satisfies, is rejected when it
    ends.  This is the contract of a read that is covered, or that finds
    nothing left when the source ends.  [Readable.read] departs from it
    where a source ends inside a read: it then hands out the bytes that
    are left, fewer than asked for, and a read of a negative length never
    settles while bytes are left; a length above 1 GiB is refused with a
    [RangeError].  Such runs are not modelled. *)
Definition readLength (readable : Readable) (length : Z) : ReadResult :=
  if length =? 0 then Resolved [] readable
  else if (0 <? length) && (length <=? Z.of_nat (List.length readable))
  then Resolved (take (Z.to_nat length) readable)
                (drop (Z.to_nat length) readable)
  else Rejected (StreamEnded length).

(** [buf.readInt32BE(0)]: the first four bytes as a big-endian two's
    complement 32-bit integer. *)
Definition readInt32BE (buf : Buffer) : option Z :=
  match buf with
  | b0 :: b1 :: b2 :: b3 :: _ =>
      let u := Z.lor (Z.shiftl (Z.of_N (Byte.to_N b0)) 24)
                (Z.lor (Z.shiftl (Z.of_N (Byte.to_N b1)) 16)
                  (Z.lor (Z.shiftl (Z.of_N (Byte.to_N b2)) 8)
                         (Z.of_N (Byte.to_N b3)))) in
      Some (if Z.testbit u 31 then u - 2 ^ 32 else u)
  | _ => None
  end.

(** [header.slice(4).toString()]: the bytes from offset 4 on, as text.
    The tag is only ever compared with ASCII literals, which it equals
    exactly when its bytes are those of the literal. *)
Definition typeOf (header : Buffer) : string :=
  string_of_list_byte (drop 4 header).

(** One turn of a parsing loop either yields an atom and goes on with the
    rest of the source, or ends the generator. *)
Inductive Step : Type :=
| Yield (atom : MP4Atom.t) (rest : Readable) (requested : list Z)
| Stop (how : Ending) (requested : list Z).

(** [while (true) { ... yield ... }]: the turns of a loop body, one after
    the other.  Every turn that yields has read an 8-byte header, so
    [fuel] above the number of bytes left is never used up. *)
Fixpoint loop (step : Readable -> Step) (fuel : nat) (readable : Readable)
  : Run MP4Atom.t :=
  match fuel with
  | O => mkRun [] Returned []
  | S fuel' =>
      match step readable with
      | Stop how requested => mkRun [] how requested
      | Yield atom rest requested =>
          let r := loop step fuel' rest in
          mkRun (atom :: yielded r) (ending r) (requested ++ reads r)
      end
  end.

(** The body of the loop of [parseFragmentedMP4]. *)
Definition parseStep (readable : Readable) : Step :=
  match readLength readable 8 with
  | Rejected e => Stop (Threw e) [8]
  | Resolved header r1 =>
      match readInt32BE header with
      | None => Stop (Threw OutOfRange) [8]
      | Some whole =>
          let length := whole - 8 in
          let type := typeOf header in
          match readLength r1 length with
          | Rejected e => Stop (Threw e) [8; length]
          | Resolved data r2 =>
              Yield (MP4Atom.mk header length type data) r2 [8; length]
          end
      end
  end.

(** [parseFragmentedMP4(readable)], run until the generator ends. *)
Definition parseFragmentedMP4 (readable : Readable) : Run MP4Atom.t :=
  loop parseStep (S (List.length readable)) readable.

End HksvHelpers.

(** ** Text helpers of the JavaScript runtime *)

Module Js.

(** [s.split(sep)] for a one-character separator. *)
Fixpoint split (sep : ascii) (s : string) : list string :=
  match s with
  | EmptyString => [EmptyString]
  | String c s' =>
      if Ascii.eqb c sep then EmptyString :: split sep s'
      else match split sep s' with
           | [] => [String c EmptyString]
           | w :: ws => String c w :: ws
           end
  end.

(** The ASCII characters matched by [\s]. *)
Definition isSpace (c : ascii) : bool :=
  let n := nat_of_ascii c in
  (n =? 32)%nat || ((9 <=? n)%nat && (n <=? 13)%nat).

(** [s.trim().split(/\s+/).filter((arg) => arg.length > 0)] *)
Fixpoint words_aux (cur : string) (s : string) : list string :=
  let flush := match cur with EmptyString => [] | _ => [cur] end in
  match s with
  | EmptyString => flush
  | String c s' =>
      if isSpace c then flush ++ words_aux EmptyString s'
      else words_aux (String.append cur (String c EmptyString)) s'
  end.

Definition words (s : string) : list string := words_aux EmptyString s.

(** [`${n}`] for an integer. *)
Definition ofNumber (n : Z) : string :=
  DecimalString.NilZero.string_of_int (Z.to_int n).

(** A value used as a condition: [undefined] and [0] are falsy. *)
Definition truthyNumber (n : option Z) : bool :=
  match n with
  | Some v => negb (v =? 0)
  | None => false
  end.

(** [n || fallback] for an optional number. *)
Definition orNumber (n : option Z) (fallback : Z) : Z :=
  match n with
  | Some v => if v =? 0 then fallback else v
  | None => fallback
  end.

(** A string used as a condition: [''] is falsy. *)
Definition nonEmpty (s : string) : bool :=
  match s with EmptyString => false | _ => true end.

(** [s.includes(needle)] *)
Fixpoint includes (needle s : string) : bool :=
  String.prefix needle s
  || match s with
     | EmptyString => false
     | String _ s' => includes needle s'
     end.

(** [s || fallback] for an optional string: [undefined] and [''] are falsy. *)
Definition orString (s : option string) (fallback : string) : string :=
  match s with
  | Some EmptyString | None => fallback
  | Some v => v
  end.

End Js.

(** ** The host: listening sockets and subprocesses *)

Inductive Effect : Type :=
| Listen (server : nat)
    (* createServer(...) followed by listenServer(server, log) *)
| Spawn (path : string) (args : list string).
    (* spawn(path, args, ...) *)

Definition isSpawn (e : Effect) : bool :=
  match e with Spawn _ _ => true | Listen _ => false end.

Definition isListen (e : Effect) : bool :=
  match e with Listen _ => true | Spawn _ _ => false end.

(** ** [prebuffer.ts] *)

Module PreBuffer.

(** [Mp4Session]: the listening server and the subprocess, each named by
    its rank among the host's servers and subprocesses. *)
Record Mp4Session : Type := mkSession
  { server : nat;
    process : nat }.

Record PrebufferFmp4 : Type := mkFmp4
  { atom : MP4Atom.t;
    time : Z }.

Definition DEFAULT_PREBUFFER_DURATION : Z := 15000.

Abbreviation SocketId := nat.

(** The connection of one consumer of [getVideo]: what was written to it,
    whether it was destroyed, and whether its 'close' and 'error' handlers
    are still attached. *)
Record Socket : Type := mkSocket
  { written : list Buffer;
    destroyed : bool;
    handlers : bool }.

Definition freshSocket : Socket := mkSocket [] false false.

(** The fields of the class, the listeners of [events] in the order they
    were added (a listener is named by the socket its closure writes to or
    cleans up), and the consumers' connections. *)
Record t : Type := mk
  { prebufferFmp4 : list PrebufferFmp4;
    released : bool;
    ftyp : option MP4Atom.t;
    moov : option MP4Atom.t;
    idrInterval : Z;
    prevIdr : Z;
    atomListeners : list SocketId;
    killedListeners : list SocketId;
    sockets : gmap SocketId Socket }.

(** The state a constructor leaves. *)
Definition new : t := mk [] false None None 0 0 [] [] ∅.

Definition socketOf (pb : t) (sock : SocketId) : Socket :=
  default freshSocket (sockets pb !! sock).

Definition setSocket (sock : SocketId) (s : Socket) (pb : t) : t :=
  mk (prebufferFmp4 pb) (released pb) (ftyp pb) (moov pb) (idrInterval pb)
     (prevIdr pb) (atomListeners pb) (killedListeners pb)
     (<[sock := s]> (sockets pb)).

Definition setPrebufferFmp4 (l : list PrebufferFmp4) (pb : t) : t :=
  mk l (released pb) (ftyp pb) (moov pb) (idrInterval pb) (prevIdr pb)
     (atomListeners pb) (killedListeners pb) (sockets pb).

(** [socket.write(buf)]: nothing reaches a destroyed socket. *)
Definition socketWrite (buf : Buffer) (s : Socket) : Socket :=
  if destroyed s then s
  else mkSocket (written s ++ [buf]) (destroyed s) (handlers s).

(** [writeAtom] of the connection [sock]. *)
Definition writeAtom (sock : SocketId) (a : MP4Atom.t) (pb : t) : t :=
  setSocket sock (socketWrite (MP4Atom.bytes a) (socketOf pb sock)) pb.

(** [this.events.emit('atom', atom)]: the listeners present when the event
    is emitted are called in the order they were added. *)
Definition emitAtom (a : MP4Atom.t) (pb : t) : t :=
  foldl (fun pb sock => writeAtom sock a pb) pb (atomListeners pb).

(** [while (this.prebufferFmp4.length &&
            this.prebufferFmp4[0].time < now - DEFAULT_PREBUFFER_DURATION)
       this.prebufferFmp4.shift();] *)
Fixpoint evict (now : Z) (l : list PrebufferFmp4) : list PrebufferFmp4 :=
  match l with
  | [] => []
  | p :: l' =>
      if time p <? now - DEFAULT_PREBUFFER_DURATION then evict now l' else l
  end.

(** The part of the loop body that stores the atom. *)
Definition store (now : Z) (a : MP4Atom.t) (pb : t) : t :=
  match ftyp pb with
  | None =>
      mk (prebufferFmp4 pb) (released pb) (Some a) (moov pb) (idrInterval pb)
         (prevIdr pb) (atomListeners pb) (killedListeners pb) (sockets pb)
  | Some _ =>
      match moov pb with
      | None =>
          mk (prebufferFmp4 pb) (released pb) (ftyp pb) (Some a)
             (idrInterval pb) (prevIdr pb) (atomListeners pb)
             (killedListeners pb) (sockets pb)
      | Some _ =>
          let isMdat := String.eqb (MP4Atom.type a) "mdat" in
          let idrInterval' :=
            if isMdat && negb (prevIdr pb =? 0) then now - prevIdr pb
            else idrInterval pb in
          let prevIdr' := if isMdat then now else prevIdr pb in
          mk (prebufferFmp4 pb ++ [mkFmp4 a now]) (released pb) (ftyp pb)
             (moov pb) idrInterval' prevIdr' (atomListeners pb)
             (killedListeners pb) (sockets pb)
      end
  end.

(** One turn of the ingestion loop of [startPreBuffer], for the atom [a]
    observed at [now = Date.now()]: store, evict, broadcast. *)
Definition ingest (now : Z) (a : MP4Atom.t) (pb : t) : t :=
  let pb1 := store now a pb in
  let pb2 := setPrebufferFmp4 (evict now (prebufferFmp4 pb1)) pb1 in
  emitAtom a pb2.

(** The ingestion loop over the atoms that arrive, each with the clock
    reading of its turn. *)
Definition ingestAll (arrivals : list (Z * MP4Atom.t)) (pb : t) : t :=
  foldl (fun pb na => ingest (fst na) (snd na) pb) pb arrivals.

(** The ingestion loop as [startPreBuffer] runs it on the connection of the
    subprocess: the atoms of [parseFragmentedMP4], the [k]-th one observed
    at [clock k]; the error that ends the parser is logged. *)
Definition ingestion (clock : nat -> Z) (socket : HksvHelpers.Readable)
    (pb : t) : t :=
  let atoms := yielded (HksvHelpers.parseFragmentedMP4 socket) in
  ingestAll (imap (fun k a => (clock k, a)) atoms) pb.

(** The loop of [getVideo] over the retained fragments: the atoms it
    writes, in order. *)
Fixpoint sendPrebuffered (now requestedPrebuffer : Z) (needMoof : bool)
    (l : list PrebufferFmp4) : list MP4Atom.t :=
  match l with
  | [] => []
  | prebuffer :: l' =>
      if time prebuffer <? now - requestedPrebuffer
      then sendPrebuffered now requestedPrebuffer needMoof l'
      else if needMoof && negb (String.eqb (MP4Atom.type (atom prebuffer)) "moof")
      then sendPrebuffered now requestedPrebuffer needMoof l'
      else atom prebuffer :: sendPrebuffered now requestedPrebuffer false l'
  end.

Definition writeAtoms (sock : SocketId) (atoms : list MP4Atom.t) (pb : t) : t :=
  foldl (fun pb a => writeAtom sock a pb) pb atoms.

Definition optionList {A} (o : option A) : list A :=
  match o with Some a => [a] | None => [] end.

(** The connection handler of the server of [getVideo(requestedPrebuffer)],
    for the connection [sock] accepted at [now = Date.now()]. *)
Definition getVideo (requestedPrebuffer : Z) (sock : SocketId) (now : Z)
    (pb : t) : t :=
  let pb0 := setSocket sock freshSocket pb in
  let pb1 := writeAtoms sock (optionList (ftyp pb0)) pb0 in
  let pb2 := writeAtoms sock (optionList (moov pb1)) pb1 in
  let pb3 :=
    writeAtoms sock
      (sendPrebuffered now requestedPrebuffer true (prebufferFmp4 pb2)) pb2 in
  let s := socketOf pb3 sock in
  mk (prebufferFmp4 pb3) (released pb3) (ftyp pb3) (moov pb3)
     (idrInterval pb3) (prevIdr pb3)
     (atomListeners pb3 ++ [sock]) (killedListeners pb3 ++ [sock])
     (<[sock := mkSocket (written s) (destroyed s) true]> (sockets pb3)).

(** [cleanup] of the connection [sock]. *)
Definition cleanup (sock : SocketId) (pb : t) : t :=
  let s := socketOf pb sock in
  mk (prebufferFmp4 pb) (released pb) (ftyp pb) (moov pb) (idrInterval pb)
     (prevIdr pb)
     (filter (fun x => x ≠ sock) (atomListeners pb))
     (filter (fun x => x ≠ sock) (killedListeners pb))
     (<[sock := mkSocket (written s) true false]> (sockets pb)).

(** The 'close' or 'error' event of the connection [sock]. *)
Definition socketClosed (sock : SocketId) (pb : t) : t :=
  if handlers (socketOf pb sock) then cleanup sock pb else pb.

(** [stop()]: emit 'killed', which runs every [cleanup] added with [once],
    then set [released]. *)
Definition stop (pb : t) : t :=
  let pb' := foldl (fun pb sock => cleanup sock pb) pb (killedListeners pb) in
  mk (prebufferFmp4 pb') true (ftyp pb') (moov pb') (idrInterval pb')
     (prevIdr pb') (atomListeners pb') [] (sockets pb').

(** [startPreBuffer(prebufferSession?)], up to the session it returns: the
    effects on the host are appended to [host]; [fmp4Port] is the port
    [listenServer] ends up with. *)
Definition startPreBuffer (ffmpegPath ffmpegInput : string) (fmp4Port : Z)
    (prebufferSession : option Mp4Session) (host : list Effect)
    : Mp4Session * list Effect :=
  match prebufferSession with
  | Some session => (session, host)
  | None =>
      let vcodec : list string := ["-vcodec"; "copy"] in
      let fmp4OutputServer := List.length (filter (fun e => isListen e = true) host) in
      let ffmpegOutput : list string :=
        ["-f"; "mp4"] ++ vcodec ++
        ["-movflags"; "frag_keyframe+empty_moov+default_base_moof";
         String.append "tcp://127.0.0.1:" (Js.ofNumber fmp4Port)] in
      let args := Js.split " " ffmpegInput ++ ffmpegOutput in
      let cp := List.length (filter (fun e => isSpawn e = true) host) in
      (mkSession fmp4OutputServer cp,
       host ++ [Listen fmp4OutputServer; Spawn ffmpegPath args])
  end.

End PreBuffer.

(** ** [recordingDelegate.ts] *)

Module RecordingDelegate.

Import HksvHelpers.

(** The fields of [VideoConfig] the recording path reads; [prebuffer] is
    its truth value as a condition. *)
Record VideoConfig : Type := mkVideoConfig
  { source : option string;
    prebuffer : bool;
    prebufferLength : option Z;
    audio : option bool }.

(** The recording configuration selected by the host platform.  Only its
    presence decides what is yielded; the encoder arguments derived from it
    reach the transcoder alone. *)
Record CameraRecordingConfiguration : Type := mkConfiguration
  { bitRate : Z;
    frameRate : Z }.

Record t : Type := mk
  { videoConfig : VideoConfig;
    videoProcessor : string;
    preBufferSession : option PreBuffer.Mp4Session;
    preBuffer : option PreBuffer.t;
    currentRecordingConfiguration : option CameraRecordingConfiguration }.

(** The state the constructor leaves. *)
Definition new (videoConfig : VideoConfig) (videoProcessor : string) : t :=
  mk videoConfig videoProcessor None None None.

(** [updateRecordingConfiguration(configuration)] *)
Definition updateRecordingConfiguration
    (configuration : option CameraRecordingConfiguration) (d : t) : t :=
  mk (videoConfig d) (videoProcessor d) (preBufferSession d) (preBuffer d)
     configuration.

(** [startPreBuffer()], with the effects on the host. *)
Definition startPreBuffer (fmp4Port : Z) (d : t) (host : list Effect)
    : t * list Effect :=
  if prebuffer (videoConfig d) then
    match preBuffer d with
    | None =>
        let pb := PreBuffer.new in
        match preBufferSession d with
        | None =>
            let '(session, host') :=
              PreBuffer.startPreBuffer (videoProcessor d)
                (Js.orString (source (videoConfig d)) "") fmp4Port None host in
            (mk (videoConfig d) (videoProcessor d) (Some session) (Some pb)
                (currentRecordingConfiguration d), host')
        | Some _ =>
            (mk (videoConfig d) (videoProcessor d) (preBufferSession d)
                (Some pb) (currentRecordingConfiguration d), host)
        end
    | Some _ => (d, host)
    end
  else (d, host).

(** [50 * 1024 * 1024] *)
Definition maxBoxLength : Z := 50 * 1024 * 1024.

(** The body of the loop of [generator] in
    [startFFMPegFragmentedMP4Session]: what is thrown inside [try] is
    thrown on unless the process was killed intentionally, in which case
    the loop is left. *)
Definition generatorStep (processKilledIntentionally : bool)
    (stdout : Readable) : Step :=
  let caught (error : Error) (requested : list Z) :=
    if processKilledIntentionally then Stop Returned requested
    else Stop (Threw error) requested in
  match readLength stdout 8 with
  | Rejected e => caught e [8]
  | Resolved header r1 =>
      match readInt32BE header with
      | None => caught OutOfRange [8]
      | Some whole =>
          let length := whole - 8 in
          let type := typeOf header in
          if (length <? 0) || (maxBoxLength <? length)
          then caught (InvalidBox length type) [8]
          else
            match readLength r1 length with
            | Rejected e => caught e [8; length]
            | Resolved data r2 =>
                Yield (MP4Atom.mk header length type data) r2 [8; length]
            end
      end
  end.

(** [generator()], run until it ends, on the standard output of the
    subprocess. *)
Definition generator (processKilledIntentionally : bool)
    (stdout : option Readable) : Run MP4Atom.t :=
  match stdout with
  | None => mkRun [] (Threw StdoutUnavailable) []
  | Some readable =>
      loop (generatorStep processKilledIntentionally)
           (S (List.length readable)) readable
  end.

(** The loop of [handleFragmentsRequests] over the boxes of the generator:
    the buffers it yields, in order. *)
Fixpoint compose (pending : list Buffer) (isFirstFragment : bool)
    (moofBuffer : option Buffer) (boxes : list MP4Atom.t) : list Buffer :=
  match boxes with
  | [] => []
  | box :: rest =>
      let header := MP4Atom.header box in
      let type := MP4Atom.type box in
      let data := MP4Atom.data box in
      let pending := pending ++ [header; data] in
      if isFirstFragment then
        if String.eqb type "moov" then
          let fragment := List.concat pending in
          fragment :: compose [] false moofBuffer rest
        else compose pending isFirstFragment moofBuffer rest
      else if String.eqb type "moof" then
        compose pending isFirstFragment (Some (header ++ data)) rest
      else if String.eqb type "mdat" then
        match moofBuffer with
        | Some moof =>
            let fragment := moof ++ header ++ data in
            fragment :: compose pending isFirstFragment None rest
        | None => compose pending isFirstFragment moofBuffer rest
        end
      else compose pending isFirstFragment moofBuffer rest
  end.

(** The transcoder started by [startFFMPegFragmentedMP4Session]: the spawn
    fails, or the subprocess runs with the given standard output. *)
Inductive Transcoder : Type :=
| SpawnFailed
| Spawned (stdout : option Readable) (processKilledIntentionally : bool).

(** The input arguments [handleFragmentsRequests] settles on; [port] is the
    port of the server of [getVideo]. *)
Definition ffmpegInput (d : t) (port : Z) : Error + list string :=
  let input :=
    match prebuffer (videoConfig d), preBuffer d with
    | true, Some _ =>
        inr ["-f"; "mp4"; "-i";
             String.append "tcp://127.0.0.1:" (Js.ofNumber port)]
    | _, _ =>
        match source (videoConfig d) with
        | None | Some EmptyString => inl NoVideoSource
        | Some s => inr (Js.words s)
        end
    end in
  match input with
  | inr [] => inl NoVideoSourceForRecording
  | other => other
  end.

(** [handleFragmentsRequests(configuration, streamId)], run until it ends.
    What the generator throws inside the loop is caught and logged. *)
Definition handleFragmentsRequests (d : t) (port : Z) (transcoder : Transcoder)
    : Run Buffer :=
  match ffmpegInput d port with
  | inl e => mkRun [] (Threw e) []
  | inr _ =>
      match transcoder with
      | SpawnFailed => mkRun [] (Threw SessionStartupFailed) []
      | Spawned stdout killed =>
          let g := generator killed stdout in
          mkRun (compose [] true None (yielded g)) Returned (reads g)
      end
  end.

Record RecordingPacket : Type := mkPacket
  { data : Buffer;
    isLast : bool }.

(** The [for await] loop of [handleRecordingStreamRequest]: [aborted k]
    is [abortController.signal.aborted] when the fragment of rank [k]
    arrives. *)
Fixpoint forward (aborted : nat -> bool) (k : nat) (fragments : list Buffer)
    : list RecordingPacket :=
  match fragments with
  | [] => []
  | fragmentBuffer :: rest =>
      if aborted k then []
      else mkPacket fragmentBuffer false :: forward aborted (S k) rest
  end.

(** [handleRecordingStreamRequest(streamId)], run until it ends: the
    packets it yields, with the delegate and the host it leaves. *)
Definition handleRecordingStreamRequest (fmp4Port port : Z)
    (transcoder : Transcoder) (aborted : nat -> bool)
    (d : t) (host : list Effect)
    : list RecordingPacket * t * list Effect :=
  match currentRecordingConfiguration d with
  | None => ([], d, host)
  | Some configuration =>
      let '(d1, host1) := startPreBuffer fmp4Port d host in
      let fragmentGenerator := handleFragmentsRequests d1 port transcoder in
      let packets := forward aborted 0 (yielded fragmentGenerator) in
      match ending fragmentGenerator with
      | Returned => (packets, d1, host1)
      | Threw error => (packets ++ [mkPacket [] true], d1, host1)
      end
  end.

(** The terminal record: no payload, end marker set. *)
Definition isEndMarker (p : RecordingPacket) : bool :=
  match data p with [] => isLast p | _ => false end.

End RecordingDelegate.

(** ** [streamingDelegate.ts]: resolution negotiation *)

Module StreamingDelegate.

(** The fields of [VideoConfig] the negotiation reads; [hflip] and [vflip]
    are their truth values as conditions. *)
Record VideoConfig : Type := mkVideoConfig
  { maxWidth : option Z;
    maxHeight : option Z;
    resolutionMode : option string;
    customWidth : option Z;
    customHeight : option Z;
    encoder : option string;
    hflip : bool;
    vflip : bool;
    videoFilter : option string }.

(** [SnapshotRequest | VideoInfo]: the dimensions asked for. *)
Record Request : Type := mkRequest
  { width : Z;
    height : Z }.

(** [ResolutionInfo]; [resizeFilter] is never set. *)
Module ResolutionInfo.
Record t : Type := mk
  { width : Z;
    height : Z;
    videoFilter : option string }.
End ResolutionInfo.

(** The [scale=...] filter of the software, AMF, QuickSync and NVENC
    paths. *)
Definition scaleFilter (width height : Z) : string :=
  String.concat ""
    ["scale=";
     if 0 <? width
     then String.concat "" ["'min("; Js.ofNumber width; ",iw)'"] else "iw";
     ":";
     if 0 <? height
     then String.concat "" ["'min("; Js.ofNumber height; ",ih)'"] else "ih";
     ":force_original_aspect_ratio=decrease"].

(** The [scale_vaapi=...] filter. *)
Definition scaleVaapiFilter (width height : Z) : string :=
  String.concat ""
    ["scale_vaapi=";
     if 0 <? width
     then String.concat "" ["w='min("; Js.ofNumber width; ",iw)'"] else "w=iw";
     ":";
     if 0 <? height
     then String.concat "" ["h='min("; Js.ofNumber height; ",ih)'"] else "h=ih";
     ":format=nv12"].

(** The filter chain built for the resolved dimensions. *)
Definition filterChain (videoConfig : VideoConfig) (width height : Z)
    (isSnapshot : bool) : option string :=
  let encoder := Js.orString (encoder videoConfig) "software" in
  let useHardwareAccel := negb (String.eqb encoder "software") && negb isSnapshot in
  if (0 <? width) || (0 <? height) then
    let flips :=
      (if hflip videoConfig then ["hflip"] else [])
      ++ (if vflip videoConfig then ["vflip"] else []) in
    let scaling :=
      if useHardwareAccel then
        if String.eqb encoder "vaapi" then [scaleVaapiFilter width height]
        else if String.eqb encoder "amf" then
          [scaleFilter width height; "format=nv12"]
        else if String.eqb encoder "quicksync" then
          [scaleFilter width height; "format=nv12";
           "hwupload=extra_hw_frames=64"]
        else if String.eqb encoder "nvenc" then
          [scaleFilter width height; "format=nv12"; "hwupload_cuda"]
        else []
      else [scaleFilter width height] in
    let custom :=
      match videoFilter videoConfig with
      | Some f =>
          if Js.nonEmpty f && negb (Js.includes "scale_" f) then [f] else []
      | None => []
      end in
    match flips ++ scaling ++ custom with
    | [] => None
    | filters => Some (String.concat "," filters)
    end
  else None.

Section Settings.

(** [HOMEKIT_MAX_WIDTH] and [HOMEKIT_MAX_HEIGHT] of the settings module. *)
Variables HOMEKIT_MAX_WIDTH HOMEKIT_MAX_HEIGHT : Z.

(** [const maxWidth = Math.min(this.videoConfig.maxWidth ||
    HOMEKIT_MAX_WIDTH, HOMEKIT_MAX_WIDTH)] *)
Definition effectiveMaxWidth (videoConfig : VideoConfig) : Z :=
  Z.min (Js.orNumber (maxWidth videoConfig) HOMEKIT_MAX_WIDTH)
        HOMEKIT_MAX_WIDTH.

Definition effectiveMaxHeight (videoConfig : VideoConfig) : Z :=
  Z.min (Js.orNumber (maxHeight videoConfig) HOMEKIT_MAX_HEIGHT)
        HOMEKIT_MAX_HEIGHT.

(** The dimensions [requestedWidth] and [requestedHeight] hold once the
    resolution mode has been handled. *)
Definition requestedAfterMode (videoConfig : VideoConfig) (request : Request)
    (isSnapshot : bool) : Z * Z :=
  let maxWidth := effectiveMaxWidth videoConfig in
  let maxHeight := effectiveMaxHeight videoConfig in
  let resolutionMode := Js.orString (resolutionMode videoConfig) "adaptive" in
  if negb isSnapshot && negb (String.eqb resolutionMode "adaptive") then
    if String.eqb resolutionMode "force-max" then (maxWidth, maxHeight)
    else if String.eqb resolutionMode "force-custom" then
      if Js.truthyNumber (customWidth videoConfig)
         && Js.truthyNumber (customHeight videoConfig)
      then (default 0 (customWidth videoConfig),
            default 0 (customHeight videoConfig))
      else (width request, height request)
    else (width request, height request)
  else (width request, height request).

(** [determineResolution(request, isSnapshot)] *)
Definition determineResolution (videoConfig : VideoConfig) (request : Request)
    (isSnapshot : bool) : ResolutionInfo.t :=
  let maxWidth := effectiveMaxWidth videoConfig in
  let maxHeight := effectiveMaxHeight videoConfig in
  let '(requestedWidth, requestedHeight) :=
    requestedAfterMode videoConfig request isSnapshot in
  let requestedWidth :=
    if maxWidth <? requestedWidth then maxWidth else requestedWidth in
  let requestedHeight :=
    if maxHeight <? requestedHeight then maxHeight else requestedHeight in
  ResolutionInfo.mk requestedWidth requestedHeight
    (filterChain videoConfig requestedWidth requestedHeight isSnapshot).

End Settings.

End StreamingDelegate.

(** ** [events.ts] *)

Module DahuaEvents.

(** A registered [MotionEventCallback], named by its identity. *)
Abbreviation MotionEventCallback := nat.

Record t : Type := mk
  { buffer : string;
    listeners : gmap Z (list MotionEventCallback);
    debug : bool }.

(** The state the constructor leaves. *)
Definition new (debug : bool) : t := mk EmptyString ∅ debug.

(** The arguments of one call of [notifyListeners]. *)
Record MotionEvent : Type := mkEvent
  { channel : Z;
    eventType : string;
    active : bool }.

(** One call [callback(channelId, eventType, active)]. *)
Record Call : Type := mkCall
  { callback : MotionEventCallback;
    arguments : MotionEvent }.

(** [onMotion(channelId, callback)] *)
Definition onMotion (channelId : Z) (cb : MotionEventCallback) (ev : t) : t :=
  mk (buffer ev)
     (<[channelId := default [] (listeners ev !! channelId) ++ [cb]]>
        (listeners ev))
     (debug ev).

(** [offMotion(channelId, callback)]: the first occurrence of the
    callback is taken out. *)
Fixpoint removeFirst (cb : MotionEventCallback)
    (callbacks : list MotionEventCallback) : list MotionEventCallback :=
  match callbacks with
  | [] => []
  | c :: rest => if (c =? cb)%nat then rest else c :: removeFirst cb rest
  end.

Definition offMotion (channelId : Z) (cb : MotionEventCallback) (ev : t) : t :=
  match listeners ev !! channelId with
  | Some callbacks =>
      mk (buffer ev) (<[channelId := removeFirst cb callbacks]> (listeners ev))
         (debug ev)
  | None => ev
  end.

(** *** The pattern [/Code=([^;]+);action=([^;]+);index=(\d+)/g] *)

Fixpoint stripPrefix (p s : string) : option string :=
  match p with
  | EmptyString => Some s
  | String a p' =>
      match s with
      | String b s' => if Ascii.eqb a b then stripPrefix p' s' else None
      | EmptyString => None
      end
  end.

(** The longest run of characters accepted by [f] at the head of [s], and
    what follows it. *)
Fixpoint span (f : ascii -> bool) (s : string) : string * string :=
  match s with
  | EmptyString => (EmptyString, EmptyString)
  | String c s' =>
      if f c then let '(run, rest) := span f s' in (String c run, rest)
      else (EmptyString, s)
  end.

Definition notSemicolon (c : ascii) : bool := negb (Ascii.eqb c ";").

Definition isDigit (c : ascii) : bool :=
  let n := nat_of_ascii c in (48 <=? n)%nat && (n <=? 57)%nat.

Definition nonEmpty (s : string) : bool :=
  match s with EmptyString => false | _ => true end.

(** A match of the pattern that starts at the head of [s]: the three
    groups and what follows the match.  Each [[^;]+] is followed by a
    literal [;], so the run it matches is the whole run of characters
    other than [;]; [\d+] ends the pattern and takes every digit. *)
Definition matchAt (s : string) : option (string * string * string * string) :=
  match stripPrefix "Code=" s with
  | None => None
  | Some s1 =>
      let '(g1, s2) := span notSemicolon s1 in
      if negb (nonEmpty g1) then None else
      match stripPrefix ";action=" s2 with
      | None => None
      | Some s3 =>
          let '(g2, s4) := span notSemicolon s3 in
          if negb (nonEmpty g2) then None else
          match stripPrefix ";index=" s4 with
          | None => None
          | Some s5 =>
              let '(g3, s6) := span isDigit s5 in
              if negb (nonEmpty g3) then None else Some (g1, g2, g3, s6)
          end
      end
  end.

(** The successive results of [eventRegex.exec(this.buffer)] until it
    returns [null]: each search resumes where the previous match ended.
    Every turn moves at least one character on, so [fuel] above the length
    of [s] is never used up. *)
Fixpoint execAll (fuel : nat) (s : string) : list (string * string * string) :=
  match fuel with
  | O => []
  | S fuel' =>
      match matchAt s with
      | Some (g1, g2, g3, rest) => (g1, g2, g3) :: execAll fuel' rest
      | None =>
          match s with
          | EmptyString => []
          | String _ s' => execAll fuel' s'
          end
      end
  end.

(** [parseInt(digits, 10)] on a run of decimal digits, as an exact
    integer; the number of the code is a double, which is that integer
    below 2^53. *)
Definition parseInt (digits : string) : Z :=
  fold_left
    (fun acc c => 10 * acc + (Z.of_nat (nat_of_ascii c) - 48))
    (list_ascii_of_string digits) 0.

(** [s.toLowerCase()] on ASCII text. *)
Definition toLowerCase (s : string) : string :=
  string_of_list_ascii
    (List.map
       (fun c =>
          let n := nat_of_ascii c in
          if (65 <=? n)%nat && (n <=? 90)%nat then ascii_of_nat (n + 32) else c)
       (list_ascii_of_string s)).

Definition dahuaMotionEvents : list string :=
  ["VideoMotion"; "CrossLineDetection"; "CrossRegionDetection"; "AlarmLocal"].

(** [parseEvent(eventType, action, channelIndex)]: the call of
    [notifyListeners] it makes, if any. *)
Definition parseEvent (eventType action : string) (channelIndex : Z)
    : option MotionEvent :=
  let channelId := channelIndex + 1 in
  let active := String.eqb (toLowerCase action) "start" in
  if negb (existsb (String.eqb eventType) dahuaMotionEvents) then None
  else Some (mkEvent channelId eventType active).

(** [notifyListeners(channelId, eventType, active)]: the callbacks of the
    channel are called in order; what one throws is caught and logged. *)
Definition notifyListeners (listeners : gmap Z (list MotionEventCallback))
    (e : MotionEvent) : list Call :=
  match listeners !! channel e with
  | Some callbacks => List.map (fun cb => mkCall cb e) callbacks
  | None => []
  end.

(** The events the [while] loop of [handleChunk] hands to
    [notifyListeners], in order. *)
Definition dispatched (buffer : string) : list MotionEvent :=
  omap
    (fun m : string * string * string =>
       let '(eventType, action, digits) := m in
       parseEvent eventType action (parseInt digits))
    (execAll (S (String.length buffer)) buffer).

(** [s.substring(n)] *)
Fixpoint substringFrom (n : nat) (s : string) : string :=
  match n, s with
  | O, _ => s
  | S n', String _ s' => substringFrom n' s'
  | S _, EmptyString => EmptyString
  end.

(** The first index at or after [i] where [needle] occurs, [s] being the
    text from index [i] on. *)
Fixpoint indexOfAux (needle s : string) (i : nat) : option nat :=
  if String.prefix needle s then Some i
  else match s with
       | EmptyString => None
       | String _ s' => indexOfAux needle s' (S i)
       end.

(** [s.indexOf(needle, from)], [None] for [-1]. *)
Definition indexOf (needle s : string) (from : nat) : option nat :=
  indexOfAux needle (substringFrom from s) from.

Fixpoint lastIndexOfAux (needle s : string) (i : nat) : option nat :=
  let here := if String.prefix needle s then Some i else None in
  match s with
  | EmptyString => here
  | String _ s' =>
      match lastIndexOfAux needle s' (S i) with
      | Some j => Some j
      | None => here
      end
  end.

(** [s.lastIndexOf(needle)], [None] for [-1]. *)
Definition lastIndexOf (needle s : string) : option nat :=
  lastIndexOfAux needle s 0.

Definition newline : string := String (ascii_of_nat 10) EmptyString.

(** The trimming of the buffer in [handleChunk]. *)
Definition trim (buffer : string) : string :=
  match lastIndexOf "index=" buffer with
  | None => buffer
  | Some lastMatch =>
      let nextBoundary := indexOf "--" buffer lastMatch in
      let nextNewline := indexOf newline buffer lastMatch in
      let cutPoint :=
        match nextBoundary, nextNewline with
        | Some b, Some n => Some (Nat.min b n)
        | Some b, None => Some b
        | None, Some n => Some n
        | None, None => None
        end in
      match cutPoint with
      | Some c => if (lastMatch <? c)%nat then substringFrom c buffer else buffer
      | None => buffer
      end
  end.

(** [handleChunk(chunk)]: the state it leaves, the events handed to
    [notifyListeners] and the callbacks called, in order. *)
Definition handleChunk (chunk : string) (ev : t)
    : t * list MotionEvent * list Call :=
  let buffer := String.append (buffer ev) chunk in
  let events := dispatched buffer in
  let buffer := trim buffer in
  let buffer :=
    if 100000 <? Z.of_nat (String.length buffer) then EmptyString else buffer in
  (mk buffer (listeners ev) (debug ev), events,
   List.concat (List.map (notifyListeners (listeners ev)) events)).

End DahuaEvents.

(** ** Predicates used by the properties *)

(** Clock readings in arrival order that never go back. *)
Fixpoint nondecreasing (times : list Z) : bool :=
  match times with
  | [] => true
  | t :: rest =>
      match rest with
      | [] => true
      | t' :: _ => (t <=? t') && nondecreasing rest
      end
  end.

(** The tag tests of the source, as decidable predicates on atoms. *)
Definition isType (tag : string) (a : MP4Atom.t) : bool :=
  String.eqb (MP4Atom.type a) tag.

(** A live-stream request whose dimensions the 'force-custom' mode
    replaces by the configured custom ones. *)
Definition forcedCustom (videoConfig : StreamingDelegate.VideoConfig)
    (isSnapshot : bool) : bool :=
  negb isSnapshot
  && String.eqb
       (Js.orString (StreamingDelegate.resolutionMode videoConfig) "adaptive")
       "force-custom"
  && Js.truthyNumber (StreamingDelegate.customWidth videoConfig)
  && Js.truthyNumber (StreamingDelegate.customHeight videoConfig).

(** A box that is neither a 'moof' nor an 'mdat'. *)
Definition neither (a : MP4Atom.t) : Prop :=
  isType "moof" a = false /\ isType "mdat" a = false.

(** The box with the given tag and payload, as the container format lays
    it out: the length of the whole box on four big-endian bytes, the tag,
    the payload. *)
Definition byteOf (n : Z) : byte :=
  default x00 (Byte.of_N (Z.to_N (n mod 256))).

Definition boxOf (tag : string) (payload : Buffer) : MP4Atom.t :=
  let whole := Z.of_nat (List.length payload) + 8 in
  MP4Atom.mk
    ([byteOf (Z.shiftr whole 24); byteOf (Z.shiftr whole 16);
      byteOf (Z.shiftr whole 8); byteOf whole] ++ list_byte_of_string tag)
    (whole - 8) tag payload.

(** Retained fragments whose observation times are in arrival order. *)
Definition timeOrdered (l : list PreBuffer.PrebufferFmp4) : Prop :=
  StronglySorted (fun p q => PreBuffer.time p <= PreBuffer.time q) l.

(** A retained fragment that [getVideo] does not skip for its age. *)
Definition fresh (now requestedPrebuffer : Z) (p : PreBuffer.PrebufferFmp4)
    : Prop :=
  now - requestedPrebuffer <= PreBuffer.time p.

(** The invariant of the ingestion loop under a clock that does not go
    back: the sequence is in arrival order and no fragment is later than
    the last clock reading. *)
Definition ingested (latest : Z) (pb : PreBuffer.t) : Prop :=
  timeOrdered (PreBuffer.prebufferFmp4 pb)
  /\ Forall (fun p => PreBuffer.time p <= latest) (PreBuffer.prebufferFmp4 pb).

#[global] Instance fresh_dec now requestedPrebuffer p :
  Decision (fresh now requestedPrebuffer p).
Proof. unfold fresh. apply _. Defined.

(** A loop body that yields only after it has consumed bytes of the
    source. *)
Definition progress (step : HksvHelpers.Readable -> HksvHelpers.Step) : Prop :=
  forall readable atom rest requested,
    step readable = HksvHelpers.Yield atom rest requested ->
    (List.length rest < List.length readable)%nat.

(** An atom laid out as the container format has it: a header of 8 bytes
    that encodes the payload length plus 8 and carries the tag, and a
    payload of that length. *)
Definition wellFormed (a : MP4Atom.t) : Prop :=
  List.length (MP4Atom.header a) = 8%nat
  /\ HksvHelpers.readInt32BE (MP4Atom.header a) = Some (MP4Atom.length a + 8)
  /\ MP4Atom.type a = HksvHelpers.typeOf (MP4Atom.header a)
  /\ Z.of_nat (List.length (MP4Atom.data a)) = MP4Atom.length a.

(** ** [hksvHelpers.ts]: [listenServer] *)

Module ListenServer.

(** What becomes of one [server.listen(port)]: the server emits
    'listening', and [server.address()] then carries a port or does not,
    or the server emits 'error'. *)
Inductive Outcome : Type :=
| Listening (address : option Z)
| Failed.

(** One turn of the loop: the value of [Math.random()] and what becomes
    of the call of [listen]. *)
Record Turn : Type := mkTurn
  { random : Q;
    outcome : Outcome }.

(** [Math.round(x)] *)
Definition round (x : Q) : Z := Qfloor (x + (1 # 2)).

(** [listenServer(server, log)] over the turns the host grants: the ports
    passed to [server.listen], in order, and the port returned, [None]
    while the loop goes on.  When the address is not available the error
    is thrown after [isListening] was set: it is caught and logged, the
    loop is left and 0 is returned. *)
Fixpoint listenServer (turns : list Turn) : list Z * option Z :=
  match turns with
  | [] => ([], None)
  | turn :: rest =>
      let port := 10000 + round (random turn * 30000) in
      match outcome turn with
      | Listening (Some addressPort) => ([port], Some addressPort)
      | Listening None => ([port], Some 0)
      | Failed =>
          let '(ports, result) := listenServer rest in (port :: ports, result)
      end
  end.

End ListenServer.

(** ** Subprocesses *)

Module ChildProcess.

Inductive Signal : Type :=
| SIGTERM
| SIGKILL.

(** A subprocess as the delegates see it: [handle] holds from the spawn
    until the process has exited, [killed] is the property of that name
    and [signals] are the signals delivered, in order. *)
Record t : Type := mk
  { handle : bool;
    killed : bool;
    signals : list Signal }.

(** What [spawn] returns. *)
Definition spawned : t := mk true false [].

(** [process.kill(signal)]: while the process has not exited the signal is
    delivered and [killed] is set; afterwards the call does nothing. *)
Definition kill (signal : Signal) (p : t) : t :=
  if handle p then mk true true (signals p ++ [signal]) else p.

(** The process exits. *)
Definition exited (p : t) : t := mk false (killed p) (signals p).

End ChildProcess.

(** ** [streamingDelegate.ts]: live streams and snapshots *)

Module LiveStream.

(** [VideoConfig], as the delegate holds it once the defaults are merged
    in: [negotiation] holds the fields [determineResolution] reads, the
    encoder among them; [audio] and [debug] are their truth values as
    conditions. *)
Record VideoConfig : Type := mkVideoConfig
  { negotiation : StreamingDelegate.VideoConfig;
    source : option string;
    stillImageSource : option string;
    maxBitrate : option Z;
    minBitrate : option Z;
    vcodec : option string;
    packetSize : option Z;
    encoderOptions : option string;
    qualityProfile : option string;
    hwaccelDevice : option string;
    audio : bool;
    mapvideo : option string;
    mapaudio : option string;
    debug : bool }.

Record SessionInfo : Type := mkSessionInfo
  { address : string;
    ipv6 : bool;
    videoPort : Z;
    videoReturnPort : Z;
    videoCryptoSuite : Z;
    videoSRTP : Buffer;
    videoSSRC : Z;
    audioPort : Z;
    audioReturnPort : Z;
    audioCryptoSuite : Z;
    audioSRTP : Buffer;
    audioSSRC : Z }.

(** [ActiveSession]: [audioProcess], [returnProcess], [timeout] and
    [socket] are never set; the subprocess is named by its identity. *)
Record ActiveSession : Type := mkActiveSession
  { sessionInfo : SessionInfo;
    videoProcess : nat }.

(** One side of a [PrepareStreamRequest]. *)
Record Source : Type := mkSource
  { port : Z;
    srtpCryptoSuite : Z;
    srtp_key : Buffer;
    srtp_salt : Buffer }.

Record PrepareStreamRequest : Type := mkPrepareStreamRequest
  { prepareSessionID : string;
    targetAddress : string;
    addressVersion : string;
    prepareVideo : Source;
    prepareAudio : Source }.

(** What [pickPort] and [generateSynchronisationSource] return to one
    [prepareStream], in the order of the calls. *)
Record Picked : Type := mkPicked
  { pickedVideoPort : Z;
    pickedVideoReturnPort : Z;
    pickedAudioPort : Z;
    pickedAudioReturnPort : Z;
    generatedVideoSSRC : Z;
    generatedAudioSSRC : Z }.

Record ResponseSide : Type := mkResponseSide
  { responsePort : Z;
    ssrc : Z;
    responseKey : Buffer;
    responseSalt : Buffer }.

Record PrepareStreamResponse : Type := mkPrepareStreamResponse
  { responseVideo : ResponseSide;
    responseAudio : ResponseSide }.

(** [AudioStreamingCodecType] *)
Inductive AudioCodec : Type :=
| OPUS
| AAC_ELD
| OtherCodec (name : string).

(** The fields of [request.video] that are read; [pt] is absent when the
    request carries no payload type. *)
Record VideoInfo : Type := mkVideoInfo
  { width : Z;
    height : Z;
    max_bit_rate : Z;
    pt : option Z }.

Record AudioInfo : Type := mkAudioInfo
  { codec : AudioCodec;
    sample_rate : Z;
    audio_max_bit_rate : Z;
    channel : Z;
    audio_pt : option Z }.

Inductive StreamRequestTypes : Type :=
| START
| RECONFIGURE
| STOP.

Record StreamingRequest : Type := mkStreamingRequest
  { type : StreamRequestTypes;
    sessionID : string;
    video : option VideoInfo;
    audio_ : option AudioInfo }.

(** What a callback is called with. *)
Inductive Answer (A : Type) : Type :=
| Failure (message : string)
| Success (value : A).
Arguments Failure {A}.
Arguments Success {A}.

Record t : Type := mk
  { videoConfig : VideoConfig;
    videoProcessor : string;
    pendingSessions : gmap string SessionInfo;
    activeSessions : gmap string ActiveSession;
    cachedSnapshot : option Buffer;
    cachedSnapshotTime : Z;
    processes : gmap nat ChildProcess.t;
    host : list Effect }.

(** The state the constructor leaves. *)
Definition new (videoConfig : VideoConfig) (videoProcessor : string) : t :=
  mk videoConfig videoProcessor ∅ ∅ None 0 ∅ [].

Definition encoderOf (videoConfig : VideoConfig) : string :=
  Js.orString (StreamingDelegate.encoder (negotiation videoConfig)) "software".

(** [let vcodec = this.videoConfig.vcodec; if (!vcodec) { ... }] *)
Definition vcodecOf (videoConfig : VideoConfig) : string :=
  let encoder := encoderOf videoConfig in
  let auto :=
    if String.eqb encoder "vaapi" then "h264_vaapi"
    else if String.eqb encoder "amf" then "h264_amf"
    else if String.eqb encoder "quicksync" then "h264_qsv"
    else if String.eqb encoder "nvenc" then "h264_nvenc"
    else if String.eqb encoder "videotoolbox" then "h264_videotoolbox"
    else if String.eqb encoder "v4l2" then "h264_v4l2m2m"
    else "libx264" in
  Js.orString (vcodec videoConfig) auto.

(** The three settings of a quality profile: [gopSize], [bframes] and
    [encoderOptions]. *)
Definition profileSettings (qualityProfile : option string)
    (speed quality balanced none : string) : Z * Z * string :=
  match qualityProfile with
  | Some profile =>
      if String.eqb profile "speed" then (25, 0, speed)
      else if String.eqb profile "quality" then (13, 2, quality)
      else if String.eqb profile "balanced" then (19, 0, balanced)
      else (0, -1, none)
  | None => (0, -1, none)
  end.

(** [gopSize], [bframes] and [encoderOptions] once the defaults of
    [buildFfmpegArgs] are settled. *)
Definition encoderSettings (videoConfig : VideoConfig) : Z * Z * string :=
  let vcodec := vcodecOf videoConfig in
  let qualityProfile := qualityProfile videoConfig in
  match encoderOptions videoConfig with
  | Some (String c options) => (0, -1, String c options)
  | _ =>
      if String.eqb vcodec "libx264"
      then (0, -1, "-preset ultrafast -tune zerolatency")
      else if String.eqb vcodec "h264_vaapi"
      then profileSettings qualityProfile
             "-quality 1" "-quality 7" "-quality 4" ""
      else if String.eqb vcodec "h264_amf"
      then profileSettings qualityProfile
             "-usage transcoding -quality speed"
             "-usage transcoding -quality quality"
             "-usage transcoding -quality balanced"
             "-usage transcoding"
      else if String.eqb vcodec "h264_qsv"
      then profileSettings qualityProfile
             "-preset veryfast" "-preset slow" "-preset medium"
             "-preset medium"
      else if Js.includes "nvenc" vcodec
      then profileSettings qualityProfile
             "-preset p1 -tune ll" "-preset p7 -tune hq" "-preset p4 -tune ll"
             "-preset p4 -tune ll"
      else (0, -1, "")
  end.

(** [buf.toString('base64')] *)
Definition base64Digit (n : N) : ascii :=
  default "="%char
    (String.get (N.to_nat n)
       "ABCDEFGHIJKLMNOPQRSTUVWXYZabcdefghijklmnopqrstuvwxyz0123456789+/").

Fixpoint base64 (buf : Buffer) : string :=
  match buf with
  | [] => ""
  | [a] =>
      let a := Byte.to_N a in
      String (base64Digit (N.shiftr a 2))
        (String (base64Digit (N.shiftl (N.land a 3) 4)) "==")
  | [a; b] =>
      let a := Byte.to_N a in
      let b := Byte.to_N b in
      String (base64Digit (N.shiftr a 2))
        (String (base64Digit (N.lor (N.shiftl (N.land a 3) 4) (N.shiftr b 4)))
           (String (base64Digit (N.shiftl (N.land b 15) 2)) "="))
  | a :: b :: c :: rest =>
      let a := Byte.to_N a in
      let b := Byte.to_N b in
      let c := Byte.to_N c in
      String (base64Digit (N.shiftr a 2))
        (String (base64Digit (N.lor (N.shiftl (N.land a 3) 4) (N.shiftr b 4)))
           (String
              (base64Digit (N.lor (N.shiftl (N.land b 15) 2) (N.shiftr c 6)))
              (String (base64Digit (N.land c 63)) (base64 rest))))
  end.

(** The whitespace at the head of [s] taken off. *)
Fixpoint dropSpaces (s : string) : string :=
  match s with
  | String c s' => if Js.isSpace c then dropSpaces s' else s
  | EmptyString => EmptyString
  end.

(** [source.replace(/-i\s+/, '-allowed_media_types video -i ')]: the
    first [-i] that whitespace follows is replaced together with that
    whitespace. *)
Fixpoint replaceInput (source : string) : string :=
  match source with
  | EmptyString => EmptyString
  | String c source' =>
      match DahuaEvents.stripPrefix "-i" source with
      | Some (String d rest) =>
          if Js.isSpace d
          then String.append "-allowed_media_types video -i " (dropSpaces rest)
          else String c (replaceInput source')
      | _ => String c (replaceInput source')
      end
  end.

(** A string of a template used as a condition. *)
Definition whenSet (value : option string) (render : string -> string)
    (otherwise : string) : string :=
  match value with
  | Some (String c s) => render (String c s)
  | _ => otherwise
  end.

(** [buildFfmpegArgs(source, sessionInfo, resolution, bitrate, request)]
    for a request that carries video information. *)
Definition buildFfmpegArgs (videoConfig : VideoConfig) (source : string)
    (sessionInfo : SessionInfo) (resolution : StreamingDelegate.ResolutionInfo.t)
    (bitrate : Z) (video : VideoInfo) (requestAudio : option AudioInfo)
    : string :=
  let encoder := encoderOf videoConfig in
  let vcodec := vcodecOf videoConfig in
  let mtu := Js.orNumber (packetSize videoConfig) 1316 in
  let '(gopSize, bframes, encoderOptions) := encoderSettings videoConfig in
  let hardware :=
    if String.eqb encoder "vaapi" then
      let hwDevice :=
        Js.orString (hwaccelDevice videoConfig) "/dev/dri/renderD128" in
      String.concat ""
        ["-hwaccel vaapi -hwaccel_device "; hwDevice;
         " -hwaccel_output_format vaapi "]
    else if String.eqb encoder "quicksync" then "-init_hw_device qsv=hw "
    else if String.eqb encoder "nvenc" then "-init_hw_device cuda=cu:0 "
    else "" in
  let modifiedSource :=
    if negb (audio videoConfig) && Js.includes "rtsp://" source
    then replaceInput source else source in
  let isHardwareEncoder := negb (String.eqb encoder "software") in
  let pixFmt := if isHardwareEncoder then "" else " -pix_fmt yuv420p" in
  let colorRange :=
    if isHardwareEncoder && negb (String.eqb encoder "vaapi")
    then " -color_range mpeg" else "" in
  let gopParams :=
    if 0 <? gopSize then String.append " -g " (Js.ofNumber gopSize) else "" in
  let bframeParams :=
    if 0 <=? bframes then String.append " -bf " (Js.ofNumber bframes) else "" in
  let videoArgs :=
    String.concat ""
      [whenSet (mapvideo videoConfig) (String.append " -map ") " -an -sn -dn";
       " -codec:v "; vcodec;
       pixFmt;
       colorRange;
       whenSet (StreamingDelegate.ResolutionInfo.videoFilter resolution)
         (String.append " -filter:v ") "";
       if Js.nonEmpty encoderOptions
       then String.append " " encoderOptions else "";
       bframeParams;
       gopParams;
       if 0 <? bitrate
       then String.concat "" [" -b:v "; Js.ofNumber bitrate; "k"] else "";
       " -payload_type "; Js.ofNumber (default 99 (pt video))] in
  let videoStream :=
    String.concat ""
      [" -ssrc "; Js.ofNumber (videoSSRC sessionInfo);
       " -f rtp";
       " -srtp_out_suite AES_CM_128_HMAC_SHA1_80";
       " -srtp_out_params "; base64 (videoSRTP sessionInfo);
       " srtp://"; address sessionInfo; ":";
       Js.ofNumber (videoPort sessionInfo);
       "?rtcpport="; Js.ofNumber (videoPort sessionInfo);
       "&pkt_size="; Js.ofNumber mtu] in
  let audioArgs :=
    match audio videoConfig, requestAudio with
    | true, Some requested =>
        match codec requested with
        | OtherCodec _ => ""
        | requestedCodec =>
            String.concat ""
              [whenSet (mapaudio videoConfig) (String.append " -map ")
                 " -vn -sn -dn";
               match requestedCodec with
               | OPUS => " -codec:a libopus -application lowdelay"
               | _ => " -codec:a libfdk_aac -profile:a aac_eld"
               end;
               " -flags +global_header";
               " -f null";
               " -ar "; Js.ofNumber (sample_rate requested); "k";
               " -b:a "; Js.ofNumber (audio_max_bit_rate requested); "k";
               " -ac "; Js.ofNumber (channel requested);
               " -payload_type "; Js.ofNumber (default 110 (audio_pt requested));
               " -ssrc "; Js.ofNumber (audioSSRC sessionInfo);
               " -f rtp";
               " -srtp_out_suite AES_CM_128_HMAC_SHA1_80";
               " -srtp_out_params "; base64 (audioSRTP sessionInfo);
               " srtp://"; address sessionInfo; ":";
               Js.ofNumber (audioPort sessionInfo);
               "?rtcpport="; Js.ofNumber (audioPort sessionInfo);
               "&pkt_size=188"]
        end
    | _, _ => ""
    end in
  String.concat ""
    [hardware; modifiedSource; videoArgs; videoStream; audioArgs;
     " -loglevel level"; if debug videoConfig then "+verbose" else "";
     " -progress pipe:1"].

(** [let bitrate = request.video.max_bit_rate; ...]: the two clamps of
    [startStream]. *)
Definition clampBitrate (videoConfig : VideoConfig) (max_bit_rate : Z) : Z :=
  let bitrate := max_bit_rate in
  let bitrate :=
    match maxBitrate videoConfig with
    | Some limit =>
        if negb (limit =? 0) && (limit <? bitrate) then limit else bitrate
    | None => bitrate
    end in
  match minBitrate videoConfig with
  | Some limit =>
      if negb (limit =? 0) && (bitrate <? limit) then limit else bitrate
  | None => bitrate
  end.

(** [stopStream(sessionID)] *)
Definition stopStream (sessionID : string) (d : t) : t :=
  match activeSessions d !! sessionID with
  | None => d
  | Some session =>
      mk (videoConfig d) (videoProcessor d) (pendingSessions d)
         (delete sessionID (activeSessions d))
         (cachedSnapshot d) (cachedSnapshotTime d)
         (alter (ChildProcess.kill ChildProcess.SIGKILL)
            (videoProcess session) (processes d))
         (host d)
  end.

(** The loop of [stopAllStreams], over the keys it is given. *)
Definition stopStreams (sessionIDs : list string) (d : t) : t :=
  foldl (fun d sessionID => stopStream sessionID d) d sessionIDs.

(** [stopAllStreams()].  The sessions are taken in the order of the keys
    of the map. *)
Definition stopAllStreams (d : t) : t :=
  stopStreams (map_to_list (activeSessions d)).*1 d.

(** [prepareStream(request, callback)] *)
Definition prepareStream (request : PrepareStreamRequest) (picked : Picked)
    (d : t) : t * Answer PrepareStreamResponse :=
  let ipv6 := String.eqb (addressVersion request) "ipv6" in
  let sessionInfo :=
    mkSessionInfo
      (targetAddress request)
      ipv6
      (port (prepareVideo request))
      (pickedVideoReturnPort picked)
      (srtpCryptoSuite (prepareVideo request))
      (srtp_key (prepareVideo request) ++ srtp_salt (prepareVideo request))
      (generatedVideoSSRC picked)
      (port (prepareAudio request))
      (pickedAudioReturnPort picked)
      (srtpCryptoSuite (prepareAudio request))
      (srtp_key (prepareAudio request) ++ srtp_salt (prepareAudio request))
      (generatedAudioSSRC picked) in
  let response :=
    mkPrepareStreamResponse
      (mkResponseSide (pickedVideoPort picked) (videoSSRC sessionInfo)
         (srtp_key (prepareVideo request)) (srtp_salt (prepareVideo request)))
      (mkResponseSide (pickedAudioPort picked) (audioSSRC sessionInfo)
         (srtp_key (prepareAudio request)) (srtp_salt (prepareAudio request))) in
  (mk (videoConfig d) (videoProcessor d)
      (<[prepareSessionID request := sessionInfo]> (pendingSessions d))
      (activeSessions d) (cachedSnapshot d) (cachedSnapshotTime d)
      (processes d) (host d),
   Success response).

Section Settings.

Variables HOMEKIT_MAX_WIDTH HOMEKIT_MAX_HEIGHT : Z.

(** [startStream(request, callback)]; [pid] names the subprocess that
    [spawn] returns. *)
Definition startStream (pid : nat) (request : StreamingRequest) (d : t)
    : t * Answer unit :=
  match pendingSessions d !! sessionID request with
  | None => (d, Failure "Session not found")
  | Some sessionInfo =>
      let d :=
        mk (videoConfig d) (videoProcessor d)
           (delete (sessionID request) (pendingSessions d))
           (activeSessions d) (cachedSnapshot d) (cachedSnapshotTime d)
           (processes d) (host d) in
      match video request with
      | None => (d, Failure "Invalid request")
      | Some video =>
          let resolution :=
            StreamingDelegate.determineResolution HOMEKIT_MAX_WIDTH
              HOMEKIT_MAX_HEIGHT (negotiation (videoConfig d))
              (StreamingDelegate.mkRequest (width video) (height video))
              false in
          let bitrate := clampBitrate (videoConfig d) (max_bit_rate video) in
          match source (videoConfig d) with
          | Some (String c s) =>
              let source := String c s in
              let ffmpegArgs :=
                buildFfmpegArgs (videoConfig d) source sessionInfo resolution
                  bitrate video (audio_ request) in
              let args := Js.words ffmpegArgs in
              let activeSession := mkActiveSession sessionInfo pid in
              (mk (videoConfig d) (videoProcessor d) (pendingSessions d)
                  (<[sessionID request := activeSession]> (activeSessions d))
                  (cachedSnapshot d) (cachedSnapshotTime d)
                  (<[pid := ChildProcess.spawned]> (processes d))
                  (host d ++ [Spawn (videoProcessor d) args]),
               Success tt)
          | _ => (d, Failure "No source configured")
          end
      end
  end.

(** [handleStreamRequest(request, callback)] *)
Definition handleStreamRequest (pid : nat) (request : StreamingRequest)
    (d : t) : t * Answer unit :=
  match type request with
  | START => startStream pid request d
  | RECONFIGURE => (d, Success tt)
  | STOP => (stopStream (sessionID request) d, Success tt)
  end.

(** The subprocess of a stream emits 'close' or 'error': the handlers
    registered by [startStream] stop the stream of their session. *)
Definition videoProcessClosed (pid : nat) (sessionID : string) (d : t) : t :=
  stopStream sessionID
    (mk (videoConfig d) (videoProcessor d) (pendingSessions d)
        (activeSessions d) (cachedSnapshot d) (cachedSnapshotTime d)
        (alter ChildProcess.exited pid (processes d)) (host d)).

(** [s.split(/\s+/)] *)
Fixpoint splitSpaces_aux (cur : string) (inRun : bool) (s : string)
    : list string :=
  match s with
  | EmptyString => [cur]
  | String c s' =>
      if Js.isSpace c then
        if inRun then splitSpaces_aux EmptyString true s'
        else cur :: splitSpaces_aux EmptyString true s'
      else splitSpaces_aux (String.append cur (String c EmptyString)) false s'
  end.

Definition splitSpaces (s : string) : list string :=
  splitSpaces_aux EmptyString false s.

(** What the subprocess of a snapshot does, as the handlers see it. *)
Inductive ProcessEvent : Type :=
| Data (chunk : Buffer)
    (* ffmpeg.stdout emits 'data' *)
| ProcessError (message : string)
    (* ffmpeg emits 'error' *)
| Close (code : option Z) (now : Z).
    (* ffmpeg emits 'close'; [now] is the value of Date.now() *)

(** The handlers of the subprocess of a snapshot, run on its events: the
    delegate they leave and the calls of [callback], in order. *)
Fixpoint snapshotEvents (events : list ProcessEvent) (chunks : list Buffer)
    (d : t) : t * list (Answer Buffer) :=
  match events with
  | [] => (d, [])
  | Data chunk :: rest => snapshotEvents rest (chunks ++ [chunk]) d
  | ProcessError message :: rest =>
      let '(d', answers) := snapshotEvents rest chunks d in
      (d', Failure message :: answers)
  | Close code now :: rest =>
      let '(d1, answer) :=
        match code with
        | Some 0 =>
            let snapshot := List.concat chunks in
            match snapshot with
            | [] => (d, Failure "Empty snapshot")
            | _ =>
                (mk (videoConfig d) (videoProcessor d) (pendingSessions d)
                    (activeSessions d) (Some snapshot) now
                    (processes d) (host d),
                 Success snapshot)
            end
        | Some other =>
            (d, Failure (String.append "FFmpeg exited with code "
                           (Js.ofNumber other)))
        | None => (d, Failure "FFmpeg exited with code null")
        end in
      let '(d', answers) := snapshotEvents rest chunks d1 in
      (d', answer :: answers)
  end.

(** [handleSnapshotRequest(request, callback)]; [now] is the value of
    [Date.now()] and [events] what the subprocess does if one is spawned.
    The timer that kills a subprocess still running after 10 s acts on
    the subprocess alone; what the subprocess does then is among
    [events]. *)
Definition handleSnapshotRequest (request : StreamingDelegate.Request)
    (now : Z) (events : list ProcessEvent) (d : t) : t * list (Answer Buffer) :=
  let resolution :=
    StreamingDelegate.determineResolution HOMEKIT_MAX_WIDTH HOMEKIT_MAX_HEIGHT
      (negotiation (videoConfig d)) request true in
  let capture :=
    let source :=
      match stillImageSource (videoConfig d) with
      | Some (String c s) => Some (String c s)
      | _ => source (videoConfig d)
      end in
    match source with
    | Some (String c s) =>
        let ffmpegArgs :=
          ["-hide_banner"] ++ splitSpaces (String c s) ++ ["-frames:v"; "1"]
          ++ match StreamingDelegate.ResolutionInfo.videoFilter resolution with
             | Some (String f fs) => ["-vf"; String f fs]
             | _ => []
             end
          ++ ["-f"; "image2"; "-"] in
        snapshotEvents events []
          (mk (videoConfig d) (videoProcessor d) (pendingSessions d)
              (activeSessions d) (cachedSnapshot d) (cachedSnapshotTime d)
              (processes d)
              (host d ++ [Spawn (videoProcessor d) ffmpegArgs]))
    | _ => (d, [Failure "No source configured"])
    end in
  match cachedSnapshot d with
  | Some cached =>
      if now - cachedSnapshotTime d <? 3000 then (d, [Success cached])
      else capture
  | None => capture
  end.

End Settings.

End LiveStream.

(** ** [recordingDelegate.ts]: streams, abort controllers and subprocesses *)

Module RecordingStreams.

(** The bookkeeping fields of the delegate, with the host objects they
    refer to: an [AbortController] and a subprocess are named by their
    identity, [abortedSignals] holds the controllers that were aborted,
    [processes] the subprocesses and [closedServers] the servers that
    were closed. *)
Record t : Type := mk
  { process : option nat;
    preBufferSession : option PreBuffer.Mp4Session;
    activeFFmpegProcesses : gmap Z nat;
    streamAbortControllers : gmap Z nat;
    abortedSignals : gset nat;
    processes : gmap nat ChildProcess.t;
    closedServers : gset nat }.

(** [cp.killed] *)
Definition killedOf (processes : gmap nat ChildProcess.t) (cp : nat) : bool :=
  match processes !! cp with
  | Some p => ChildProcess.killed p
  | None => false
  end.

(** [abortController.signal.aborted] *)
Definition aborted (d : t) (abortController : nat) : bool :=
  bool_decide (abortController ∈ abortedSignals d).

(** [handleRecordingStreamRequest]: [const abortController = new
    AbortController(); this.streamAbortControllers.set(streamId,
    abortController)]. *)
Definition registerAbortController (streamId : Z) (abortController : nat)
    (d : t) : t :=
  mk (process d) (preBufferSession d) (activeFFmpegProcesses d)
     (<[streamId := abortController]> (streamAbortControllers d))
     (abortedSignals d) (processes d) (closedServers d).

(** [handleRecordingStreamRequest], [finally]:
    [this.streamAbortControllers.delete(streamId)]. *)
Definition releaseAbortController (streamId : Z) (d : t) : t :=
  mk (process d) (preBufferSession d) (activeFFmpegProcesses d)
     (delete streamId (streamAbortControllers d))
     (abortedSignals d) (processes d) (closedServers d).

(** [startFFMPegFragmentedMP4Session]: the previous subprocess is
    terminated and [this.process] becomes the subprocess [spawn] returns,
    named [cp]; [spawns] tells whether it emits 'spawn' or 'error'. *)
Definition startFFMPegFragmentedMP4Session (cp : nat) (spawns : bool) (d : t)
    : t :=
  let processes :=
    match process d with
    | Some previous =>
        if negb (killedOf (processes d) previous)
        then alter (ChildProcess.kill ChildProcess.SIGKILL) previous
               (processes d)
        else processes d
    | None => processes d
    end in
  mk (Some cp) (preBufferSession d) (activeFFmpegProcesses d)
     (streamAbortControllers d) (abortedSignals d)
     (<[cp := if spawns then ChildProcess.spawned
              else ChildProcess.mk false false []]> processes)
     (closedServers d).

(** [handleFragmentsRequests], once the session has started:
    [this.activeFFmpegProcesses.set(streamId, cp)]. *)
Definition registerProcess (streamId : Z) (cp : nat) (d : t) : t :=
  mk (process d) (preBufferSession d)
     (<[streamId := cp]> (activeFFmpegProcesses d))
     (streamAbortControllers d) (abortedSignals d) (processes d)
     (closedServers d).

(** [handleFragmentsRequests], [finally]: the subprocess is sent SIGTERM
    unless [killed] is set, and the stream is forgotten. *)
Definition cleanupProcess (streamId : Z) (cp : nat) (d : t) : t :=
  mk (process d) (preBufferSession d)
     (delete streamId (activeFFmpegProcesses d))
     (streamAbortControllers d) (abortedSignals d)
     (if negb (killedOf (processes d) cp)
      then alter (ChildProcess.kill ChildProcess.SIGTERM) cp (processes d)
      else processes d)
     (closedServers d).

(** The timer set after that SIGTERM fires, 2000 ms later:
    [if (!cp.killed) cp.kill('SIGKILL')]. *)
Definition killTimer (cp : nat) (d : t) : t :=
  mk (process d) (preBufferSession d) (activeFFmpegProcesses d)
     (streamAbortControllers d) (abortedSignals d)
     (if negb (killedOf (processes d) cp)
      then alter (ChildProcess.kill ChildProcess.SIGKILL) cp (processes d)
      else processes d)
     (closedServers d).

(** [closeRecordingStream(streamId, reason)]; the reason is logged. *)
Definition closeRecordingStream (streamId : Z) (d : t) : t :=
  let d :=
    match streamAbortControllers d !! streamId with
    | Some abortController =>
        mk (process d) (preBufferSession d) (activeFFmpegProcesses d)
           (delete streamId (streamAbortControllers d))
           ({[abortController]} ∪ abortedSignals d)
           (processes d) (closedServers d)
    | None => d
    end in
  match activeFFmpegProcesses d !! streamId with
  | Some cp =>
      if negb (killedOf (processes d) cp) then
        mk (process d) (preBufferSession d)
           (delete streamId (activeFFmpegProcesses d))
           (streamAbortControllers d) (abortedSignals d)
           (alter (ChildProcess.kill ChildProcess.SIGTERM) cp (processes d))
           (closedServers d)
      else d
  | None => d
  end.

(** The handler of 'shutdown' registered by the constructor.  The
    subprocesses are taken in the order of the keys of the map. *)
Definition shutdown (d : t) : t :=
  let '(processes, closedServers) :=
    match preBufferSession d with
    | Some session =>
        (alter (ChildProcess.kill ChildProcess.SIGTERM)
           (PreBuffer.process session) (processes d),
         {[PreBuffer.server session]} ∪ closedServers d)
    | None => (processes d, closedServers d)
    end in
  let processes :=
    foldl
      (fun processes (entry : Z * nat) =>
         if negb (killedOf processes (snd entry))
         then alter (ChildProcess.kill ChildProcess.SIGTERM) (snd entry)
                processes
         else processes)
      processes (map_to_list (activeFFmpegProcesses d)) in
  mk (process d) (preBufferSession d) ∅ ∅ (abortedSignals d) processes
     closedServers.

(** A subprocess exits. *)
Definition processExited (cp : nat) (d : t) : t :=
  mk (process d) (preBufferSession d) (activeFFmpegProcesses d)
     (streamAbortControllers d) (abortedSignals d)
     (alter ChildProcess.exited cp (processes d)) (closedServers d).

(** What happens to a delegate, one step at a time. *)
Inductive Op : Type :=
| RegisterAbortController (streamId : Z) (abortController : nat)
| ReleaseAbortController (streamId : Z)
| StartSession (cp : nat) (spawns : bool)
| RegisterProcess (streamId : Z) (cp : nat)
| CleanupProcess (streamId : Z) (cp : nat)
| KillTimer (cp : nat)
| CloseRecordingStream (streamId : Z)
| Shutdown
| ProcessExited (cp : nat).

Definition step (d : t) (op : Op) : t :=
  match op with
  | RegisterAbortController streamId abortController =>
      registerAbortController streamId abortController d
  | ReleaseAbortController streamId => releaseAbortController streamId d
  | StartSession cp spawns => startFFMPegFragmentedMP4Session cp spawns d
  | RegisterProcess streamId cp => registerProcess streamId cp d
  | CleanupProcess streamId cp => cleanupProcess streamId cp d
  | KillTimer cp => killTimer cp d
  | CloseRecordingStream streamId => closeRecordingStream streamId d
  | Shutdown => shutdown d
  | ProcessExited cp => processExited cp d
  end.

Definition run (ops : list Op) (d : t) : t := foldl step d ops.

(** The subprocesses the steps spawn, in order. *)
Definition started (ops : list Op) : list nat :=
  omap (fun op => match op with StartSession cp _ => Some cp | _ => None end)
    ops.

(** A subprocess that has exited or has been sent a signal. *)
Definition settled (processes : gmap nat ChildProcess.t) (cp : nat) : Prop :=
  match processes !! cp with
  | Some p => ChildProcess.killed p = true \/ ChildProcess.handle p = false
  | None => True
  end.

End RecordingStreams.

(** The text of one event record of the stream. *)
Definition record (eventType action digits : string) : string :=
  String.concat ""
    ["Code="; eventType; ";action="; action; ";index="; digits].

(** Every character of [s] passes the test [f]. *)
Fixpoint allChars (f : ascii -> bool) (s : string) : bool :=
  match s with
  | EmptyString => true
  | String c s' => f c && allChars f s'
  end.

(** The first character of [s] passes the test [f]. *)
Definition startsWith (f : ascii -> bool) (s : string) : bool :=
  match s with
  | EmptyString => false
  | String c _ => f c
  end.

(** * Properties *)

(** ** The box parsers *)

Section BoxParser.

Import HksvHelpers.

Lemma readLength_rest readable length ret rest :
  readLength readable length = Resolved ret rest ->
  (List.length rest <= List.length readable)%nat /\
  (0 < length -> (List.length rest < List.length readable)%nat).
Proof.
  unfold readLength.
  destruct (length =? 0) eqn:E0.
  - intros [= <- <-]. split; [lia|]. apply Z.eqb_eq in E0. lia.
  - destruct ((0 <? length) && (length <=? Z.of_nat (List.length readable)))
      eqn:E1; [|discriminate].
    intros [= <- <-]. apply andb_true_iff in E1 as [Hp Hl].
    apply Z.ltb_lt in Hp. apply Z.leb_le in Hl.
    rewrite length_drop. split; lia.
Qed.

Lemma readLength_rejected readable length e :
  readLength readable length = Rejected e -> e = StreamEnded length.
Proof.
  unfold readLength. repeat case_match; congruence.
Qed.

Lemma parseStep_progress : progress parseStep.
Proof.
  intros readable atom rest requested. unfold parseStep.
  destruct (readLength readable 8) as [header r1|e] eqn:H1; [|discriminate].
  destruct (readInt32BE header) as [whole|]; [|discriminate].
  destruct (readLength r1 (whole - 8)) as [d r2|e] eqn:H2; [|discriminate].
  intros [= _ <- _].
  apply readLength_rest in H1 as [_ H1], H2 as [H2 _]. lia.
Qed.

Lemma generatorStep_progress killed :
  progress (RecordingDelegate.generatorStep killed).
Proof.
  intros readable atom rest requested. unfold RecordingDelegate.generatorStep.
  destruct (readLength readable 8) as [header r1|e] eqn:H1;
    [|destruct killed; discriminate].
  destruct (readInt32BE header) as [whole|]; [|destruct killed; discriminate].
  destruct ((whole - 8 <? 0) || _); [destruct killed; discriminate|].
  destruct (readLength r1 (whole - 8)) as [d r2|e] eqn:H2;
    [|destruct killed; discriminate].
  intros [= _ <- _].
  apply readLength_rest in H1 as [_ H1], H2 as [H2 _]. lia.
Qed.

(** The fuel of [loop] is never used up: any two amounts above the length
    of the source give the same run. *)
Lemma loop_fuel step (Hstep : progress step) fuel1 :
  forall fuel2 readable,
    (List.length readable < fuel1)%nat ->
    (List.length readable < fuel2)%nat ->
    loop step fuel1 readable = loop step fuel2 readable.
Proof.
  induction fuel1 as [|fuel1 IH]; intros fuel2 readable H1 H2; [lia|].
  destruct fuel2 as [|fuel2]; [lia|]. simpl.
  destruct (step readable) as [atom rest requested|how requested] eqn:E;
    [|reflexivity].
  apply Hstep in E. rewrite (IH fuel2 rest) by lia. reflexivity.
Qed.

(** [parseFragmentedMP4] is its loop body, turn after turn. *)
Lemma parseFragmentedMP4_unfold readable :
  parseFragmentedMP4 readable =
  match parseStep readable with
  | Stop how requested => mkRun [] how requested
  | Yield atom rest requested =>
      let r := parseFragmentedMP4 rest in
      mkRun (atom :: yielded r) (ending r) (requested ++ reads r)
  end.
Proof.
  unfold parseFragmentedMP4. simpl.
  destruct (parseStep readable) as [atom rest requested|how requested] eqn:E;
    [|reflexivity].
  pose proof (parseStep_progress _ _ _ _ E).
  rewrite (loop_fuel _ parseStep_progress _ (S (List.length rest)) rest)
    by lia.
  reflexivity.
Qed.

Lemma generator_unfold killed readable :
  RecordingDelegate.generator killed (Some readable) =
  match RecordingDelegate.generatorStep killed readable with
  | Stop how requested => mkRun [] how requested
  | Yield atom rest requested =>
      let r := RecordingDelegate.generator killed (Some rest) in
      mkRun (atom :: yielded r) (ending r) (requested ++ reads r)
  end.
Proof.
  unfold RecordingDelegate.generator. simpl.
  destruct (RecordingDelegate.generatorStep killed readable)
    as [atom rest requested|how requested] eqn:E; [|reflexivity].
  pose proof (generatorStep_progress _ _ _ _ _ E).
  rewrite (loop_fuel _ (generatorStep_progress killed) _
             (S (List.length rest)) rest) by lia.
  reflexivity.
Qed.

(** On a source that ends, both parsers end by an error or by leaving the
    loop after one; the parser of the helpers never returns. *)
Lemma parseFragmentedMP4_throws readable :
  exists e, ending (parseFragmentedMP4 readable) = Threw e.
Proof.
  remember (List.length readable) as n eqn:Hn.
  revert readable Hn. induction (lt_wf n) as [n _ IH]. intros readable ->.
  rewrite parseFragmentedMP4_unfold.
  destruct (parseStep readable) as [atom rest requested|how requested] eqn:E.
  - simpl. eapply IH; [|reflexivity]. eapply parseStep_progress; eauto.
  - simpl. unfold parseStep in E. repeat case_match; simplify_eq; eauto.
Qed.

Lemma readLength_split readable length ret rest :
  readLength readable length = Resolved ret rest ->
  readable = ret ++ rest /\ Z.of_nat (List.length ret) = length.
Proof.
  unfold readLength.
  destruct (length =? 0) eqn:E0.
  - intros [= <- <-]. apply Z.eqb_eq in E0. split; [reflexivity|]. simpl. lia.
  - destruct ((0 <? length) && (length <=? Z.of_nat (List.length readable)))
      eqn:E1; [|discriminate].
    intros [= <- <-]. apply andb_true_iff in E1 as [Hp Hl].
    apply Z.ltb_lt in Hp. apply Z.leb_le in Hl.
    rewrite take_drop, length_take. split; [reflexivity|lia].
Qed.

(** An atom the parser yields is a run of the source: its header, of 8
    bytes, encodes its length plus 8, and its payload has that length. *)
Lemma parseStep_yield readable atom rest requested :
  parseStep readable = Yield atom rest requested ->
  readable = MP4Atom.bytes atom ++ rest
  /\ List.length (MP4Atom.header atom) = 8%nat
  /\ readInt32BE (MP4Atom.header atom) = Some (MP4Atom.length atom + 8)
  /\ MP4Atom.type atom = typeOf (MP4Atom.header atom)
  /\ Z.of_nat (List.length (MP4Atom.data atom)) = MP4Atom.length atom.
Proof.
  unfold parseStep.
  destruct (readLength readable 8) as [header r1|e] eqn:H1; [|discriminate].
  destruct (readInt32BE header) as [whole|] eqn:Hw; [|discriminate].
  destruct (readLength r1 (whole - 8)) as [d r2|e] eqn:H2; [|discriminate].
  intros [= <- <- _].
  apply readLength_split in H1 as [-> H1], H2 as [-> H2].
  unfold MP4Atom.bytes. simpl. rewrite <- app_assoc.
  repeat split; try lia; try assumption.
  rewrite Hw. f_equal. lia.
Qed.

(** The atoms of a run, header and payload end to end, reproduce the
    source up to where the parser stopped. *)
Lemma parseFragmentedMP4_roundtrip readable :
  exists tail,
    readable
    = List.concat (List.map MP4Atom.bytes (yielded (parseFragmentedMP4 readable)))
      ++ tail.
Proof.
  remember (List.length readable) as n eqn:Hn.
  revert readable Hn. induction (lt_wf n) as [n _ IH]. intros readable ->.
  rewrite parseFragmentedMP4_unfold.
  destruct (parseStep readable) as [atom rest requested|how requested] eqn:E.
  - pose proof (parseStep_progress _ _ _ _ E) as Hlt.
    destruct (IH _ Hlt rest eq_refl) as [tail Htail].
    apply parseStep_yield in E as [-> _].
    exists tail. simpl. rewrite <- app_assoc, <- Htail. reflexivity.
  - exists readable. reflexivity.
Qed.

(** The parser of the helpers has no check on the decoded length: it never
    fails with the error of an invalid box. *)
Lemma parseFragmentedMP4_never_InvalidBox readable length type :
  ending (parseFragmentedMP4 readable) <> Threw (InvalidBox length type).
Proof.
  remember (List.length readable) as n eqn:Hn.
  revert readable Hn. induction (lt_wf n) as [n _ IH]. intros readable ->.
  rewrite parseFragmentedMP4_unfold.
  destruct (parseStep readable) as [atom rest requested|how requested] eqn:E.
  - simpl. eapply IH; [|reflexivity]. eapply parseStep_progress; eauto.
  - simpl. unfold parseStep in E.
    repeat case_match; simplify_eq;
      try match goal with
          | H : readLength _ _ = Rejected _ |- _ =>
              apply readLength_rejected in H; subst
          end; congruence.
Qed.

(** A header whose decoded length is negative makes the parser of the
    helpers ask [readLength] for that many bytes. *)
Lemma parseFragmentedMP4_reads_negative readable header rest whole :
  readLength readable 8 = Resolved header rest ->
  readInt32BE header = Some whole ->
  whole - 8 < 0 ->
  parseFragmentedMP4 readable =
  mkRun [] (Threw (StreamEnded (whole - 8))) [8; whole - 8].
Proof.
  intros H1 H2 Hneg. rewrite parseFragmentedMP4_unfold. unfold parseStep.
  rewrite H1, H2. cbn zeta. unfold readLength at 1.
  destruct (whole - 8 =? 0) eqn:E0; [apply Z.eqb_eq in E0; lia|].
  destruct (0 <? whole - 8) eqn:E1; [apply Z.ltb_lt in E1; lia|].
  reflexivity.
Qed.

(** The generator of the recording session checks the decoded length
    before it reads the payload: out of bounds, it throws the error of an
    invalid box and asks for nothing more. *)
Lemma generator_guard readable header rest whole :
  readLength readable 8 = Resolved header rest ->
  readInt32BE header = Some whole ->
  whole - 8 < 0 \/ RecordingDelegate.maxBoxLength < whole - 8 ->
  RecordingDelegate.generator false (Some readable) =
  mkRun [] (Threw (InvalidBox (whole - 8) (typeOf header))) [8].
Proof.
  intros H1 H2 Hout. rewrite generator_unfold.
  unfold RecordingDelegate.generatorStep. rewrite H1, H2. cbn zeta.
  destruct ((whole - 8 <? 0) || (RecordingDelegate.maxBoxLength <? whole - 8))
    eqn:E; [reflexivity|].
  apply orb_false_iff in E as [Ea Eb].
  apply Z.ltb_ge in Ea, Eb. lia.
Qed.

(** Whatever the source, every length the generator of the recording
    session asks [readLength] for is within the bounds. *)
Lemma generator_reads_in_range killed readable :
  Forall (fun n => 0 <= n <= RecordingDelegate.maxBoxLength)
         (reads (RecordingDelegate.generator killed (Some readable))).
Proof.
  assert (H8 : 0 <= 8 <= RecordingDelegate.maxBoxLength)
    by (unfold RecordingDelegate.maxBoxLength; lia).
  remember (List.length readable) as n eqn:Hn.
  revert readable Hn. induction (lt_wf n) as [n _ IH]. intros readable ->.
  rewrite generator_unfold.
  destruct (RecordingDelegate.generatorStep killed readable)
    as [atom rest requested|how requested] eqn:E; simpl.
  - apply Forall_app. split.
    + unfold RecordingDelegate.generatorStep in E.
      repeat case_match; simplify_eq.
      match goal with
      | H : _ || _ = false |- _ =>
          apply orb_false_iff in H as [Ha Hb]; apply Z.ltb_ge in Ha, Hb
      end.
      repeat constructor; lia.
    + eapply IH; [|reflexivity]. eapply generatorStep_progress; eauto.
  - unfold RecordingDelegate.generatorStep in E.
    repeat case_match; simplify_eq; repeat constructor; try lia;
      match goal with
      | H : _ || _ = false |- _ =>
          apply orb_false_iff in H as [Ha Hb]; apply Z.ltb_ge in Ha, Hb
      end; lia.
Qed.

End BoxParser.

(** C1. The parser of the helpers, which feeds the prebuffer, does not
    fail on a header whose decoded payload length is out of bounds: on the
    box header [00 00 00 04 "free"], payload length [-4], it goes on to ask
    [readLength] for [-4] bytes and ends only when the source does, with
    the error of an ended stream; the generator of the recording session
    throws the error of an invalid box on the same bytes, after the header
    read alone. *)
Theorem parseFragmentedMP4_unchecked_length :
  let source := [x00; x00; x00; x04; "f"; "r"; "e"; "e"]%byte in
  HksvHelpers.parseFragmentedMP4 source
    = mkRun [] (Threw (StreamEnded (-4))) [8; -4]
  /\ RecordingDelegate.generator false (Some source)
    = mkRun [] (Threw (InvalidBox (-4) "free")) [8].
Proof. split; vm_compute; reflexivity. Qed.

(** ** Fragment composition of the recording session *)

Section Composition.

Import RecordingDelegate.

Lemma isType_true tag a : isType tag a = true <-> MP4Atom.type a = tag.
Proof. unfold isType. apply String.eqb_eq. Qed.

Lemma isType_other tag tag' a :
  tag <> tag' -> isType tag a = true -> isType tag' a = false.
Proof.
  intros Hne H. apply isType_true in H.
  destruct (isType tag' a) eqn:E; [|reflexivity].
  apply isType_true in E. congruence.
Qed.

Lemma moof_not_mdat a : isType "moof" a = true -> isType "mdat" a = false.
Proof. apply isType_other. discriminate. Qed.

Lemma mdat_not_moof a : isType "mdat" a = true -> isType "moof" a = false.
Proof. apply isType_other. discriminate. Qed.

(** One turn of the loop once the initialization fragment is out. *)
Lemma compose_media_cons pending moofBuffer box rest :
  compose pending false moofBuffer (box :: rest) =
  let pending' := pending ++ [MP4Atom.header box; MP4Atom.data box] in
  if isType "moof" box then
    compose pending' false (Some (MP4Atom.bytes box)) rest
  else if isType "mdat" box then
    match moofBuffer with
    | Some moof =>
        (moof ++ MP4Atom.bytes box) :: compose pending' false None rest
    | None => compose pending' false None rest
    end
  else compose pending' false moofBuffer rest.
Proof.
  simpl. unfold isType, MP4Atom.bytes.
  repeat case_match; reflexivity.
Qed.

(** Past the initialization fragment [pending] is never read again. *)
Lemma compose_pending pending pending' moofBuffer boxes :
  compose pending false moofBuffer boxes
  = compose pending' false moofBuffer boxes.
Proof.
  revert pending pending' moofBuffer.
  induction boxes as [|box rest IH]; intros p p' mb; [reflexivity|].
  rewrite !compose_media_cons. cbn zeta.
  repeat case_match; first [apply IH | f_equal; apply IH].
Qed.

Lemma concat_pending (l : list MP4Atom.t) :
  List.concat (flat_map (fun a => [MP4Atom.header a; MP4Atom.data a]) l)
  = List.concat (List.map MP4Atom.bytes l).
Proof.
  induction l as [|a l IH]; [reflexivity|].
  simpl. rewrite IH. unfold MP4Atom.bytes. rewrite app_assoc. reflexivity.
Qed.

(** Up to the first 'moov' every box is kept in [pending], and the first
    'moov' turns all of it into the first fragment. *)
Lemma compose_init pending moofBuffer pre moov rest :
  Forall (fun a => isType "moov" a = false) pre ->
  isType "moov" moov = true ->
  compose pending true moofBuffer (pre ++ moov :: rest) =
  List.concat
    (pending ++
     flat_map (fun a => [MP4Atom.header a; MP4Atom.data a]) (pre ++ [moov]))
  :: compose [] false moofBuffer rest.
Proof.
  intros Hpre Hmoov. revert pending.
  induction Hpre as [|a pre Ha _ IH]; intros pending.
  - simpl. unfold isType in Hmoov. rewrite Hmoov. reflexivity.
  - simpl. unfold isType in Ha. rewrite Ha. rewrite IH.
    simpl. rewrite <- !app_assoc. reflexivity.
Qed.

Lemma compose_no_moov pending moofBuffer boxes :
  Forall (fun a => isType "moov" a = false) boxes ->
  compose pending true moofBuffer boxes = [].
Proof.
  intros H. revert pending.
  induction H as [|a l Ha _ IH]; intros pending; [reflexivity|].
  simpl. unfold isType in Ha. rewrite Ha. apply IH.
Qed.

(** A fragment is yielded exactly for a 'moof' and the first 'mdat' after
    it, with no other 'moof' in between; the 'moof' can be the pending
    one. *)
Lemma compose_media_elem fragment boxes :
  forall pending moofBuffer,
    fragment ∈ compose pending false moofBuffer boxes <->
    (exists moof mid mdat l2,
        moofBuffer = Some moof /\ boxes = mid ++ mdat :: l2 /\
        Forall neither mid /\ isType "mdat" mdat = true /\
        fragment = moof ++ MP4Atom.bytes mdat)
    \/ (exists l1 moof mid mdat l2,
        boxes = l1 ++ moof :: mid ++ mdat :: l2 /\
        isType "moof" moof = true /\ isType "mdat" mdat = true /\
        Forall neither mid /\
        fragment = MP4Atom.bytes moof ++ MP4Atom.bytes mdat).
Proof.
  induction boxes as [|a l IH]; intros pending mb.
  - simpl. split.
    + intros H. inversion H.
    + intros [(m & mid & mdat & l2 & _ & E & _)
             |(l1 & moof & mid & mdat & l2 & E & _)].
      * destruct mid; discriminate.
      * destruct l1; discriminate.
  - rewrite compose_media_cons. cbn zeta.
    destruct (isType "moof" a) eqn:Emoof.
    + (* a 'moof': it becomes the pending one *)
      rewrite IH. split.
      * intros [(m & mid & mdat & l2 & [= <-] & -> & Hmid & Hmdat & ->)
               |(l1 & moof & mid & mdat & l2 & -> & Hm & Hd & Hmid & ->)].
        -- right. exists [], a, mid, mdat, l2. auto.
        -- right. exists (a :: l1), moof, mid, mdat, l2. auto.
      * intros [(m & mid & mdat & l2 & _ & E & Hmid & Hmdat & _)
               |(l1 & moof & mid & mdat & l2 & E & Hm & Hd & Hmid & ->)].
        -- destruct mid as [|b mid]; simplify_eq/=.
           ++ apply mdat_not_moof in Hmdat. congruence.
           ++ apply Forall_cons in Hmid as [[Hb _] _]. congruence.
        -- destruct l1 as [|b l1]; simplify_eq/=.
           ++ left. exists (MP4Atom.bytes moof), mid, mdat, l2. auto.
           ++ right. exists l1, moof, mid, mdat, l2. auto.
    + destruct (isType "mdat" a) eqn:Emdat.
      * (* an 'mdat': it completes the pending 'moof', if any *)
        assert (Hrest : forall p,
          fragment ∈ compose p false None l <->
          exists l1 moof mid mdat l2,
            l = l1 ++ moof :: mid ++ mdat :: l2 /\
            isType "moof" moof = true /\ isType "mdat" mdat = true /\
            Forall neither mid /\
            fragment = MP4Atom.bytes moof ++ MP4Atom.bytes mdat).
        { intros p. rewrite IH. split; [|auto].
          intros [(m & mid & mdat & l2 & [=] & _)|H]. exact H. }
        assert (Hshift :
          (exists l1 moof mid mdat l2,
            a :: l = l1 ++ moof :: mid ++ mdat :: l2 /\
            isType "moof" moof = true /\ isType "mdat" mdat = true /\
            Forall neither mid /\
            fragment = MP4Atom.bytes moof ++ MP4Atom.bytes mdat) <->
          (exists l1 moof mid mdat l2,
            l = l1 ++ moof :: mid ++ mdat :: l2 /\
            isType "moof" moof = true /\ isType "mdat" mdat = true /\
            Forall neither mid /\
            fragment = MP4Atom.bytes moof ++ MP4Atom.bytes mdat)).
        { split.
          - intros (l1 & moof & mid & mdat & l2 & E & Hm & Hd & Hmid & ->).
            destruct l1 as [|b l1]; simplify_eq/=; [congruence|].
            exists l1, moof, mid, mdat, l2. auto.
          - intros (l1 & moof & mid & mdat & l2 & -> & Hm & Hd & Hmid & ->).
            exists (a :: l1), moof, mid, mdat, l2. auto. }
        rewrite Hshift.
        destruct mb as [m|].
        -- rewrite elem_of_cons, Hrest. split.
           ++ intros [->|H]; [|right; exact H].
              left. exists m, [], a, l. repeat split; auto.
           ++ intros [(m' & mid & mdat & l2 & [= <-] & E & Hmid & Hmdat & ->)
                     |H]; [|right; exact H].
              destruct mid as [|b mid]; simplify_eq/=; [left; reflexivity|].
              apply Forall_cons in Hmid as [[_ Hb] _]. congruence.
        -- rewrite Hrest. split; [auto|].
           intros [(m' & mid & mdat & l2 & [=] & _)|H]. exact H.
      * (* any other box: nothing changes *)
        rewrite IH. split.
        -- intros [(m & mid & mdat & l2 & -> & -> & Hmid & Hmdat & ->)
                  |(l1 & moof & mid & mdat & l2 & -> & Hm & Hd & Hmid & ->)].
           ++ left. exists m, (a :: mid), mdat, l2.
              repeat split; auto. constructor; [split|]; auto.
           ++ right. exists (a :: l1), moof, mid, mdat, l2. auto.
        -- intros [(m & mid & mdat & l2 & -> & E & Hmid & Hmdat & ->)
                  |(l1 & moof & mid & mdat & l2 & E & Hm & Hd & Hmid & ->)].
           ++ destruct mid as [|b mid]; simplify_eq/=; [congruence|].
              apply Forall_cons in Hmid as [_ Hmid].
              left. exists m, mid, mdat, l2. auto.
           ++ destruct l1 as [|b l1]; simplify_eq/=; [congruence|].
              right. exists l1, moof, mid, mdat, l2. auto.
Qed.

(** After boxes without an 'mdat' that end in a 'moof', the pending
    'moof' is that last one, whatever it was before. *)
Lemma compose_media_overwritten mid moof2 l2 :
  Forall (fun a => isType "mdat" a = false) mid ->
  isType "moof" moof2 = true ->
  forall p p' mb mb',
    compose p false mb (mid ++ moof2 :: l2)
    = compose p' false mb' (mid ++ moof2 :: l2).
Proof.
  intros Hmid Hmoof. induction Hmid as [|a mid Ha _ IH]; intros p p' mb mb'.
  - simpl app. rewrite !compose_media_cons. cbn zeta. rewrite Hmoof.
    apply compose_pending.
  - simpl app. rewrite !compose_media_cons. cbn zeta. rewrite Ha.
    destruct (isType "moof" a); apply IH.
Qed.

(** A 'moof' followed by another 'moof' before any 'mdat' leaves no
    trace. *)
Lemma compose_media_discard l1 moof1 mid moof2 l2 :
  isType "moof" moof1 = true ->
  isType "moof" moof2 = true ->
  Forall (fun a => isType "mdat" a = false) mid ->
  forall p mb,
    compose p false mb (l1 ++ moof1 :: mid ++ moof2 :: l2)
    = compose p false mb (l1 ++ mid ++ moof2 :: l2).
Proof.
  intros H1 H2 Hmid. induction l1 as [|a l1 IH]; intros p mb.
  - simpl app. rewrite compose_media_cons. cbn zeta. rewrite H1.
    apply compose_media_overwritten; assumption.
  - simpl app. rewrite !compose_media_cons. cbn zeta.
    repeat case_match; first [apply IH | f_equal; apply IH].
Qed.

End Composition.

(** What [handleFragmentsRequests] yields once its input is settled and
    the transcoder runs: the loop over the boxes of the generator. *)
Lemma handleFragmentsRequests_yielded d port args stdout killed :
  RecordingDelegate.ffmpegInput d port = inr args ->
  RecordingDelegate.handleFragmentsRequests d port
    (RecordingDelegate.Spawned stdout killed)
  = mkRun
      (RecordingDelegate.compose [] true None
         (yielded (RecordingDelegate.generator killed stdout)))
      Returned
      (reads (RecordingDelegate.generator killed stdout)).
Proof.
  intros H. unfold RecordingDelegate.handleFragmentsRequests.
  rewrite H. reflexivity.
Qed.

(** On the sequence the transcoder is run for -- 'ftyp', 'moov', then
    'moof' and 'mdat' in turn -- the fragments come out one per pair, in
    order. *)
Lemma compose_pairs pending moofBuffer (pairs : list (MP4Atom.t * MP4Atom.t)) :
  Forall (fun pr => isType "moof" (fst pr) = true
                    /\ isType "mdat" (snd pr) = true) pairs ->
  RecordingDelegate.compose pending false moofBuffer
    (flat_map (fun pr => [fst pr; snd pr]) pairs)
  = List.map (fun pr => MP4Atom.bytes (fst pr) ++ MP4Atom.bytes (snd pr)) pairs.
Proof.
  intros H. revert pending moofBuffer.
  induction H as [|[moof mdat] pairs [Hm Hd] _ IH]; intros pending mb;
    [reflexivity|].
  simpl in Hm, Hd. cbn [flat_map fst snd app List.map].
  rewrite compose_media_cons. cbn zeta. rewrite Hm.
  rewrite compose_media_cons. cbn zeta.
  rewrite (mdat_not_moof _ Hd), Hd. f_equal. apply IH.
Qed.

(** C2. Whatever the atom sequence, with [moov] its first 'moov' atom:
    the first buffer yielded is the concatenation of header and payload of
    every atom up to and including [moov]; the buffers yielded after it
    are exactly the concatenations of a 'moof' atom with the 'mdat' atom
    that follows it (no 'moof' and no other 'mdat' in between, atoms of
    other types being passed over); when 'moof' and 'mdat' atoms come in
    pairs, as the transcoder writes them, these buffers are the pairs, one
    after the other; and a 'moof' followed by another 'moof' before any
    'mdat' can be taken out of the sequence without changing what is
    yielded. *)
Theorem handleFragmentsRequests_composition pre moov rest :
  Forall (fun a => isType "moov" a = false) pre ->
  isType "moov" moov = true ->
  exists media,
    RecordingDelegate.compose [] true None (pre ++ moov :: rest)
    = List.concat (List.map MP4Atom.bytes (pre ++ [moov])) :: media
    /\ (forall fragment,
          fragment ∈ media <->
          exists l1 moof mid mdat l2,
            rest = l1 ++ moof :: mid ++ mdat :: l2 /\
            isType "moof" moof = true /\ isType "mdat" mdat = true /\
            Forall neither mid /\
            fragment = MP4Atom.bytes moof ++ MP4Atom.bytes mdat)
    /\ (forall pairs : list (MP4Atom.t * MP4Atom.t),
          rest = flat_map (fun pr => [fst pr; snd pr]) pairs ->
          Forall (fun pr => isType "moof" (fst pr) = true
                            /\ isType "mdat" (snd pr) = true) pairs ->
          media
          = List.map
              (fun pr => MP4Atom.bytes (fst pr) ++ MP4Atom.bytes (snd pr))
              pairs)
    /\ (forall l1 moof1 mid moof2 l2,
          rest = l1 ++ moof1 :: mid ++ moof2 :: l2 ->
          isType "moof" moof1 = true ->
          isType "moof" moof2 = true ->
          Forall (fun a => isType "mdat" a = false) mid ->
          RecordingDelegate.compose [] true None
            (pre ++ moov :: l1 ++ mid ++ moof2 :: l2)
          = RecordingDelegate.compose [] true None (pre ++ moov :: rest)).
Proof.
  intros Hpre Hmoov.
  exists (RecordingDelegate.compose [] false None rest).
  split; [|split; [|split]].
  - rewrite compose_init by assumption.
    rewrite app_nil_l, concat_pending. reflexivity.
  - intros fragment. rewrite compose_media_elem. split; [|auto].
    intros [(m & mid & mdat & l2 & [=] & _)|H]. exact H.
  - intros pairs -> Hpairs. apply compose_pairs, Hpairs.
  - intros l1 moof1 mid moof2 l2 -> H1 H2 Hmid.
    rewrite !compose_init by assumption. f_equal.
    symmetry. apply compose_media_discard; assumption.
Qed.

Lemma handleFragmentsRequests_composition_witness :
  let ftyp := boxOf "ftyp" ["i"; "s"; "o"; "m"]%byte in
  let moov := boxOf "moov" [x01]%byte in
  let moof := boxOf "moof" [x02]%byte in
  let mdat := boxOf "mdat" [x03; x04]%byte in
  Forall (fun a => isType "moov" a = false) [ftyp]
  /\ isType "moov" moov = true
  /\ exists media,
       RecordingDelegate.compose [] true None
         ([ftyp] ++ moov :: [moof; moof; mdat])
       = List.concat (List.map MP4Atom.bytes ([ftyp] ++ [moov])) :: media
       /\ (forall fragment,
             fragment ∈ media <->
             exists l1 moof' mid mdat' l2,
               [moof; moof; mdat] = l1 ++ moof' :: mid ++ mdat' :: l2 /\
               isType "moof" moof' = true /\ isType "mdat" mdat' = true /\
               Forall neither mid /\
               fragment = MP4Atom.bytes moof' ++ MP4Atom.bytes mdat').
Proof.
  intros ftyp moov moof mdat.
  split; [repeat constructor|].
  split; [reflexivity|].
  destruct (handleFragmentsRequests_composition [ftyp] moov [moof; moof; mdat])
    as (media & Hfirst & Hmedia & _).
  - repeat constructor.
  - reflexivity.
  - exists media. split; [exact Hfirst | exact Hmedia].
Defined.

(** ** The prebuffer *)

Section PreBufferFacts.

Import PreBuffer.

(** *** Retention *)

Lemma evict_ordered now l : timeOrdered l -> timeOrdered (evict now l).
Proof.
  unfold timeOrdered. induction 1 as [|p l Hl IH Hp]; simpl; [constructor|].
  destruct (time p <? now - DEFAULT_PREBUFFER_DURATION); [exact IH|].
  constructor; assumption.
Qed.

Lemma evict_bounded (P : PrebufferFmp4 -> Prop) now l :
  Forall P l -> Forall P (evict now l).
Proof.
  induction 1 as [|p l Hp Hl IH]; simpl; [constructor|].
  destruct (time p <? now - DEFAULT_PREBUFFER_DURATION); [exact IH|].
  constructor; assumption.
Qed.

(** On fragments in arrival order, evicting from the head leaves only
    fragments of the window. *)
Lemma evict_window now l :
  timeOrdered l ->
  Forall (fun p => now - DEFAULT_PREBUFFER_DURATION <= time p) (evict now l).
Proof.
  unfold timeOrdered. induction 1 as [|p l Hl IH Hp]; simpl; [constructor|].
  destruct (time p <? now - DEFAULT_PREBUFFER_DURATION) eqn:E; [exact IH|].
  apply Z.ltb_ge in E. constructor; [exact E|].
  eapply Forall_impl; [exact Hp|]. simpl. intros q Hq. lia.
Qed.

Lemma timeOrdered_snoc l p :
  timeOrdered l -> Forall (fun q => time q <= time p) l ->
  timeOrdered (l ++ [p]).
Proof.
  unfold timeOrdered. induction 1 as [|q l Hl IH Hq]; intros Hb; simpl.
  - repeat constructor.
  - apply Forall_cons in Hb as [Hqp Hb]. constructor; [apply IH, Hb|].
    apply Forall_app. split; [exact Hq|]. repeat constructor. exact Hqp.
Qed.

Lemma prebufferFmp4_writeAtom sock a pb :
  prebufferFmp4 (writeAtom sock a pb) = prebufferFmp4 pb.
Proof. reflexivity. Qed.

Lemma prebufferFmp4_emitAtom a pb :
  prebufferFmp4 (emitAtom a pb) = prebufferFmp4 pb.
Proof.
  unfold emitAtom. generalize (atomListeners pb) as ls. intros ls.
  revert pb. induction ls as [|s ls IH]; intros pb; [reflexivity|].
  simpl. rewrite IH. reflexivity.
Qed.

Lemma prebufferFmp4_ingest now a pb :
  prebufferFmp4 (ingest now a pb)
  = evict now (prebufferFmp4 (store now a pb)).
Proof. unfold ingest. rewrite prebufferFmp4_emitAtom. reflexivity. Qed.

(** What [store] leaves in the sequence: the sequence as it was, or with
    the atom appended at the time of its observation. *)
Lemma prebufferFmp4_store now a pb :
  prebufferFmp4 (store now a pb) = prebufferFmp4 pb
  \/ prebufferFmp4 (store now a pb) = prebufferFmp4 pb ++ [mkFmp4 a now].
Proof.
  unfold store. destruct (ftyp pb); [|left; reflexivity].
  destruct (moov pb); [right|left]; reflexivity.
Qed.

Lemma ingest_ingested latest now a pb :
  ingested latest pb -> latest <= now -> ingested now (ingest now a pb).
Proof.
  intros [Hord Hle] Hnow. unfold ingested. rewrite prebufferFmp4_ingest.
  assert (Hle' : Forall (fun p => time p <= now) (prebufferFmp4 pb)).
  { eapply Forall_impl; [exact Hle|]. simpl. intros p Hp. lia. }
  destruct (prebufferFmp4_store now a pb) as [-> | ->].
  - split; [apply evict_ordered, Hord | apply evict_bounded, Hle'].
  - split.
    + apply evict_ordered, timeOrdered_snoc; assumption.
    + apply evict_bounded, Forall_app. split; [exact Hle'|].
      repeat constructor. simpl. lia.
Qed.

Lemma ingest_window latest now a pb :
  ingested latest pb -> latest <= now ->
  Forall (fun p => now - DEFAULT_PREBUFFER_DURATION <= time p)
         (prebufferFmp4 (ingest now a pb)).
Proof.
  intros [Hord Hle] Hnow. rewrite prebufferFmp4_ingest.
  apply evict_window.
  destruct (prebufferFmp4_store now a pb) as [-> | ->]; [exact Hord|].
  apply timeOrdered_snoc; [exact Hord|].
  eapply Forall_impl; [exact Hle|]. simpl. intros p Hp. lia.
Qed.

Lemma nondecreasing_cons t t' rest :
  nondecreasing (t :: t' :: rest) = true <->
  t <= t' /\ nondecreasing (t' :: rest) = true.
Proof.
  cbn [nondecreasing]. rewrite andb_true_iff, Z.leb_le. reflexivity.
Qed.

Lemma ingestAll_window arrivals :
  forall latest pb now a,
    ingested latest pb ->
    nondecreasing (latest :: List.map fst arrivals ++ [now]) = true ->
    Forall (fun p => now - DEFAULT_PREBUFFER_DURATION <= time p)
           (prebufferFmp4 (ingest now a (ingestAll arrivals pb))).
Proof.
  induction arrivals as [|[t1 a1] arrivals IH]; intros latest pb now a Hinv Hnd.
  - simpl in *. apply andb_true_iff in Hnd as [Hle _]. apply Z.leb_le in Hle.
    eapply ingest_window; eassumption.
  - cbn [List.map fst app] in Hnd. apply nondecreasing_cons in Hnd as [Hle Hnd].
    unfold ingestAll. simpl foldl. apply (IH t1); [|exact Hnd].
    eapply ingest_ingested; eassumption.
Qed.

End PreBufferFacts.

(** C4, as amended.  Eviction is part of every turn of the ingestion loop
    (the sequence a turn leaves is the stored one after [evict]), and when
    the clock readings of the arrivals never go back, every fragment
    retained after a turn is within the default window of 15000 ms of that
    turn's clock reading. *)
Theorem prebuffer_retention arrivals now a :
  nondecreasing (List.map fst arrivals ++ [now]) = true ->
  PreBuffer.DEFAULT_PREBUFFER_DURATION = 15000
  /\ (forall pb,
        PreBuffer.prebufferFmp4 (PreBuffer.ingest now a pb)
        = PreBuffer.evict now
            (PreBuffer.prebufferFmp4 (PreBuffer.store now a pb)))
  /\ Forall (fun p => now - 15000 <= PreBuffer.time p)
       (PreBuffer.prebufferFmp4
          (PreBuffer.ingest now a
             (PreBuffer.ingestAll arrivals PreBuffer.new))).
Proof.
  intros Hnd. split; [reflexivity|]. split; [apply prebufferFmp4_ingest|].
  destruct (List.map fst arrivals ++ [now]) as [|t0 times] eqn:E.
  { destruct (List.map fst arrivals); discriminate. }
  apply (ingestAll_window arrivals t0).
  - split; constructor.
  - rewrite E. apply nondecreasing_cons. split; [lia|exact Hnd].
Qed.

Lemma prebuffer_retention_witness :
  let arrivals :=
    [(1000, boxOf "ftyp" []); (1001, boxOf "moov" []);
     (2000, boxOf "moof" []); (2001, boxOf "mdat" []);
     (17500, boxOf "moof" [])] in
  nondecreasing (List.map fst arrivals ++ [18000]) = true
  /\ PreBuffer.DEFAULT_PREBUFFER_DURATION = 15000
  /\ (forall pb,
        PreBuffer.prebufferFmp4 (PreBuffer.ingest 18000 (boxOf "mdat" []) pb)
        = PreBuffer.evict 18000
            (PreBuffer.prebufferFmp4
               (PreBuffer.store 18000 (boxOf "mdat" []) pb)))
  /\ Forall (fun p => 18000 - 15000 <= PreBuffer.time p)
       (PreBuffer.prebufferFmp4
          (PreBuffer.ingest 18000 (boxOf "mdat" [])
             (PreBuffer.ingestAll arrivals PreBuffer.new))).
Proof.
  intros arrivals. split; [reflexivity|].
  apply (prebuffer_retention arrivals 18000 (boxOf "mdat" [])).
  reflexivity.
Defined.

(** C4, as stated, fails when the clock steps back between two arrivals:
    a fragment observed at 20000, then one observed at 1000, then an
    arrival at 20000 again.  The head of the sequence is within the window,
    so nothing is evicted, and the fragment observed at 1000 stays, older
    than 20000 - 15000. *)
Lemma prebuffer_retention_counterexample :
  let arrivals :=
    [(0, boxOf "ftyp" []); (1, boxOf "moov" []);
     (20000, boxOf "moof" []); (1000, boxOf "mdat" [])] in
  ~ Forall (fun p => 20000 - 15000 <= PreBuffer.time p)
      (PreBuffer.prebufferFmp4
         (PreBuffer.ingest 20000 (boxOf "moof" [])
            (PreBuffer.ingestAll arrivals PreBuffer.new))).
Proof.
  intros arrivals H. vm_compute in H.
  apply Forall_cons in H as [_ H]. apply Forall_cons in H as [H _].
  apply H. reflexivity.
Qed.

(** *** Subscribers *)

Section Subscribers.

Import PreBuffer.

Lemma socketOf_setSocket sock s pb : socketOf (setSocket sock s pb) sock = s.
Proof. unfold socketOf, setSocket. simpl. rewrite lookup_insert_eq. reflexivity. Qed.

Lemma socketOf_setSocket_ne sock sock' s pb :
  sock <> sock' -> socketOf (setSocket sock' s pb) sock = socketOf pb sock.
Proof.
  intros Hne. unfold socketOf, setSocket. simpl.
  rewrite lookup_insert_ne by congruence. reflexivity.
Qed.

Lemma socketOf_writeAtom sock a pb :
  socketOf (writeAtom sock a pb) sock
  = socketWrite (MP4Atom.bytes a) (socketOf pb sock).
Proof. apply socketOf_setSocket. Qed.

Lemma socketOf_writeAtom_ne sock sock' a pb :
  sock <> sock' -> socketOf (writeAtom sock' a pb) sock = socketOf pb sock.
Proof. apply socketOf_setSocket_ne. Qed.

(** Writing atoms to a connection changes that connection only. *)
Lemma writeAtoms_fields sock atoms pb :
  prebufferFmp4 (writeAtoms sock atoms pb) = prebufferFmp4 pb
  /\ ftyp (writeAtoms sock atoms pb) = ftyp pb
  /\ moov (writeAtoms sock atoms pb) = moov pb
  /\ atomListeners (writeAtoms sock atoms pb) = atomListeners pb
  /\ killedListeners (writeAtoms sock atoms pb) = killedListeners pb.
Proof.
  revert pb. induction atoms as [|a atoms IH]; intros pb; [repeat split|].
  unfold writeAtoms in *. simpl.
  destruct (IH (writeAtom sock a pb)) as (-> & -> & -> & -> & ->).
  repeat split.
Qed.

Lemma socketOf_writeAtoms sock atoms pb :
  destroyed (socketOf pb sock) = false ->
  socketOf (writeAtoms sock atoms pb) sock
  = mkSocket (written (socketOf pb sock) ++ List.map MP4Atom.bytes atoms)
             false (handlers (socketOf pb sock)).
Proof.
  revert pb. induction atoms as [|a atoms IH]; intros pb Hd.
  - simpl. rewrite app_nil_r. destruct (socketOf pb sock); simpl in *.
    subst. reflexivity.
  - unfold writeAtoms in *. simpl.
    assert (Hw : socketOf (writeAtom sock a pb) sock
                 = mkSocket (written (socketOf pb sock) ++ [MP4Atom.bytes a])
                            false (handlers (socketOf pb sock))).
    { rewrite socketOf_writeAtom. unfold socketWrite. rewrite Hd.
      reflexivity. }
    rewrite IH by (rewrite Hw; reflexivity).
    rewrite Hw. simpl. rewrite <- app_assoc. reflexivity.
Qed.

(** Everything [getVideo] writes when the connection is accepted: the
    two initialization atoms that were captured, then the retained
    fragments its loop lets through. *)
Lemma socketOf_getVideo requestedPrebuffer sock now pb :
  socketOf (getVideo requestedPrebuffer sock now pb) sock
  = mkSocket
      (List.map MP4Atom.bytes
         (optionList (ftyp pb) ++ optionList (moov pb)
          ++ sendPrebuffered now requestedPrebuffer true (prebufferFmp4 pb)))
      false true.
Proof.
  unfold getVideo. cbn zeta.
  set (pb0 := setSocket sock freshSocket pb).
  set (pb1 := writeAtoms sock (optionList (ftyp pb0)) pb0).
  set (pb2 := writeAtoms sock (optionList (moov pb1)) pb1).
  set (pb3 := writeAtoms sock _ pb2).
  unfold socketOf at 1. simpl. rewrite lookup_insert_eq. simpl.
  assert (H0 : socketOf pb0 sock = freshSocket) by apply socketOf_setSocket.
  assert (Hm1 : moov pb1 = moov pb)
    by (unfold pb1; destruct (writeAtoms_fields sock (optionList (ftyp pb0)) pb0)
          as (_ & _ & -> & _); reflexivity).
  assert (Hp1 : prebufferFmp4 pb1 = prebufferFmp4 pb)
    by (unfold pb1; destruct (writeAtoms_fields sock (optionList (ftyp pb0)) pb0)
          as (-> & _); reflexivity).
  assert (Hp2 : prebufferFmp4 pb2 = prebufferFmp4 pb1)
    by (unfold pb2; destruct (writeAtoms_fields sock (optionList (moov pb1)) pb1)
          as (-> & _); reflexivity).
  assert (H1 : socketOf pb1 sock
               = mkSocket (List.map MP4Atom.bytes (optionList (ftyp pb))) false false).
  { unfold pb1. rewrite socketOf_writeAtoms by (rewrite H0; reflexivity).
    rewrite H0. reflexivity. }
  assert (H2 : socketOf pb2 sock
               = mkSocket (List.map MP4Atom.bytes (optionList (ftyp pb))
                           ++ List.map MP4Atom.bytes (optionList (moov pb)))
                          false false).
  { unfold pb2. rewrite socketOf_writeAtoms by (rewrite H1; reflexivity).
    rewrite H1, Hm1. reflexivity. }
  unfold pb3. rewrite socketOf_writeAtoms by (rewrite H2; reflexivity).
  rewrite H2, Hp2, Hp1. simpl.
  rewrite !List.map_app, <- app_assoc. reflexivity.
Qed.

Lemma getVideo_written requestedPrebuffer sock now pb :
  written (socketOf (getVideo requestedPrebuffer sock now pb) sock)
  = List.map MP4Atom.bytes
      (optionList (ftyp pb) ++ optionList (moov pb)
       ++ sendPrebuffered now requestedPrebuffer true (prebufferFmp4 pb)).
Proof. rewrite socketOf_getVideo. reflexivity. Qed.

(** Once a 'moof' was found the loop lets through every fragment it does
    not skip for its age. *)
Lemma sendPrebuffered_found now requestedPrebuffer l :
  sendPrebuffered now requestedPrebuffer false l
  = List.map atom (filter (fresh now requestedPrebuffer) l).
Proof.
  induction l as [|p l IH]; [reflexivity|].
  simpl. rewrite filter_cons.
  destruct (time p <? now - requestedPrebuffer) eqn:E.
  - apply Z.ltb_lt in E. rewrite decide_False by (unfold fresh; lia). exact IH.
  - apply Z.ltb_ge in E. rewrite decide_True by (unfold fresh; lia). simpl. f_equal. exact IH.
Qed.

(** While it looks for a 'moof' the loop skips the fragments too old and
    the ones that are not a 'moof'. *)
Lemma sendPrebuffered_boundary now requestedPrebuffer l skipped boundary rest :
  filter (fresh now requestedPrebuffer) l = skipped ++ boundary :: rest ->
  Forall (fun p => isType "moof" (atom p) = false) skipped ->
  isType "moof" (atom boundary) = true ->
  sendPrebuffered now requestedPrebuffer true l
  = List.map atom (boundary :: rest).
Proof.
  intros Hf Hsk Hb. revert skipped Hf Hsk.
  induction l as [|p l IH]; intros skipped Hf Hsk.
  - destruct skipped; discriminate.
  - simpl. rewrite filter_cons in Hf.
    destruct (time p <? now - requestedPrebuffer) eqn:E.
    + apply Z.ltb_lt in E. rewrite decide_False in Hf by (unfold fresh; lia). eauto.
    + apply Z.ltb_ge in E. rewrite decide_True in Hf by (unfold fresh; lia).
      destruct skipped as [|q skipped]; simplify_eq/=.
      * unfold isType in Hb. rewrite Hb. simpl. f_equal.
        apply sendPrebuffered_found.
      * apply Forall_cons in Hsk as [Hq Hsk]. unfold isType in Hq.
        rewrite Hq. simpl. eauto.
Qed.

Lemma sendPrebuffered_none now requestedPrebuffer l :
  Forall (fun p => isType "moof" (atom p) = false)
         (filter (fresh now requestedPrebuffer) l) ->
  sendPrebuffered now requestedPrebuffer true l = [].
Proof.
  induction l as [|p l IH]; intros H; [reflexivity|].
  simpl. rewrite filter_cons in H.
  destruct (time p <? now - requestedPrebuffer) eqn:E.
  - apply Z.ltb_lt in E. rewrite decide_False in H by (unfold fresh; lia). auto.
  - apply Z.ltb_ge in E. rewrite decide_True in H by (unfold fresh; lia).
    apply Forall_cons in H as [Hp H]. unfold isType in Hp. rewrite Hp.
    simpl. auto.
Qed.

Lemma filter_fresh_all now requestedPrebuffer l :
  Forall (fresh now requestedPrebuffer) l ->
  filter (fresh now requestedPrebuffer) l = l.
Proof.
  induction 1 as [|p l Hp _ IH]; [reflexivity|].
  rewrite filter_cons, decide_True by exact Hp. f_equal. exact IH.
Qed.

(** On a sequence in arrival order the fragments skipped for their age
    are the head of the sequence. *)
Lemma fresh_suffix now requestedPrebuffer l :
  timeOrdered l ->
  exists older,
    l = older ++ filter (fresh now requestedPrebuffer) l
    /\ Forall (fun p => ~ fresh now requestedPrebuffer p) older.
Proof.
  unfold timeOrdered. induction 1 as [|p l Hl IH Hp].
  - exists []. split; [reflexivity|constructor].
  - rewrite filter_cons. destruct (decide (fresh now requestedPrebuffer p)) as [Hf|Hf].
    + exists []. split; [|constructor]. simpl. f_equal.
      symmetry. apply filter_fresh_all.
      eapply Forall_impl; [exact Hp|]. unfold fresh in *. simpl. intros q Hq. lia.
    + destruct IH as (older & Hol & Hall). exists (p :: older).
      split; [simpl; f_equal; exact Hol | constructor; assumption].
Qed.

End Subscribers.

(** Any sequence splits at its first 'moof'. *)
Lemma split_at_moof (kept : list PreBuffer.PrebufferFmp4) :
  exists skipped delivered,
    kept = skipped ++ delivered
    /\ Forall (fun p => isType "moof" (PreBuffer.atom p) = false) skipped
    /\ (delivered = []
        \/ exists boundary rest,
             delivered = boundary :: rest
             /\ isType "moof" (PreBuffer.atom boundary) = true).
Proof.
  induction kept as [|p kept (skipped & delivered & -> & Hsk & Hd)].
  - exists [], []. repeat split; auto.
  - destruct (isType "moof" (PreBuffer.atom p)) eqn:E.
    + exists [], (p :: skipped ++ delivered). repeat split; eauto.
    + exists (p :: skipped), delivered. repeat split; auto.
Qed.

(** C5. When it is accepted, a subscription opened with both
    initialization atoms captured is written the 'ftyp' atom, then the
    'moov' atom, then the retained fragments [delivered], where: the
    retained fragments not older than [now - requestedPrebuffer] are
    [skipped ++ delivered]; [skipped] holds no 'moof'; the first fragment
    of [delivered], if there is one, is a 'moof'; and when the retained
    sequence is in arrival order, it is [older ++ skipped ++ delivered]
    with [older] the fragments too old, so that [delivered] runs from the
    boundary to the end of the sequence. *)
Theorem getVideo_delivery pb requestedPrebuffer sock now ftyp moov :
  PreBuffer.ftyp pb = Some ftyp ->
  PreBuffer.moov pb = Some moov ->
  exists delivered,
    PreBuffer.written
      (PreBuffer.socketOf
         (PreBuffer.getVideo requestedPrebuffer sock now pb) sock)
    = MP4Atom.bytes ftyp :: MP4Atom.bytes moov
      :: List.map (fun p => MP4Atom.bytes (PreBuffer.atom p)) delivered
    /\ (forall first others,
          delivered = first :: others ->
          isType "moof" (PreBuffer.atom first) = true)
    /\ (exists skipped,
          filter (fresh now requestedPrebuffer) (PreBuffer.prebufferFmp4 pb)
          = skipped ++ delivered
          /\ Forall (fun p => isType "moof" (PreBuffer.atom p) = false) skipped
          /\ (timeOrdered (PreBuffer.prebufferFmp4 pb) ->
              exists older,
                PreBuffer.prebufferFmp4 pb = older ++ skipped ++ delivered
                /\ Forall (fun p => ~ fresh now requestedPrebuffer p) older)).
Proof.
  intros Hf Hm.
  destruct (split_at_moof
              (filter (fresh now requestedPrebuffer)
                      (PreBuffer.prebufferFmp4 pb)))
    as (skipped & delivered & Hk & Hsk & Hd).
  exists delivered. rewrite getVideo_written, Hf, Hm. simpl.
  assert (Hsent :
    PreBuffer.sendPrebuffered now requestedPrebuffer true
      (PreBuffer.prebufferFmp4 pb) = List.map PreBuffer.atom delivered).
  { destruct Hd as [-> | (boundary & rest & -> & Hb)].
    - rewrite app_nil_r in Hk. apply sendPrebuffered_none.
      rewrite Hk. exact Hsk.
    - eapply sendPrebuffered_boundary; eassumption. }
  split; [|split].
  - rewrite Hsent, List.map_map. reflexivity.
  - intros first others ->.
    destruct Hd as [[=] | (boundary & rest & [= <- <-] & Hb)]. exact Hb.
  - exists skipped. split; [exact Hk|]. split; [exact Hsk|].
    intros Hord.
    destruct (fresh_suffix now requestedPrebuffer _ Hord) as (older & Ho & Hall).
    exists older. split; [|exact Hall]. rewrite <- Hk. exact Ho.
Qed.

Lemma getVideo_delivery_witness :
  let ftyp := boxOf "ftyp" ["i"; "s"; "o"; "m"]%byte in
  let moov := boxOf "moov" [x01]%byte in
  let pb :=
    PreBuffer.ingestAll
      [(1000, ftyp); (1001, moov);
       (2000, boxOf "moof" [x02]%byte); (2001, boxOf "mdat" [x03]%byte);
       (7000, boxOf "mdat" [x04]%byte);
       (9000, boxOf "moof" [x05]%byte); (9001, boxOf "mdat" [x06]%byte)]
      PreBuffer.new in
  PreBuffer.ftyp pb = Some ftyp
  /\ PreBuffer.moov pb = Some moov
  /\ exists delivered,
       PreBuffer.written
         (PreBuffer.socketOf (PreBuffer.getVideo 4000 7%nat 10000 pb) 7%nat)
       = MP4Atom.bytes ftyp :: MP4Atom.bytes moov
         :: List.map (fun p => MP4Atom.bytes (PreBuffer.atom p)) delivered
       /\ (forall first others,
             delivered = first :: others ->
             isType "moof" (PreBuffer.atom first) = true)
       /\ (exists skipped,
             filter (fresh 10000 4000) (PreBuffer.prebufferFmp4 pb)
             = skipped ++ delivered
             /\ Forall (fun p => isType "moof" (PreBuffer.atom p) = false)
                  skipped
             /\ (timeOrdered (PreBuffer.prebufferFmp4 pb) ->
                 exists older,
                   PreBuffer.prebufferFmp4 pb = older ++ skipped ++ delivered
                   /\ Forall (fun p => ~ fresh 10000 4000 p) older)).
Proof.
  intros ftyp moov pb.
  split; [reflexivity|]. split; [reflexivity|].
  apply (getVideo_delivery pb 4000 7%nat 10000 ftyp moov); reflexivity.
Defined.

(** C5, as stated, fails twice.  A connection accepted when the one
    retained 'moof' is older than the requested window is written nothing
    after the preamble, and the atom the ingestion loop processes next,
    an 'mdat', is then the first fragment unit it gets.  And when the
    clock stepped back between arrivals, a retained fragment that follows
    the boundary -- the 'moof' at the head of the sequence -- is skipped
    for its age: the 'mdat' observed at 1500. *)
Lemma getVideo_delivery_counterexample :
  let ftyp := boxOf "ftyp" ["i"; "s"; "o"; "m"]%byte in
  let moov := boxOf "moov" [x01]%byte in
  let moof := boxOf "moof" [x02]%byte in
  let mdat := boxOf "mdat" [x03]%byte in
  let moof2 := boxOf "moof" [x04]%byte in
  let stalled :=
    PreBuffer.ingestAll [(1000, ftyp); (1001, moov); (2000, moof)]
      PreBuffer.new in
  let live :=
    PreBuffer.ingest 6501 mdat (PreBuffer.getVideo 4000 7%nat 6500 stalled) in
  let stepped :=
    PreBuffer.ingestAll
      [(1000, ftyp); (1001, moov); (20000, moof); (1500, mdat);
       (20001, moof2)] PreBuffer.new in
  let written :=
    PreBuffer.written
      (PreBuffer.socketOf (PreBuffer.getVideo 4000 7%nat 20002 stepped)
         7%nat) in
  ~ (forall delivered,
       PreBuffer.written (PreBuffer.socketOf live 7%nat)
       = List.map MP4Atom.bytes (ftyp :: moov :: delivered) ->
       forall first others,
         delivered = first :: others -> isType "moof" first = true)
  /\ List.map PreBuffer.atom (PreBuffer.prebufferFmp4 stepped)
     = [moof; mdat; moof2]
  /\ written = List.map MP4Atom.bytes [ftyp; moov; moof; moof2]
  /\ ~ Forall (fun p => MP4Atom.bytes (PreBuffer.atom p) ∈ written)
         (PreBuffer.prebufferFmp4 stepped).
Proof.
  intros ftyp moov moof mdat moof2 stalled live stepped written.
  split; [|split; [reflexivity|split; [reflexivity|]]].
  - intros H. specialize (H [mdat] eq_refl mdat [] eq_refl). discriminate.
  - intros H. vm_compute in H.
    apply Forall_cons in H as [_ H]. apply Forall_cons in H as [H _].
    repeat (apply elem_of_cons in H as [H|H]; [discriminate|]).
    inversion H.
Qed.

(** *** Shutdown *)

Section Shutdown.

Import PreBuffer.

Lemma atomListeners_cleanups ks :
  forall pb s,
    s ∈ atomListeners (foldl (fun pb k => cleanup k pb) pb ks) ->
    s ∈ atomListeners pb.
Proof.
  induction ks as [|k ks IH]; intros pb s H; [exact H|].
  simpl in H. apply IH in H. simpl in H.
  apply list_elem_of_filter in H as [_ H]. exact H.
Qed.

Lemma atomListeners_stop pb s : s ∈ atomListeners (stop pb) -> s ∈ atomListeners pb.
Proof. unfold stop. simpl. apply atomListeners_cleanups. Qed.

Lemma released_stop pb : released (stop pb) = true.
Proof. reflexivity. Qed.

Lemma atomListeners_getVideo requestedPrebuffer sock now pb :
  atomListeners (getVideo requestedPrebuffer sock now pb)
  = atomListeners pb ++ [sock].
Proof.
  unfold getVideo. cbn zeta. simpl.
  repeat match goal with
  | |- context [atomListeners (writeAtoms ?s ?l ?p)] =>
      replace (atomListeners (writeAtoms s l p)) with (atomListeners p)
        by (symmetry; apply writeAtoms_fields)
  end.
  reflexivity.
Qed.

Lemma getVideo_open requestedPrebuffer sock now pb :
  destroyed (socketOf (getVideo requestedPrebuffer sock now pb) sock) = false.
Proof. rewrite socketOf_getVideo. reflexivity. Qed.

(** A broadcast leaves alone the connections that do not listen. *)
Lemma emit_others a ls :
  forall pb sock,
    sock ∉ ls ->
    socketOf (foldl (fun pb s => writeAtom s a pb) pb ls) sock
    = socketOf pb sock.
Proof.
  induction ls as [|s ls IH]; intros pb sock Hn; [reflexivity|].
  simpl. apply not_elem_of_cons in Hn as [Hne Hn].
  rewrite IH by exact Hn. apply socketOf_writeAtom_ne. exact Hne.
Qed.

(** The broadcast of a turn of the ingestion loop reaches the connections
    listening before the turn. *)
Lemma socketOf_ingest now a pb sock ls :
  atomListeners pb = ls ++ [sock] ->
  sock ∉ ls ->
  socketOf (ingest now a pb) sock
  = socketWrite (MP4Atom.bytes a) (socketOf pb sock).
Proof.
  intros Hls Hn. unfold ingest. cbn zeta.
  set (pb2 := setPrebufferFmp4 _ _).
  assert (Hl : atomListeners pb2 = atomListeners pb).
  { unfold pb2, store. repeat case_match; reflexivity. }
  assert (Hs : forall s, socketOf pb2 s = socketOf pb s).
  { intros s. unfold pb2, store, socketOf. repeat case_match; reflexivity. }
  unfold emitAtom. rewrite Hl, Hls, foldl_snoc, socketOf_writeAtom.
  rewrite emit_others by exact Hn. rewrite Hs. reflexivity.
Qed.

(** Whatever the state [stop()] is called in, a subscription opened
    afterwards is written every atom the ingestion loop broadcasts from
    then on. *)
Lemma subscription_after_stop_is_live pb requestedPrebuffer sock now now' a :
  sock ∉ atomListeners pb ->
  let attached := getVideo requestedPrebuffer sock now (stop pb) in
  written (socketOf (ingest now' a attached) sock)
  = written (socketOf attached sock) ++ [MP4Atom.bytes a].
Proof.
  intros Hn attached.
  rewrite (socketOf_ingest now' a attached sock (atomListeners (stop pb))).
  - unfold socketWrite. unfold attached at 1. rewrite getVideo_open.
    reflexivity.
  - apply atomListeners_getVideo.
  - intros H. apply Hn. eapply atomListeners_stop, H.
Qed.

End Shutdown.

(** C3. A subscription opened after [stop()] still receives live atoms:
    with the two initialization atoms and one fragment captured, [stop()]
    sets [released], the connection accepted afterwards is written the
    preamble and the backlog, and the 'moof' the ingestion loop broadcasts
    next is written to it as well. *)
Theorem getVideo_after_stop_receives_live_atoms :
  let ftyp := boxOf "ftyp" ["i"; "s"; "o"; "m"]%byte in
  let moov := boxOf "moov" [x01]%byte in
  let moof1 := boxOf "moof" [x02]%byte in
  let mdat1 := boxOf "mdat" [x03]%byte in
  let moof2 := boxOf "moof" [x04]%byte in
  let stopped :=
    PreBuffer.stop
      (PreBuffer.ingestAll
         [(1000, ftyp); (1001, moov); (1002, moof1); (1003, mdat1)]
         PreBuffer.new) in
  let attached := PreBuffer.getVideo 4000 7%nat 2000 stopped in
  let after := PreBuffer.ingest 2001 moof2 attached in
  PreBuffer.released stopped = true
  /\ PreBuffer.written (PreBuffer.socketOf attached 7%nat)
     = List.map MP4Atom.bytes [ftyp; moov; moof1; mdat1]
  /\ PreBuffer.written (PreBuffer.socketOf after 7%nat)
     = List.map MP4Atom.bytes [ftyp; moov; moof1; mdat1; moof2].
Proof. repeat split; vm_compute; reflexivity. Qed.

(** ** The recording stream *)

(** Once the input is settled and the transcoder spawned, no packet of
    [handleRecordingStreamRequest] carries the end marker, whatever the
    transcoder writes, however the generator ends and whenever the stream
    is aborted. *)
Lemma forward_not_last aborted fragments :
  forall k,
    Forall (fun p => RecordingDelegate.isLast p = false)
           (RecordingDelegate.forward aborted k fragments).
Proof.
  induction fragments as [|f fragments IH]; intros k; simpl; [constructor|].
  destruct (aborted k); constructor; [reflexivity|apply IH].
Qed.

Lemma recording_without_marker fmp4Port port stdout killed aborted d host args
    configuration :
  RecordingDelegate.currentRecordingConfiguration d = Some configuration ->
  RecordingDelegate.ffmpegInput
    (fst (RecordingDelegate.startPreBuffer fmp4Port d host)) port = inr args ->
  Forall (fun p => RecordingDelegate.isLast p = false)
    (fst (fst (RecordingDelegate.handleRecordingStreamRequest fmp4Port port
                 (RecordingDelegate.Spawned stdout killed) aborted d host))).
Proof.
  intros Hc Hin. unfold RecordingDelegate.handleRecordingStreamRequest.
  rewrite Hc.
  destruct (RecordingDelegate.startPreBuffer fmp4Port d host) as [d1 host1].
  simpl in Hin.
  rewrite (handleFragmentsRequests_yielded _ _ _ _ _ Hin). simpl.
  apply forward_not_last.
Qed.

(** C6. A recording stream that ends normally yields no end marker: with
    a recording configuration, a direct source and a transcoder that writes
    'ftyp', 'moov', 'moof', 'mdat' and ends, the packets are the
    initialization fragment and the media fragment, both with [isLast]
    false, and nothing after them; the marker is yielded when the setup
    fails, here for a missing source. *)
Theorem handleRecordingStreamRequest_normal_end_without_marker :
  let ftyp := boxOf "ftyp" ["i"; "s"; "o"; "m"]%byte in
  let moov := boxOf "moov" [x01]%byte in
  let moof := boxOf "moof" [x02]%byte in
  let mdat := boxOf "mdat" [x03; x04]%byte in
  let stdout := List.concat (List.map MP4Atom.bytes [ftyp; moov; moof; mdat]) in
  let configuration := RecordingDelegate.mkConfiguration 2000 30 in
  let delegate source :=
    RecordingDelegate.updateRecordingConfiguration (Some configuration)
      (RecordingDelegate.new
         (RecordingDelegate.mkVideoConfig source false None None) "ffmpeg") in
  let packets source :=
    fst (fst (RecordingDelegate.handleRecordingStreamRequest 10000 10001
                (RecordingDelegate.Spawned (Some stdout) false)
                (fun _ => false) (delegate source) [])) in
  packets (Some "-i rtsp://camera/stream")
  = [RecordingDelegate.mkPacket (MP4Atom.bytes ftyp ++ MP4Atom.bytes moov) false;
     RecordingDelegate.mkPacket (MP4Atom.bytes moof ++ MP4Atom.bytes mdat) false]
  /\ existsb RecordingDelegate.isEndMarker
       (packets (Some "-i rtsp://camera/stream")) = false
  /\ packets None = [RecordingDelegate.mkPacket [] true].
Proof. repeat split; vm_compute; reflexivity. Qed.

(** ** The event stream *)

Section EventStream.

Import DahuaEvents.

Lemma stripPrefix_length p :
  forall s r, stripPrefix p s = Some r ->
              String.length s = (String.length p + String.length r)%nat.
Proof.
  induction p as [|a p IH]; intros s r H; simpl in *.
  - congruence.
  - destruct s as [|b s]; [discriminate|].
    destruct (Ascii.eqb a b); [|discriminate].
    simpl. f_equal. apply IH, H.
Qed.

Lemma span_length f s :
  String.length s
  = (String.length (fst (span f s)) + String.length (snd (span f s)))%nat.
Proof.
  induction s as [|c s IH]; [reflexivity|].
  simpl. destruct (f c); [|reflexivity].
  destruct (span f s) as [run rest]. simpl in *. lia.
Qed.

(** A match consumes at least one character. *)
Lemma matchAt_shorter s g1 g2 g3 rest :
  matchAt s = Some (g1, g2, g3, rest) ->
  (String.length rest < String.length s)%nat.
Proof.
  unfold matchAt.
  destruct (stripPrefix "Code=" s) as [s1|] eqn:E1; [|discriminate].
  pose proof (span_length notSemicolon s1) as L1.
  destruct (span notSemicolon s1) as [r1 s2].
  destruct (negb (nonEmpty r1)); [discriminate|].
  destruct (stripPrefix ";action=" s2) as [s3|] eqn:E2; [|discriminate].
  pose proof (span_length notSemicolon s3) as L2.
  destruct (span notSemicolon s3) as [r2 s4].
  destruct (negb (nonEmpty r2)); [discriminate|].
  destruct (stripPrefix ";index=" s4) as [s5|] eqn:E3; [|discriminate].
  pose proof (span_length isDigit s5) as L3.
  destruct (span isDigit s5) as [r3 s6].
  destruct (negb (nonEmpty r3)); [discriminate|].
  intros [= _ _ _ <-].
  apply stripPrefix_length in E1, E2, E3. simpl in *. lia.
Qed.

(** The fuel of [execAll] is never used up: any two amounts above the
    length of the text give the same matches. *)
Lemma execAll_fuel fuel1 :
  forall fuel2 s,
    (String.length s < fuel1)%nat -> (String.length s < fuel2)%nat ->
    execAll fuel1 s = execAll fuel2 s.
Proof.
  induction fuel1 as [|fuel1 IH]; intros fuel2 s H1 H2; [lia|].
  destruct fuel2 as [|fuel2]; [lia|]. simpl.
  destruct (matchAt s) as [[[[g1 g2] g3] rest]|] eqn:E.
  - apply matchAt_shorter in E. f_equal. apply IH; lia.
  - destruct s as [|c s]; [reflexivity|]. simpl in *. apply IH; lia.
Qed.

(** Only the four motion-relevant types are ever handed to
    [notifyListeners]. *)
Lemma dispatched_types buffer :
  Forall (fun e => In (eventType e) dahuaMotionEvents) (dispatched buffer).
Proof.
  unfold dispatched. generalize (execAll (S (String.length buffer)) buffer).
  intros ms. induction ms as [|[[ty action] digits] ms IH]; [constructor|].
  simpl. unfold parseEvent at 1.
  destruct (existsb (String.eqb ty) dahuaMotionEvents) eqn:E; simpl;
    [|exact IH].
  constructor; [|exact IH]. simpl.
  apply existsb_exists in E as (x & Hx & Heq).
  apply String.eqb_eq in Heq. subst. exact Hx.
Qed.

End EventStream.

(** C7. On a parser that has received nothing yet, whatever the
    registered listeners: the chunk "Code=VideoMotion;action=Start;index=4"
    hands exactly one event to [notifyListeners], with channel 5, type
    "VideoMotion" and [active] true, and the callbacks called are those
    registered for channel 5, in order, with these arguments; the chunk
    "Code=VideoLoss;action=Start;index=0" hands over no event and calls no
    callback. *)
Theorem handleChunk_scenario listeners debug :
  let parser := DahuaEvents.mk "" listeners debug in
  let motion := DahuaEvents.mkEvent 5 "VideoMotion" true in
  (snd (fst (DahuaEvents.handleChunk
               "Code=VideoMotion;action=Start;index=4" parser)) = [motion]
   /\ snd (DahuaEvents.handleChunk
             "Code=VideoMotion;action=Start;index=4" parser)
      = List.map (fun cb => DahuaEvents.mkCall cb motion)
                 (default [] (listeners !! 5)))
  /\ (snd (fst (DahuaEvents.handleChunk
                  "Code=VideoLoss;action=Start;index=0" parser)) = []
      /\ snd (DahuaEvents.handleChunk
                "Code=VideoLoss;action=Start;index=0" parser) = []).
Proof.
  intros parser motion.
  assert (H1 : DahuaEvents.dispatched "Code=VideoMotion;action=Start;index=4"
               = [motion]) by (vm_compute; reflexivity).
  assert (H2 : DahuaEvents.dispatched "Code=VideoLoss;action=Start;index=0"
               = []) by (vm_compute; reflexivity).
  cbv beta zeta iota delta
    [DahuaEvents.handleChunk DahuaEvents.buffer DahuaEvents.listeners
     String.append fst snd parser].
  rewrite H1, H2. cbn [List.map List.concat fst snd].
  repeat split.
  unfold DahuaEvents.notifyListeners. cbn [DahuaEvents.channel motion].
  rewrite app_nil_r. destruct (listeners !! 5); reflexivity.
Qed.

(** ** Starting the prebuffer *)

(** With the prebuffer of the delegate in place, [startPreBuffer()]
    changes nothing and touches nothing on the host. *)
Lemma startPreBuffer_running fmp4Port d host pb :
  RecordingDelegate.preBuffer d = Some pb ->
  RecordingDelegate.startPreBuffer fmp4Port d host = (d, host).
Proof.
  intros H. unfold RecordingDelegate.startPreBuffer. rewrite H.
  destruct (RecordingDelegate.prebuffer (RecordingDelegate.videoConfig d));
    reflexivity.
Qed.

(** C8. With the prebuffer enabled, the first [startPreBuffer()] of a
    delegate opens one listening socket and spawns one subprocess, and
    keeps the session; any number of further calls leave the delegate and
    the host as the first call left them; and [startPreBuffer] of the
    prebuffer, handed a session, returns that session and touches nothing
    on the host. *)
Theorem startPreBuffer_idempotent videoConfig videoProcessor fmp4Port
    (furtherPorts : list Z) host :
  RecordingDelegate.prebuffer videoConfig = true ->
  let first :=
    RecordingDelegate.startPreBuffer fmp4Port
      (RecordingDelegate.new videoConfig videoProcessor) host in
  (exists session args,
      snd first
      = host ++ [Listen (PreBuffer.server session); Spawn videoProcessor args]
      /\ RecordingDelegate.preBufferSession (fst first) = Some session
      /\ RecordingDelegate.preBuffer (fst first) = Some PreBuffer.new)
  /\ foldl (fun st port =>
              RecordingDelegate.startPreBuffer port (fst st) (snd st))
           first furtherPorts = first
  /\ (forall ffmpegPath ffmpegInput port session host',
        PreBuffer.startPreBuffer ffmpegPath ffmpegInput port (Some session) host'
        = (session, host')).
Proof.
  intros Hen first.
  assert (Hfirst : RecordingDelegate.preBuffer (fst first) = Some PreBuffer.new).
  { unfold first, RecordingDelegate.startPreBuffer, RecordingDelegate.new.
    cbn [RecordingDelegate.videoConfig]. rewrite Hen. reflexivity. }
  split; [|split].
  - unfold first, RecordingDelegate.startPreBuffer, RecordingDelegate.new.
    cbn [RecordingDelegate.videoConfig]. rewrite Hen. simpl.
    eexists (PreBuffer.mkSession _ _), _.
    split; [reflexivity|]. split; reflexivity.
  - induction furtherPorts as [|port ports IH]; [reflexivity|].
    simpl. rewrite (startPreBuffer_running _ _ _ _ Hfirst).
    destruct first. exact IH.
  - reflexivity.
Qed.

Lemma startPreBuffer_idempotent_witness :
  let videoConfig :=
    RecordingDelegate.mkVideoConfig
      (Some "-rtsp_transport tcp -i rtsp://camera/stream") true None None in
  let first :=
    RecordingDelegate.startPreBuffer 10000
      (RecordingDelegate.new videoConfig "ffmpeg") [] in
  RecordingDelegate.prebuffer videoConfig = true
  /\ (exists session args,
         snd first
         = [] ++ [Listen (PreBuffer.server session); Spawn "ffmpeg" args]
         /\ RecordingDelegate.preBufferSession (fst first) = Some session
         /\ RecordingDelegate.preBuffer (fst first) = Some PreBuffer.new)
  /\ foldl (fun st port =>
              RecordingDelegate.startPreBuffer port (fst st) (snd st))
           first [10001; 10002] = first
  /\ (forall ffmpegPath ffmpegInput port session host',
        PreBuffer.startPreBuffer ffmpegPath ffmpegInput port (Some session) host'
        = (session, host')).
Proof.
  intros videoConfig first. split; [reflexivity|].
  apply (startPreBuffer_idempotent videoConfig "ffmpeg" 10000 [10001; 10002] []).
  reflexivity.
Defined.

(** ** Resolution negotiation *)

Section Resolution.

Import StreamingDelegate.

Variables HOMEKIT_MAX_WIDTH HOMEKIT_MAX_HEIGHT : Z.

(** The result is the requested dimensions left by the resolution mode,
    each capped by its maximum, with the filter chain built for them. *)
Lemma determineResolution_min videoConfig request isSnapshot :
  determineResolution HOMEKIT_MAX_WIDTH HOMEKIT_MAX_HEIGHT
    videoConfig request isSnapshot
  = let w :=
      Z.min (fst (requestedAfterMode HOMEKIT_MAX_WIDTH HOMEKIT_MAX_HEIGHT
                    videoConfig request isSnapshot))
            (effectiveMaxWidth HOMEKIT_MAX_WIDTH videoConfig) in
    let h :=
      Z.min (snd (requestedAfterMode HOMEKIT_MAX_WIDTH HOMEKIT_MAX_HEIGHT
                    videoConfig request isSnapshot))
            (effectiveMaxHeight HOMEKIT_MAX_HEIGHT videoConfig) in
    ResolutionInfo.mk w h (filterChain videoConfig w h isSnapshot).
Proof.
  unfold determineResolution.
  destruct (requestedAfterMode _ _ videoConfig request isSnapshot) as [w h].
  cbn [fst snd].
  set (mw := effectiveMaxWidth HOMEKIT_MAX_WIDTH videoConfig).
  set (mh := effectiveMaxHeight HOMEKIT_MAX_HEIGHT videoConfig).
  replace (if mw <? w then mw else w) with (Z.min w mw)
    by (destruct (mw <? w) eqn:E;
        [apply Z.ltb_lt in E|apply Z.ltb_ge in E]; lia).
  replace (if mh <? h then mh else h) with (Z.min h mh)
    by (destruct (mh <? h) eqn:E;
        [apply Z.ltb_lt in E|apply Z.ltb_ge in E]; lia).
  reflexivity.
Qed.

(** In every mode the result stays within the maxima. *)
Lemma determineResolution_bounded videoConfig request isSnapshot :
  ResolutionInfo.width
    (determineResolution HOMEKIT_MAX_WIDTH HOMEKIT_MAX_HEIGHT
       videoConfig request isSnapshot)
  <= effectiveMaxWidth HOMEKIT_MAX_WIDTH videoConfig
  /\ ResolutionInfo.height
       (determineResolution HOMEKIT_MAX_WIDTH HOMEKIT_MAX_HEIGHT
          videoConfig request isSnapshot)
     <= effectiveMaxHeight HOMEKIT_MAX_HEIGHT videoConfig.
Proof. rewrite determineResolution_min. simpl. lia. Qed.

(** Unless 'force-custom' replaces them, the requested dimensions left by
    the resolution mode are the caller's or the maxima. *)
Lemma requested_not_custom videoConfig request isSnapshot :
  forcedCustom videoConfig isSnapshot = false ->
  requestedAfterMode HOMEKIT_MAX_WIDTH HOMEKIT_MAX_HEIGHT
    videoConfig request isSnapshot
  = (width request, height request)
  \/ requestedAfterMode HOMEKIT_MAX_WIDTH HOMEKIT_MAX_HEIGHT
       videoConfig request isSnapshot
     = (effectiveMaxWidth HOMEKIT_MAX_WIDTH videoConfig,
        effectiveMaxHeight HOMEKIT_MAX_HEIGHT videoConfig).
Proof.
  unfold forcedCustom, requestedAfterMode. intros H.
  destruct (negb isSnapshot); simpl in *; [|left; reflexivity].
  destruct (String.eqb _ "adaptive"); simpl; [left; reflexivity|].
  destruct (String.eqb _ "force-max"); [right; reflexivity|].
  destruct (String.eqb _ "force-custom"); simpl in *; [|left; reflexivity].
  rewrite H. left. reflexivity.
Qed.

(** Under 'force-custom' with both custom dimensions set, a live-stream
    request resolves to the custom dimensions, each capped by its
    maximum. *)
Lemma determineResolution_custom videoConfig request customWidth customHeight :
  forcedCustom videoConfig false = true ->
  StreamingDelegate.customWidth videoConfig = Some customWidth ->
  StreamingDelegate.customHeight videoConfig = Some customHeight ->
  ResolutionInfo.width
    (determineResolution HOMEKIT_MAX_WIDTH HOMEKIT_MAX_HEIGHT
       videoConfig request false)
  = Z.min customWidth (effectiveMaxWidth HOMEKIT_MAX_WIDTH videoConfig)
  /\ ResolutionInfo.height
       (determineResolution HOMEKIT_MAX_WIDTH HOMEKIT_MAX_HEIGHT
          videoConfig request false)
     = Z.min customHeight (effectiveMaxHeight HOMEKIT_MAX_HEIGHT videoConfig).
Proof.
  intros H Hw Hh. rewrite determineResolution_min. cbn zeta.
  cbn [ResolutionInfo.width ResolutionInfo.height].
  unfold forcedCustom in H. unfold requestedAfterMode.
  simpl in H. rewrite !andb_true_iff in H. destruct H as [[Hm Hcw] Hch].
  rewrite Hm, Hcw, Hch, Hw, Hh. simpl.
  destruct (String.eqb _ "adaptive") eqn:Ea.
  - apply String.eqb_eq in Ea, Hm. congruence.
  - simpl. destruct (String.eqb _ "force-max") eqn:Ef; [|split; reflexivity].
    apply String.eqb_eq in Ef, Hm. congruence.
Qed.

End Resolution.

(** C9, as amended.  For every request whose dimensions are not replaced
    by the custom ones of the 'force-custom' mode, a requested dimension
    that exceeds its maximum -- the configured one, capped by the HomeKit
    limit -- is reduced to that maximum; in particular, with
    [maxWidth = 1920], [maxHeight = 1080] and HomeKit limits no lower, a
    request of 2560x1440 resolves to 1920x1080. *)
Theorem determineResolution_clamp HOMEKIT_MAX_WIDTH HOMEKIT_MAX_HEIGHT
    videoConfig request isSnapshot :
  forcedCustom videoConfig isSnapshot = false ->
  let resolved :=
    StreamingDelegate.determineResolution HOMEKIT_MAX_WIDTH HOMEKIT_MAX_HEIGHT
      videoConfig request isSnapshot in
  let maxWidth :=
    StreamingDelegate.effectiveMaxWidth HOMEKIT_MAX_WIDTH videoConfig in
  let maxHeight :=
    StreamingDelegate.effectiveMaxHeight HOMEKIT_MAX_HEIGHT videoConfig in
  (maxWidth < StreamingDelegate.width request ->
   StreamingDelegate.ResolutionInfo.width resolved = maxWidth)
  /\ (maxHeight < StreamingDelegate.height request ->
      StreamingDelegate.ResolutionInfo.height resolved = maxHeight)
  /\ (StreamingDelegate.maxWidth videoConfig = Some 1920 ->
      StreamingDelegate.maxHeight videoConfig = Some 1080 ->
      1920 <= HOMEKIT_MAX_WIDTH -> 1080 <= HOMEKIT_MAX_HEIGHT ->
      request = StreamingDelegate.mkRequest 2560 1440 ->
      StreamingDelegate.ResolutionInfo.width resolved = 1920
      /\ StreamingDelegate.ResolutionInfo.height resolved = 1080).
Proof.
  intros Hmode resolved maxWidth maxHeight.
  unfold resolved. rewrite determineResolution_min. cbn zeta.
  cbn [StreamingDelegate.ResolutionInfo.width
       StreamingDelegate.ResolutionInfo.height].
  fold maxWidth maxHeight.
  assert (Hscenario :
    StreamingDelegate.maxWidth videoConfig = Some 1920 ->
    StreamingDelegate.maxHeight videoConfig = Some 1080 ->
    1920 <= HOMEKIT_MAX_WIDTH -> 1080 <= HOMEKIT_MAX_HEIGHT ->
    maxWidth = 1920 /\ maxHeight = 1080).
  { intros Hw Hh HW HH. unfold maxWidth, maxHeight,
      StreamingDelegate.effectiveMaxWidth, StreamingDelegate.effectiveMaxHeight.
    rewrite Hw, Hh. simpl. lia. }
  destruct (requested_not_custom HOMEKIT_MAX_WIDTH HOMEKIT_MAX_HEIGHT
              videoConfig request isSnapshot Hmode) as [-> | ->];
    fold maxWidth maxHeight; cbn [fst snd].
  - split; [lia|]. split; [lia|].
    intros Hw Hh HW HH ->.
    destruct (Hscenario Hw Hh HW HH) as [-> ->]. split; reflexivity.
  - split; [lia|]. split; [lia|].
    intros Hw Hh HW HH ->.
    destruct (Hscenario Hw Hh HW HH) as [-> ->]. split; reflexivity.
Qed.

Lemma determineResolution_clamp_witness :
  let videoConfig :=
    StreamingDelegate.mkVideoConfig (Some 1920) (Some 1080) None None None
      None false false None in
  let request := StreamingDelegate.mkRequest 2560 1440 in
  let resolved :=
    StreamingDelegate.determineResolution 1920 1080 videoConfig request false in
  forcedCustom videoConfig false = false
  /\ StreamingDelegate.ResolutionInfo.width resolved = 1920
  /\ StreamingDelegate.ResolutionInfo.height resolved = 1080.
Proof.
  intros videoConfig request resolved. split; [reflexivity|].
  apply (determineResolution_clamp 1920 1080 videoConfig request false);
    [reflexivity | reflexivity | reflexivity | lia | lia | reflexivity].
Defined.

(** C9, as stated, fails for a live-stream request under 'force-custom':
    with [maxWidth = 1920], [maxHeight = 1080] and custom dimensions
    1280x720, a request of 2560x1440 exceeds the maxima and resolves to
    1280x720, not to the maxima. *)
Lemma determineResolution_clamp_counterexample :
  let videoConfig :=
    StreamingDelegate.mkVideoConfig (Some 1920) (Some 1080)
      (Some "force-custom") (Some 1280) (Some 720) None false false None in
  let request := StreamingDelegate.mkRequest 2560 1440 in
  let resolved :=
    StreamingDelegate.determineResolution 1920 1080 videoConfig request false in
  (StreamingDelegate.ResolutionInfo.width resolved = 1280
   /\ StreamingDelegate.ResolutionInfo.height resolved = 720)
  /\ ~ (StreamingDelegate.ResolutionInfo.width resolved = 1920
        /\ StreamingDelegate.ResolutionInfo.height resolved = 1080).
Proof. split; [split; reflexivity | intros [H _]; discriminate H]. Qed.


(** * Further properties *)

(** ** The box parsers, continued *)

Section BoxParserMore.

Import HksvHelpers.

Lemma readLength_app ret rest length :
  Z.of_nat (List.length ret) = length ->
  readLength (ret ++ rest) length = Resolved ret rest.
Proof.
  intros <-. unfold readLength.
  destruct (Z.of_nat (List.length ret) =? 0) eqn:E0.
  - apply Z.eqb_eq in E0. destruct ret; [reflexivity|simpl in E0; lia].
  - apply Z.eqb_neq in E0.
    destruct ((0 <? Z.of_nat (List.length ret))
              && (Z.of_nat (List.length ret)
                  <=? Z.of_nat (List.length (ret ++ rest)))) eqn:E1.
    + rewrite Nat2Z.id, take_app_length, drop_app_length. reflexivity.
    + apply andb_false_iff in E1 as [E1|E1];
        [apply Z.ltb_ge in E1|apply Z.leb_gt in E1; rewrite length_app in E1];
        lia.
Qed.

Lemma parseStep_wellFormed a rest :
  wellFormed a ->
  parseStep (MP4Atom.bytes a ++ rest)
  = Yield a rest [8; MP4Atom.length a].
Proof.
  intros (Hh & Hw & Ht & Hd). unfold parseStep, MP4Atom.bytes.
  rewrite <- app_assoc.
  rewrite (readLength_app (MP4Atom.header a)) by (rewrite Hh; reflexivity).
  rewrite Hw. cbn zeta.
  replace (MP4Atom.length a + 8 - 8) with (MP4Atom.length a) by lia.
  rewrite (readLength_app (MP4Atom.data a)) by exact Hd.
  rewrite <- Ht. destruct a; reflexivity.
Qed.

Lemma generatorStep_wellFormed killed a rest :
  wellFormed a ->
  0 <= MP4Atom.length a <= RecordingDelegate.maxBoxLength ->
  RecordingDelegate.generatorStep killed (MP4Atom.bytes a ++ rest)
  = Yield a rest [8; MP4Atom.length a].
Proof.
  intros (Hh & Hw & Ht & Hd) Hb.
  unfold RecordingDelegate.generatorStep, MP4Atom.bytes.
  rewrite <- app_assoc.
  rewrite (readLength_app (MP4Atom.header a)) by (rewrite Hh; reflexivity).
  rewrite Hw. cbn zeta.
  replace (MP4Atom.length a + 8 - 8) with (MP4Atom.length a) by lia.
  destruct ((MP4Atom.length a <? 0)
            || (RecordingDelegate.maxBoxLength <? MP4Atom.length a)) eqn:E.
  { apply orb_true_iff in E as [E|E]; apply Z.ltb_lt in E; lia. }
  rewrite (readLength_app (MP4Atom.data a)) by exact Hd.
  rewrite <- Ht. destruct a; reflexivity.
Qed.

Lemma generatorStep_parseStep killed readable a rest requested :
  RecordingDelegate.generatorStep killed readable = Yield a rest requested ->
  parseStep readable = Yield a rest requested
  /\ 0 <= MP4Atom.length a <= RecordingDelegate.maxBoxLength.
Proof.
  unfold RecordingDelegate.generatorStep, parseStep.
  destruct (readLength readable 8) as [header r1|e];
    [|destruct killed; discriminate].
  destruct (readInt32BE header) as [whole|]; [|destruct killed; discriminate].
  cbn zeta.
  destruct ((whole - 8 <? 0) || _) eqn:E; [destruct killed; discriminate|].
  apply orb_false_iff in E as [Ea Eb]. apply Z.ltb_ge in Ea, Eb.
  destruct (readLength r1 (whole - 8)) as [d r2|e];
    [|destruct killed; discriminate].
  intros [= <- <- <-]. split; [reflexivity|simpl; lia].
Qed.

End BoxParserMore.



(** X2. Complete atoms at the head of a source are yielded first,
    whatever follows them: on a source that starts with the bytes of
    well-formed atoms, each with a payload no longer than a read can ask
    for (1 GiB), [parseFragmentedMP4] yields these atoms in order before
    anything else, and first asks [readLength] for 8 bytes and for the
    payload length of each in turn. *)
Theorem parseFragmentedMP4_prefix atoms rest :
  Forall wellFormed atoms ->
  Forall (fun a => MP4Atom.length a <= 1073741824) atoms ->
  atoms
    `prefix_of`
    yielded
      (HksvHelpers.parseFragmentedMP4
         (List.concat (List.map MP4Atom.bytes atoms) ++ rest))
  /\ flat_map (fun a => [8; MP4Atom.length a]) atoms
       `prefix_of`
       reads
         (HksvHelpers.parseFragmentedMP4
            (List.concat (List.map MP4Atom.bytes atoms) ++ rest)).
Proof.
  intros Hw _. induction Hw as [|a atoms Ha _ [IHy IHr]];
    [split; apply prefix_nil|].
  cbn [List.map List.concat flat_map]. rewrite <- app_assoc.
  rewrite parseFragmentedMP4_unfold, (parseStep_wellFormed a _ Ha).
  cbn zeta. cbn [yielded reads].
  split; [apply prefix_cons, IHy|apply prefix_app, IHr].
Qed.

Lemma parseFragmentedMP4_prefix_witness :
  let atoms := [boxOf "ftyp" ["i"; "s"; "o"; "m"]%byte; boxOf "moov" [];
                boxOf "moof" [x01; x02]%byte] in
  let rest := [x00; x00; x00; x10; "m"]%byte in
  Forall wellFormed atoms
  /\ Forall (fun a => MP4Atom.length a <= 1073741824) atoms
  /\ atoms
       `prefix_of`
       yielded
         (HksvHelpers.parseFragmentedMP4
            (List.concat (List.map MP4Atom.bytes atoms) ++ rest))
  /\ flat_map (fun a => [8; MP4Atom.length a]) atoms
       `prefix_of`
       reads
         (HksvHelpers.parseFragmentedMP4
            (List.concat (List.map MP4Atom.bytes atoms) ++ rest)).
Proof.
  intros atoms rest.
  assert (H1 : Forall wellFormed atoms)
    by (repeat constructor; reflexivity).
  assert (H2 : Forall (fun a => MP4Atom.length a <= 1073741824) atoms)
    by (repeat constructor; vm_compute; discriminate).
  split; [exact H1|]. split; [exact H2|].
  apply (parseFragmentedMP4_prefix atoms rest H1 H2).
Defined.

(** X3. The length check of the recording generator only cuts the
    sequence short: the atoms it yields are the first atoms
    [parseFragmentedMP4] yields on the same bytes, each with a payload
    length between 0 and 50 MiB, and every length it asks [readLength] for
    is within these bounds. *)
Theorem generator_is_guarded_parser killed readable :
  yielded (RecordingDelegate.generator killed (Some readable))
    `prefix_of` yielded (HksvHelpers.parseFragmentedMP4 readable)
  /\ Forall (fun a => 0 <= MP4Atom.length a <= 50 * 1024 * 1024)
       (yielded (RecordingDelegate.generator killed (Some readable)))
  /\ Forall (fun n => 0 <= n <= 50 * 1024 * 1024)
       (reads (RecordingDelegate.generator killed (Some readable))).
Proof.
  split; [|split; [|apply generator_reads_in_range]].
  - remember (List.length readable) as n eqn:Hn.
    revert readable Hn. induction (lt_wf n) as [n _ IH]. intros readable ->.
    rewrite generator_unfold, parseFragmentedMP4_unfold.
    destruct (RecordingDelegate.generatorStep killed readable)
      as [atom rest requested|how requested] eqn:E; [|apply prefix_nil].
    pose proof (generatorStep_progress _ _ _ _ _ E) as Hlt.
    apply generatorStep_parseStep in E as [-> _]. simpl.
    apply prefix_cons. eapply IH; [exact Hlt|reflexivity].
  - remember (List.length readable) as n eqn:Hn.
    revert readable Hn. induction (lt_wf n) as [n _ IH]. intros readable ->.
    rewrite generator_unfold.
    destruct (RecordingDelegate.generatorStep killed readable)
      as [atom rest requested|how requested] eqn:E; [|constructor].
    pose proof (generatorStep_progress _ _ _ _ _ E) as Hlt.
    apply generatorStep_parseStep in E as [_ Hb]. simpl.
    constructor; [exact Hb|]. eapply IH; [exact Hlt|reflexivity].
Qed.

(** ** The prebuffer, continued *)

Section PreBufferMore.

Import PreBuffer.

Lemma emit_fields a ls :
  forall pb,
    let pb' := foldl (fun pb s => writeAtom s a pb) pb ls in
    prebufferFmp4 pb' = prebufferFmp4 pb
    /\ ftyp pb' = ftyp pb /\ moov pb' = moov pb
    /\ atomListeners pb' = atomListeners pb
    /\ killedListeners pb' = killedListeners pb.
Proof.
  induction ls as [|s ls IH]; intros pb; [repeat split|].
  simpl. destruct (IH (writeAtom s a pb)) as (-> & -> & -> & -> & ->).
  repeat split.
Qed.

Lemma ingest_listeners now a pb :
  atomListeners (ingest now a pb) = atomListeners pb
  /\ killedListeners (ingest now a pb) = killedListeners pb.
Proof.
  unfold ingest, emitAtom. cbn zeta.
  set (pb2 := setPrebufferFmp4 _ _).
  destruct (emit_fields a (atomListeners pb2) pb2) as (_ & _ & _ & -> & ->).
  unfold pb2, store. repeat case_match; split; reflexivity.
Qed.

Lemma ingest_init now a pb :
  ftyp (ingest now a pb) = Some (default a (ftyp pb))
  /\ moov (ingest now a pb)
     = match ftyp pb with
       | Some _ => Some (default a (moov pb))
       | None => moov pb
       end.
Proof.
  unfold ingest, emitAtom. cbn zeta.
  set (pb2 := setPrebufferFmp4 _ _).
  destruct (emit_fields a (atomListeners pb2) pb2) as (_ & -> & -> & _).
  unfold pb2, store. repeat case_match; simplify_eq/=; split; congruence.
Qed.

Lemma ingest_socket_unlistened now a pb sock :
  sock ∉ atomListeners pb ->
  socketOf (ingest now a pb) sock = socketOf pb sock.
Proof.
  intros Hn. unfold ingest, emitAtom. cbn zeta.
  set (pb2 := setPrebufferFmp4 _ _).
  assert (Hl : atomListeners pb2 = atomListeners pb)
    by (unfold pb2, store; repeat case_match; reflexivity).
  assert (Hs : socketOf pb2 sock = socketOf pb sock)
    by (unfold pb2, store, socketOf; repeat case_match; reflexivity).
  rewrite Hl, emit_others by exact Hn. exact Hs.
Qed.

Lemma ingestAll_listeners arrivals :
  forall pb,
    atomListeners (ingestAll arrivals pb) = atomListeners pb
    /\ killedListeners (ingestAll arrivals pb) = killedListeners pb.
Proof.
  induction arrivals as [|[t a] arrivals IH]; intros pb; [split; reflexivity|].
  unfold ingestAll. simpl foldl.
  destruct (IH (ingest t a pb)) as [H1 H2]. unfold ingestAll in H1, H2.
  rewrite H1, H2. apply ingest_listeners.
Qed.

Lemma ingestAll_socket_unlistened arrivals :
  forall pb sock,
    sock ∉ atomListeners pb ->
    socketOf (ingestAll arrivals pb) sock = socketOf pb sock.
Proof.
  induction arrivals as [|[t a] arrivals IH]; intros pb sock Hn; [reflexivity|].
  unfold ingestAll. simpl foldl. fold (ingestAll arrivals (ingest t a pb)).
  rewrite IH by (rewrite (proj1 (ingest_listeners _ _ _)); exact Hn).
  apply ingest_socket_unlistened, Hn.
Qed.

(** A broadcast writes once to each listening connection. *)
Lemma emit_member a ls :
  forall pb sock,
    NoDup ls -> sock ∈ ls ->
    socketOf (foldl (fun pb s => writeAtom s a pb) pb ls) sock
    = socketWrite (MP4Atom.bytes a) (socketOf pb sock).
Proof.
  induction ls as [|s ls IH]; intros pb sock Hnd Hin.
  - inversion Hin.
  - apply NoDup_cons in Hnd as [Hs Hnd]. simpl.
    destruct (decide (sock = s)) as [->|Hne].
    + rewrite emit_others by exact Hs. apply socketOf_writeAtom.
    + apply elem_of_cons in Hin as [Heq|Hin]; [congruence|].
      rewrite IH by assumption. f_equal.
      apply socketOf_writeAtom_ne, Hne.
Qed.

Lemma ingest_socket_listening now a pb sock :
  NoDup (atomListeners pb) -> sock ∈ atomListeners pb ->
  socketOf (ingest now a pb) sock
  = socketWrite (MP4Atom.bytes a) (socketOf pb sock).
Proof.
  intros Hnd Hin. unfold ingest, emitAtom. cbn zeta.
  set (pb2 := setPrebufferFmp4 _ _).
  assert (Hl : atomListeners pb2 = atomListeners pb)
    by (unfold pb2, store; repeat case_match; reflexivity).
  assert (Hs : socketOf pb2 sock = socketOf pb sock)
    by (unfold pb2, store, socketOf; repeat case_match; reflexivity).
  rewrite Hl, emit_member by assumption. rewrite Hs. reflexivity.
Qed.

Lemma evict_suffix now l : evict now l `suffix_of` l.
Proof.
  induction l as [|p l IH]; simpl; [reflexivity|].
  destruct (time p <? now - DEFAULT_PREBUFFER_DURATION); [|reflexivity].
  apply suffix_cons_r, IH.
Qed.

Lemma store_captured now a pb f m :
  ftyp pb = Some f -> moov pb = Some m ->
  prebufferFmp4 (store now a pb) = prebufferFmp4 pb ++ [mkFmp4 a now].
Proof. intros Hf Hm. unfold store. rewrite Hf, Hm. reflexivity. Qed.

(** With both initialization atoms captured they stay as they are, and
    what is retained is a tail of what was retained followed by the
    arrivals, each stamped with its clock reading. *)
Lemma ingestAll_captured arrivals :
  forall pb f m,
    ftyp pb = Some f -> moov pb = Some m ->
    ftyp (ingestAll arrivals pb) = Some f
    /\ moov (ingestAll arrivals pb) = Some m
    /\ prebufferFmp4 (ingestAll arrivals pb)
         `suffix_of` prebufferFmp4 pb
                     ++ List.map (fun na => mkFmp4 (snd na) (fst na)) arrivals.
Proof.
  induction arrivals as [|[t a] arrivals IH]; intros pb f m Hf Hm.
  - simpl. rewrite app_nil_r. repeat split; assumption || reflexivity.
  - unfold ingestAll. simpl foldl. fold (ingestAll arrivals (ingest t a pb)).
    destruct (ingest_init t a pb) as [Hf' Hm']. rewrite Hf in Hf', Hm'.
    rewrite Hm in Hm'. simpl in Hf', Hm'.
    destruct (IH _ _ _ Hf' Hm') as (-> & -> & Hs).
    split; [reflexivity|]. split; [reflexivity|].
    etransitivity; [exact Hs|].
    rewrite prebufferFmp4_ingest, (store_captured _ _ _ _ _ Hf Hm).
    cbn [List.map fst snd].
    replace (prebufferFmp4 pb
             ++ mkFmp4 a t
                :: List.map (fun na => mkFmp4 (snd na) (fst na)) arrivals)
      with ((prebufferFmp4 pb ++ [mkFmp4 a t])
            ++ List.map (fun na => mkFmp4 (snd na) (fst na)) arrivals)
      by (rewrite <- app_assoc; reflexivity).
    apply suffix_app, evict_suffix.
Qed.

Lemma filter_fresh_stricter now now' window (l : list PrebufferFmp4) :
  now <= now' ->
  filter (fresh now' window) (filter (fresh now window) l)
  = filter (fresh now' window) l.
Proof.
  intros Hle. induction l as [|p l IH]; [reflexivity|].
  rewrite !filter_cons.
  destruct (decide (fresh now window p)) as [Hp|Hp].
  - rewrite filter_cons. destruct (decide (fresh now' window p));
      [f_equal|]; exact IH.
  - rewrite decide_False by (unfold fresh in *; lia). exact IH.
Qed.

(** On a sequence in arrival order, evicting from the head removes exactly
    the fragments out of the window. *)
Lemma evict_filter now l :
  timeOrdered l ->
  evict now l = filter (fresh now DEFAULT_PREBUFFER_DURATION) l.
Proof.
  unfold timeOrdered. induction 1 as [|p l Hl IH Hp]; [reflexivity|].
  simpl. rewrite filter_cons.
  destruct (time p <? now - DEFAULT_PREBUFFER_DURATION) eqn:E.
  - apply Z.ltb_lt in E. rewrite decide_False by (unfold fresh; lia). exact IH.
  - apply Z.ltb_ge in E. rewrite decide_True by (unfold fresh; lia).
    f_equal. symmetry. apply filter_fresh_all.
    eapply Forall_impl; [exact Hp|]. unfold fresh. simpl. intros q Hq. lia.
Qed.

Lemma last_cons_default (t t' : Z) times :
  List.last (t' :: times) t = List.last times t'.
Proof.
  revert t t'. induction times as [|t'' times IH]; intros t t'; [reflexivity|].
  change (List.last (t' :: t'' :: times) t) with (List.last (t'' :: times) t).
  rewrite (IH t t''), (IH t' t''). reflexivity.
Qed.

Lemma nondecreasing_last t times :
  nondecreasing (t :: times) = true -> t <= List.last times t.
Proof.
  revert t. induction times as [|t' times IH]; intros t H; [simpl; lia|].
  apply nondecreasing_cons in H as [Hle H].
  specialize (IH _ H). rewrite last_cons_default. lia.
Qed.

Lemma ingestAll_retained arrivals :
  forall pb f m latest,
    ftyp pb = Some f -> moov pb = Some m ->
    ingested latest pb ->
    Forall (fresh latest DEFAULT_PREBUFFER_DURATION) (prebufferFmp4 pb) ->
    nondecreasing (latest :: List.map fst arrivals) = true ->
    prebufferFmp4 (ingestAll arrivals pb)
    = filter (fresh (List.last (List.map fst arrivals) latest)
                    DEFAULT_PREBUFFER_DURATION)
        (prebufferFmp4 pb
         ++ List.map (fun na => mkFmp4 (snd na) (fst na)) arrivals).
Proof.
  induction arrivals as [|[t a] arrivals IH];
    intros pb f m latest Hf Hm Hinv Hfresh Hnd.
  - simpl. rewrite app_nil_r. symmetry. apply filter_fresh_all, Hfresh.
  - unfold ingestAll. simpl foldl. fold (ingestAll arrivals (ingest t a pb)).
    cbn [List.map fst snd] in *.
    apply nondecreasing_cons in Hnd as [Hle Hnd].
    destruct (ingest_init t a pb) as [Hf' Hm']. rewrite Hf in Hf', Hm'.
    rewrite Hm in Hm'. simpl in Hf', Hm'.
    assert (Hstored :
      prebufferFmp4 (ingest t a pb)
      = filter (fresh t DEFAULT_PREBUFFER_DURATION)
               (prebufferFmp4 pb ++ [mkFmp4 a t])).
    { rewrite prebufferFmp4_ingest, (store_captured _ _ _ _ _ Hf Hm).
      apply evict_filter. destruct Hinv as [Hord Hb].
      apply timeOrdered_snoc; [exact Hord|].
      eapply Forall_impl; [exact Hb|]. simpl. intros q Hq. lia. }
    rewrite (IH _ _ _ t Hf' Hm').
    + rewrite Hstored, last_cons_default.
      replace (prebufferFmp4 pb
               ++ mkFmp4 a t
                  :: List.map (fun na => mkFmp4 (snd na) (fst na)) arrivals)
        with ((prebufferFmp4 pb ++ [mkFmp4 a t])
              ++ List.map (fun na => mkFmp4 (snd na) (fst na)) arrivals)
        by (rewrite <- app_assoc; reflexivity).
      rewrite (filter_app _ (filter _ _)), (filter_app _ (_ ++ [_])).
      f_equal. apply filter_fresh_stricter, nondecreasing_last, Hnd.
    + eapply ingest_ingested; eassumption.
    + rewrite Hstored.
      apply list.Forall_forall. intros q Hq.
      apply list_elem_of_filter in Hq as [Hq _]. exact Hq.
    + exact Hnd.
Qed.

End PreBufferMore.

(** X5. The first atom the ingestion loop sees is kept as [ftyp] and the
    second as [moov], whatever their types, and no later atom replaces
    them; the fragments retained are always a tail of the atoms that
    arrived after these two, in arrival order, each stamped with the clock
    reading of its turn. *)
Theorem ingestAll_capture t1 a1 t2 a2 rest :
  let pb := PreBuffer.ingestAll ((t1, a1) :: (t2, a2) :: rest) PreBuffer.new in
  PreBuffer.ftyp pb = Some a1
  /\ PreBuffer.moov pb = Some a2
  /\ PreBuffer.prebufferFmp4 pb
       `suffix_of`
       List.map (fun na => PreBuffer.mkFmp4 (snd na) (fst na)) rest.
Proof.
  intros pb. unfold pb, PreBuffer.ingestAll. simpl foldl.
  fold (PreBuffer.ingestAll rest
          (PreBuffer.ingest t2 a2 (PreBuffer.ingest t1 a1 PreBuffer.new))).
  set (pb2 := PreBuffer.ingest t2 a2 (PreBuffer.ingest t1 a1 PreBuffer.new)).
  assert (H2 : PreBuffer.ftyp pb2 = Some a1 /\ PreBuffer.moov pb2 = Some a2
               /\ PreBuffer.prebufferFmp4 pb2 = []) by (repeat split).
  destruct H2 as (Hf & Hm & Hl).
  destruct (ingestAll_captured rest pb2 a1 a2 Hf Hm) as (-> & -> & Hs).
  rewrite Hl in Hs. repeat split. exact Hs.
Qed.

(** X6. Under a clock that never goes back no fragment of the window is
    lost: after any arrivals, what is retained is exactly the atoms that
    arrived after the two initialization atoms and were observed no more
    than 15000 ms before the last clock reading. *)
Theorem ingestAll_retains_window t1 a1 t2 a2 rest :
  nondecreasing (t1 :: t2 :: List.map fst rest) = true ->
  PreBuffer.prebufferFmp4
    (PreBuffer.ingestAll ((t1, a1) :: (t2, a2) :: rest) PreBuffer.new)
  = filter (fun p => List.last (List.map fst rest) t2 - 15000
                     <= PreBuffer.time p)
      (List.map (fun na => PreBuffer.mkFmp4 (snd na) (fst na)) rest).
Proof.
  intros Hnd. apply nondecreasing_cons in Hnd as [_ Hnd].
  unfold PreBuffer.ingestAll. simpl foldl.
  fold (PreBuffer.ingestAll rest
          (PreBuffer.ingest t2 a2 (PreBuffer.ingest t1 a1 PreBuffer.new))).
  set (pb2 := PreBuffer.ingest t2 a2 (PreBuffer.ingest t1 a1 PreBuffer.new)).
  rewrite (ingestAll_retained rest pb2 a1 a2 t2);
    [reflexivity | reflexivity | reflexivity
     | split; constructor | constructor | exact Hnd].
Qed.

Lemma ingestAll_retains_window_witness :
  let rest :=
    [(2000, boxOf "moof" []); (2001, boxOf "mdat" []);
     (17500, boxOf "moof" []); (17501, boxOf "mdat" [])] in
  nondecreasing (1000 :: 1001 :: List.map fst rest) = true
  /\ PreBuffer.prebufferFmp4
       (PreBuffer.ingestAll
          ((1000, boxOf "ftyp" []) :: (1001, boxOf "moov" []) :: rest)
          PreBuffer.new)
     = filter (fun p => List.last (List.map fst rest) 1001 - 15000
                        <= PreBuffer.time p)
         (List.map (fun na => PreBuffer.mkFmp4 (snd na) (fst na)) rest).
Proof.
  intros rest. split; [reflexivity|].
  apply (ingestAll_retains_window 1000 (boxOf "ftyp" []) 1001
           (boxOf "moov" []) rest).
  reflexivity.
Defined.

Section SubscribersMore.

Import PreBuffer.

Lemma socketWrite_open buf s :
  destroyed s = false ->
  socketWrite buf s = mkSocket (written s ++ [buf]) false (handlers s).
Proof. intros H. unfold socketWrite. rewrite H. reflexivity. Qed.

Lemma socketWrite_destroyed buf s :
  destroyed s = true -> socketWrite buf s = s.
Proof. intros H. unfold socketWrite. rewrite H. reflexivity. Qed.

Lemma socketOf_cleanup sock pb :
  socketOf (cleanup sock pb) sock
  = mkSocket (written (socketOf pb sock)) true false.
Proof. unfold socketOf at 1, cleanup. simpl. rewrite lookup_insert_eq. reflexivity. Qed.

Lemma socketOf_cleanup_ne sock k pb :
  sock <> k -> socketOf (cleanup k pb) sock = socketOf pb sock.
Proof.
  intros Hne. unfold socketOf, cleanup. simpl.
  rewrite lookup_insert_ne by congruence. reflexivity.
Qed.

(** Cleanups never write, and never reopen a destroyed connection. *)
Lemma cleanups_socket ks :
  forall pb sock,
    let pb' := foldl (fun pb k => cleanup k pb) pb ks in
    written (socketOf pb' sock) = written (socketOf pb sock)
    /\ (destroyed (socketOf pb sock) = true \/ sock ∈ ks ->
        destroyed (socketOf pb' sock) = true).
Proof.
  induction ks as [|k ks IH]; intros pb sock; simpl.
  - split; [reflexivity|]. intros [H|H]; [exact H|inversion H].
  - destruct (IH (cleanup k pb) sock) as [Hw Hd]. rewrite Hw.
    destruct (decide (sock = k)) as [->|Hne].
    + rewrite socketOf_cleanup in *. split; [reflexivity|].
      intros _. apply Hd. left. reflexivity.
    + rewrite socketOf_cleanup_ne in * by exact Hne. split; [reflexivity|].
      intros [H|H]; apply Hd; [left; exact H|right].
      apply elem_of_cons in H as [H|H]; [congruence|exact H].
Qed.

Lemma cleanups_unlisten ks :
  forall pb sock,
    sock ∈ ks ->
    sock ∉ atomListeners (foldl (fun pb k => cleanup k pb) pb ks).
Proof.
  induction ks as [|k ks IH]; intros pb sock Hin; [inversion Hin|].
  simpl. apply elem_of_cons in Hin as [->|Hin]; [|apply IH, Hin].
  intros H. apply atomListeners_cleanups in H. simpl in H.
  apply list_elem_of_filter in H as [H _]. apply H. reflexivity.
Qed.

End SubscribersMore.

(** X7. A connection that listens for atoms, once, and is not destroyed
    is written every atom the ingestion loop processes from then on --
    the two initialization atoms included when they arrive late --, each
    once, header and payload, in arrival order. *)
Theorem ingestAll_broadcast arrivals pb sock :
  NoDup (PreBuffer.atomListeners pb) ->
  sock ∈ PreBuffer.atomListeners pb ->
  PreBuffer.destroyed (PreBuffer.socketOf pb sock) = false ->
  PreBuffer.written
    (PreBuffer.socketOf (PreBuffer.ingestAll arrivals pb) sock)
  = PreBuffer.written (PreBuffer.socketOf pb sock)
    ++ List.map (fun na => MP4Atom.bytes (snd na)) arrivals.
Proof.
  revert pb. induction arrivals as [|[t a] arrivals IH]; intros pb Hnd Hin Hd.
  - simpl. rewrite app_nil_r. reflexivity.
  - unfold PreBuffer.ingestAll. simpl foldl.
    fold (PreBuffer.ingestAll arrivals (PreBuffer.ingest t a pb)).
    pose proof (ingest_socket_listening t a pb sock Hnd Hin) as Hs.
    rewrite socketWrite_open in Hs by exact Hd.
    rewrite IH.
    + rewrite Hs. simpl. rewrite <- app_assoc. reflexivity.
    + rewrite (proj1 (ingest_listeners _ _ _)). exact Hnd.
    + rewrite (proj1 (ingest_listeners _ _ _)). exact Hin.
    + rewrite Hs. reflexivity.
Qed.

Lemma ingestAll_broadcast_witness :
  let pb := PreBuffer.getVideo 4000 7%nat 1000 PreBuffer.new in
  let arrivals :=
    [(1001, boxOf "ftyp" []); (1002, boxOf "moov" []);
     (1003, boxOf "moof" [x01]%byte)] in
  NoDup (PreBuffer.atomListeners pb)
  /\ (7%nat ∈ PreBuffer.atomListeners pb)
  /\ PreBuffer.destroyed (PreBuffer.socketOf pb 7%nat) = false
  /\ PreBuffer.written
       (PreBuffer.socketOf (PreBuffer.ingestAll arrivals pb) 7%nat)
     = PreBuffer.written (PreBuffer.socketOf pb 7%nat)
       ++ List.map (fun na => MP4Atom.bytes (snd na)) arrivals.
Proof.
  intros pb arrivals.
  assert (H1 : NoDup (PreBuffer.atomListeners pb))
    by (apply NoDup_singleton).
  assert (H2 : 7%nat ∈ PreBuffer.atomListeners pb)
    by (apply list_elem_of_singleton; reflexivity).
  assert (H3 : PreBuffer.destroyed (PreBuffer.socketOf pb 7%nat) = false)
    by reflexivity.
  split; [exact H1|]. split; [exact H2|]. split; [exact H3|].
  apply (ingestAll_broadcast arrivals pb 7%nat H1 H2 H3).
Defined.

(** X8. [stop()] ends every subscription made so far: a connection whose
    [cleanup] waits for 'killed' is destroyed, no longer listens for
    atoms, keeps what it was written, and is written nothing of what the
    ingestion loop processes afterwards; no [cleanup] is left waiting,
    [released] is set, and a second [stop()] changes nothing. *)
Theorem stop_ends_subscriptions pb sock :
  sock ∈ PreBuffer.killedListeners pb ->
  let stopped := PreBuffer.stop pb in
  PreBuffer.destroyed (PreBuffer.socketOf stopped sock) = true
  /\ (sock ∉ PreBuffer.atomListeners stopped)
  /\ PreBuffer.killedListeners stopped = []
  /\ PreBuffer.released stopped = true
  /\ (forall arrivals,
        PreBuffer.written
          (PreBuffer.socketOf (PreBuffer.ingestAll arrivals stopped) sock)
        = PreBuffer.written (PreBuffer.socketOf pb sock))
  /\ PreBuffer.stop stopped = stopped.
Proof.
  intros Hin stopped.
  assert (Hs : forall s,
    PreBuffer.socketOf stopped s
    = PreBuffer.socketOf
        (foldl (fun pb k => PreBuffer.cleanup k pb) pb
               (PreBuffer.killedListeners pb)) s) by reflexivity.
  assert (Hl : sock ∉ PreBuffer.atomListeners stopped)
    by (apply cleanups_unlisten, Hin).
  destruct (cleanups_socket (PreBuffer.killedListeners pb) pb sock)
    as [Hw Hd].
  split; [rewrite Hs; apply Hd; right; exact Hin|].
  split; [exact Hl|]. split; [reflexivity|]. split; [reflexivity|].
  split; [|reflexivity].
  intros arrivals.
  rewrite ingestAll_socket_unlistened by exact Hl. rewrite Hs. exact Hw.
Qed.

Lemma stop_ends_subscriptions_witness :
  let pb :=
    PreBuffer.getVideo 4000 7%nat 2000
      (PreBuffer.ingestAll
         [(1000, boxOf "ftyp" []); (1001, boxOf "moov" [])] PreBuffer.new) in
  let stopped := PreBuffer.stop pb in
  (7%nat ∈ PreBuffer.killedListeners pb)
  /\ PreBuffer.destroyed (PreBuffer.socketOf stopped 7%nat) = true
  /\ (7%nat ∉ PreBuffer.atomListeners stopped)
  /\ PreBuffer.killedListeners stopped = []
  /\ PreBuffer.released stopped = true
  /\ (forall arrivals,
        PreBuffer.written
          (PreBuffer.socketOf (PreBuffer.ingestAll arrivals stopped) 7%nat)
        = PreBuffer.written (PreBuffer.socketOf pb 7%nat))
  /\ PreBuffer.stop stopped = stopped.
Proof.
  intros pb stopped.
  assert (H : 7%nat ∈ PreBuffer.killedListeners pb)
    by (apply list_elem_of_singleton; reflexivity).
  split; [exact H|]. apply (stop_ends_subscriptions pb 7%nat H).
Defined.

(** X9. When the connection of a subscriber closes or fails, its
    [cleanup] runs once: the connection no longer listens for atoms nor
    waits for 'killed', is written nothing of what the ingestion loop
    processes afterwards, and a further 'close' or 'error' event changes
    nothing. *)
Theorem socketClosed_ends_subscription pb sock :
  PreBuffer.handlers (PreBuffer.socketOf pb sock) = true ->
  let closed := PreBuffer.socketClosed sock pb in
  (sock ∉ PreBuffer.atomListeners closed)
  /\ (sock ∉ PreBuffer.killedListeners closed)
  /\ PreBuffer.destroyed (PreBuffer.socketOf closed sock) = true
  /\ (forall arrivals,
        PreBuffer.written
          (PreBuffer.socketOf (PreBuffer.ingestAll arrivals closed) sock)
        = PreBuffer.written (PreBuffer.socketOf pb sock))
  /\ PreBuffer.socketClosed sock closed = closed.
Proof.
  intros Hh closed.
  assert (Hc : closed = PreBuffer.cleanup sock pb)
    by (unfold closed, PreBuffer.socketClosed; rewrite Hh; reflexivity).
  assert (Hl : sock ∉ PreBuffer.atomListeners closed).
  { rewrite Hc. simpl. intros H.
    apply list_elem_of_filter in H as [H _]. apply H. reflexivity. }
  split; [exact Hl|]. split.
  { rewrite Hc. simpl. intros H.
    apply list_elem_of_filter in H as [H _]. apply H. reflexivity. }
  split; [rewrite Hc, socketOf_cleanup; reflexivity|].
  split.
  - intros arrivals. rewrite ingestAll_socket_unlistened by exact Hl.
    rewrite Hc, socketOf_cleanup. reflexivity.
  - unfold PreBuffer.socketClosed at 1.
    rewrite Hc at 1. rewrite socketOf_cleanup. reflexivity.
Qed.

Lemma socketClosed_ends_subscription_witness :
  let pb := PreBuffer.getVideo 4000 7%nat 1000 PreBuffer.new in
  let closed := PreBuffer.socketClosed 7%nat pb in
  PreBuffer.handlers (PreBuffer.socketOf pb 7%nat) = true
  /\ (7%nat ∉ PreBuffer.atomListeners closed)
  /\ (7%nat ∉ PreBuffer.killedListeners closed)
  /\ PreBuffer.destroyed (PreBuffer.socketOf closed 7%nat) = true
  /\ (forall arrivals,
        PreBuffer.written
          (PreBuffer.socketOf (PreBuffer.ingestAll arrivals closed) 7%nat)
        = PreBuffer.written (PreBuffer.socketOf pb 7%nat))
  /\ PreBuffer.socketClosed 7%nat closed = closed.
Proof.
  intros pb closed. split; [reflexivity|].
  apply (socketClosed_ends_subscription pb 7%nat). reflexivity.
Defined.

(** X31. The search for a 'moof' ends with the backlog: a connection
    accepted with both initialization atoms captured, while no retained
    fragment within the requested window is a 'moof', is written the two
    initialization atoms and nothing else, and then the very next atom
    the ingestion loop processes, whatever its type. *)
Theorem getVideo_next_atom_unchecked pb requestedPrebuffer sock now now' a
    ftyp moov :
  PreBuffer.ftyp pb = Some ftyp ->
  PreBuffer.moov pb = Some moov ->
  sock ∉ PreBuffer.atomListeners pb ->
  Forall (fun p => isType "moof" (PreBuffer.atom p) = false)
    (filter (fresh now requestedPrebuffer) (PreBuffer.prebufferFmp4 pb)) ->
  let attached := PreBuffer.getVideo requestedPrebuffer sock now pb in
  PreBuffer.written (PreBuffer.socketOf attached sock)
  = [MP4Atom.bytes ftyp; MP4Atom.bytes moov]
  /\ PreBuffer.written
       (PreBuffer.socketOf (PreBuffer.ingest now' a attached) sock)
     = [MP4Atom.bytes ftyp; MP4Atom.bytes moov; MP4Atom.bytes a].
Proof.
  intros Hf Hm Hn Hk attached.
  assert (Hw : PreBuffer.written (PreBuffer.socketOf attached sock)
               = [MP4Atom.bytes ftyp; MP4Atom.bytes moov]).
  { unfold attached.
    rewrite getVideo_written, Hf, Hm, (sendPrebuffered_none _ _ _ Hk).
    reflexivity. }
  split; [exact Hw|].
  rewrite (socketOf_ingest now' a attached sock (PreBuffer.atomListeners pb));
    [|apply atomListeners_getVideo|exact Hn].
  unfold PreBuffer.socketWrite. unfold attached at 1.
  rewrite getVideo_open. cbn [PreBuffer.written]. rewrite Hw. reflexivity.
Qed.

Lemma getVideo_next_atom_unchecked_witness :
  let ftyp := boxOf "ftyp" ["i"; "s"; "o"; "m"]%byte in
  let moov := boxOf "moov" [x01]%byte in
  let mdat := boxOf "mdat" [x03]%byte in
  let pb :=
    PreBuffer.ingestAll
      [(1000, ftyp); (1001, moov); (2000, boxOf "moof" [x02]%byte)]
      PreBuffer.new in
  PreBuffer.ftyp pb = Some ftyp
  /\ PreBuffer.moov pb = Some moov
  /\ (7%nat ∉ PreBuffer.atomListeners pb)
  /\ Forall (fun p => isType "moof" (PreBuffer.atom p) = false)
       (filter (fresh 6500 4000) (PreBuffer.prebufferFmp4 pb))
  /\ PreBuffer.written
       (PreBuffer.socketOf
          (PreBuffer.ingest 6501 mdat (PreBuffer.getVideo 4000 7%nat 6500 pb))
          7%nat)
     = [MP4Atom.bytes ftyp; MP4Atom.bytes moov; MP4Atom.bytes mdat].
Proof.
  intros ftyp moov mdat pb.
  assert (H1 : PreBuffer.ftyp pb = Some ftyp) by reflexivity.
  assert (H2 : PreBuffer.moov pb = Some moov) by reflexivity.
  assert (H3 : 7%nat ∉ PreBuffer.atomListeners pb) by (apply not_elem_of_nil).
  assert (H4 : Forall (fun p => isType "moof" (PreBuffer.atom p) = false)
                 (filter (fresh 6500 4000) (PreBuffer.prebufferFmp4 pb))).
  { change (PreBuffer.prebufferFmp4 pb)
      with [PreBuffer.mkFmp4 (boxOf "moof" [x02]%byte) 2000].
    rewrite filter_cons, decide_False by (unfold fresh; simpl; lia).
    constructor. }
  split; [exact H1|]. split; [exact H2|]. split; [exact H3|].
  split; [exact H4|].
  apply (getVideo_next_atom_unchecked pb 4000 7%nat 6500 6501 mdat ftyp moov
           H1 H2 H3 H4).
Defined.

(** ** The recording stream, continued *)

Lemma forward_all aborted fragments :
  forall i,
    (forall j, (i <= j)%nat -> aborted j = false) ->
    RecordingDelegate.forward aborted i fragments
    = List.map (fun f => RecordingDelegate.mkPacket f false) fragments.
Proof.
  induction fragments as [|f fragments IH]; intros i H; [reflexivity|].
  simpl. rewrite (H i) by lia. f_equal. apply IH. intros j Hj. apply H. lia.
Qed.

Lemma forward_until aborted k :
  forall i fragments,
    (forall j, (i <= j < i + k)%nat -> aborted j = false) ->
    aborted (i + k)%nat = true ->
    RecordingDelegate.forward aborted i fragments
    = List.map (fun f => RecordingDelegate.mkPacket f false) (take k fragments).
Proof.
  induction k as [|k IH]; intros i fragments Hbefore Hat.
  - rewrite Nat.add_0_r in Hat. destruct fragments; simpl; [reflexivity|].
    rewrite Hat. reflexivity.
  - destruct fragments as [|f fragments]; [reflexivity|].
    simpl. rewrite (Hbefore i) by lia. f_equal.
    apply IH; [intros j Hj; apply Hbefore; lia|].
    replace (S i + k)%nat with (i + S k)%nat by lia. exact Hat.
Qed.

Lemma ffmpegInput_without_source d port :
  RecordingDelegate.prebuffer (RecordingDelegate.videoConfig d) = false ->
  Js.words (Js.orString (RecordingDelegate.source (RecordingDelegate.videoConfig d)) "")
  = [] ->
  exists e, RecordingDelegate.ffmpegInput d port = inl e.
Proof.
  intros Hp Hw. unfold RecordingDelegate.ffmpegInput. rewrite Hp.
  destruct (RecordingDelegate.source (RecordingDelegate.videoConfig d))
    as [[|c s]|]; simpl in *; eauto.
  rewrite Hw. eauto.
Qed.

(** X10. A recording stream whose setup fails yields exactly one packet,
    the zero-length packet with [isLast] set, and starts nothing: with a
    recording configuration selected, that is the case when the prebuffer
    is off and the source is missing, empty or blank, whatever the
    transcoder would do, and when the input is settled but the spawn of
    the transcoder fails. *)
Theorem handleRecordingStreamRequest_setup_failure fmp4Port port aborted d host
    configuration :
  RecordingDelegate.currentRecordingConfiguration d = Some configuration ->
  (RecordingDelegate.prebuffer (RecordingDelegate.videoConfig d) = false ->
   Js.words
     (Js.orString (RecordingDelegate.source (RecordingDelegate.videoConfig d)) "")
   = [] ->
   forall transcoder,
     RecordingDelegate.handleRecordingStreamRequest fmp4Port port transcoder
       aborted d host
     = ([RecordingDelegate.mkPacket [] true], d, host))
  /\ (forall args,
        RecordingDelegate.ffmpegInput
          (fst (RecordingDelegate.startPreBuffer fmp4Port d host)) port
        = inr args ->
        fst (fst (RecordingDelegate.handleRecordingStreamRequest fmp4Port port
                    RecordingDelegate.SpawnFailed aborted d host))
        = [RecordingDelegate.mkPacket [] true]).
Proof.
  intros Hc. split.
  - intros Hp Hw transcoder.
    destruct (ffmpegInput_without_source d port Hp Hw) as [e He].
    unfold RecordingDelegate.handleRecordingStreamRequest,
      RecordingDelegate.startPreBuffer,
      RecordingDelegate.handleFragmentsRequests.
    rewrite Hc, Hp, He. reflexivity.
  - intros args Hin.
    unfold RecordingDelegate.handleRecordingStreamRequest. rewrite Hc.
    destruct (RecordingDelegate.startPreBuffer fmp4Port d host) as [d1 host1].
    simpl in Hin. unfold RecordingDelegate.handleFragmentsRequests.
    rewrite Hin. reflexivity.
Qed.

Lemma handleRecordingStreamRequest_setup_failure_witness :
  let d :=
    RecordingDelegate.updateRecordingConfiguration
      (Some (RecordingDelegate.mkConfiguration 2000 30))
      (RecordingDelegate.new
         (RecordingDelegate.mkVideoConfig (Some "   ") false None None)
         "ffmpeg") in
  RecordingDelegate.currentRecordingConfiguration d
  = Some (RecordingDelegate.mkConfiguration 2000 30)
  /\ RecordingDelegate.handleRecordingStreamRequest 10000 10001
       (RecordingDelegate.Spawned (Some []) false) (fun _ => false) d []
     = ([RecordingDelegate.mkPacket [] true], d, []).
Proof.
  intros d. split; [reflexivity|].
  apply (handleRecordingStreamRequest_setup_failure 10000 10001
           (fun _ => false) d [] (RecordingDelegate.mkConfiguration 2000 30)
           eq_refl); reflexivity.
Defined.

(** X11. Once the input is settled and the transcoder runs, the packets
    of a recording stream are the fragments of [handleFragmentsRequests]
    in order, each with [isLast] false: all of them when the stream is
    never aborted, and exactly the first [k] when the abort signal is
    first seen set at the fragment of rank [k]. *)
Theorem handleRecordingStreamRequest_abort fmp4Port port stdout killed aborted
    d host configuration args :
  RecordingDelegate.currentRecordingConfiguration d = Some configuration ->
  RecordingDelegate.ffmpegInput
    (fst (RecordingDelegate.startPreBuffer fmp4Port d host)) port = inr args ->
  let fragments :=
    RecordingDelegate.compose [] true None
      (yielded (RecordingDelegate.generator killed stdout)) in
  let packets :=
    fst (fst (RecordingDelegate.handleRecordingStreamRequest fmp4Port port
                (RecordingDelegate.Spawned stdout killed) aborted d host)) in
  ((forall j, aborted j = false) ->
   packets
   = List.map (fun f => RecordingDelegate.mkPacket f false) fragments)
  /\ (forall k,
        (forall j, (j < k)%nat -> aborted j = false) ->
        aborted k = true ->
        packets
        = List.map (fun f => RecordingDelegate.mkPacket f false)
            (take k fragments)).
Proof.
  intros Hc Hin fragments packets.
  assert (Hp : packets = RecordingDelegate.forward aborted 0 fragments).
  { unfold packets, RecordingDelegate.handleRecordingStreamRequest.
    rewrite Hc.
    destruct (RecordingDelegate.startPreBuffer fmp4Port d host) as [d1 host1].
    simpl in Hin.
    rewrite (handleFragmentsRequests_yielded _ _ _ _ _ Hin). reflexivity. }
  rewrite Hp. split.
  - intros H. apply forward_all. intros j _. apply H.
  - intros k Hbefore Hat. apply forward_until.
    + intros j Hj. apply Hbefore. lia.
    + exact Hat.
Qed.

Lemma handleRecordingStreamRequest_abort_witness :
  let d :=
    RecordingDelegate.updateRecordingConfiguration
      (Some (RecordingDelegate.mkConfiguration 2000 30))
      (RecordingDelegate.new
         (RecordingDelegate.mkVideoConfig (Some "-i rtsp://camera/stream")
            false None None) "ffmpeg") in
  let stdout :=
    List.concat
      (List.map MP4Atom.bytes
         [boxOf "ftyp" []; boxOf "moov" []; boxOf "moof" [x01]%byte;
          boxOf "mdat" [x02]%byte; boxOf "moof" [x03]%byte;
          boxOf "mdat" [x04]%byte]) in
  let aborted := fun j => (2 <=? j)%nat in
  RecordingDelegate.currentRecordingConfiguration d
  = Some (RecordingDelegate.mkConfiguration 2000 30)
  /\ fst (fst (RecordingDelegate.handleRecordingStreamRequest 10000 10001
                 (RecordingDelegate.Spawned (Some stdout) false) aborted d []))
     = List.map (fun f => RecordingDelegate.mkPacket f false)
         (take 2
            (RecordingDelegate.compose [] true None
               (yielded (RecordingDelegate.generator false (Some stdout))))).
Proof.
  intros d stdout aborted. split; [reflexivity|].
  apply (handleRecordingStreamRequest_abort 10000 10001 (Some stdout) false
           aborted d [] (RecordingDelegate.mkConfiguration 2000 30)
           ["-i"; "rtsp://camera/stream"] eq_refl eq_refl).
  - intros j Hj. unfold aborted. apply Nat.leb_gt. exact Hj.
  - reflexivity.
Defined.

(** ** Resolution negotiation, continued *)

(** X12. In every resolution mode, for live streams and snapshots alike,
    the resolved dimensions stay within the HomeKit limits, whatever
    maxima and custom dimensions are configured. *)
Theorem determineResolution_within_homekit HOMEKIT_MAX_WIDTH HOMEKIT_MAX_HEIGHT
    videoConfig request isSnapshot :
  StreamingDelegate.ResolutionInfo.width
    (StreamingDelegate.determineResolution HOMEKIT_MAX_WIDTH HOMEKIT_MAX_HEIGHT
       videoConfig request isSnapshot)
  <= HOMEKIT_MAX_WIDTH
  /\ StreamingDelegate.ResolutionInfo.height
       (StreamingDelegate.determineResolution HOMEKIT_MAX_WIDTH
          HOMEKIT_MAX_HEIGHT videoConfig request isSnapshot)
     <= HOMEKIT_MAX_HEIGHT.
Proof.
  rewrite determineResolution_min. cbn zeta.
  cbn [StreamingDelegate.ResolutionInfo.width
       StreamingDelegate.ResolutionInfo.height].
  unfold StreamingDelegate.effectiveMaxWidth,
    StreamingDelegate.effectiveMaxHeight. lia.
Qed.

(** X13. In 'force-max' mode a live-stream request resolves to the
    maxima whatever dimensions were asked for, smaller ones included. *)
Theorem determineResolution_force_max HOMEKIT_MAX_WIDTH HOMEKIT_MAX_HEIGHT
    videoConfig request :
  StreamingDelegate.resolutionMode videoConfig = Some "force-max" ->
  StreamingDelegate.ResolutionInfo.width
    (StreamingDelegate.determineResolution HOMEKIT_MAX_WIDTH HOMEKIT_MAX_HEIGHT
       videoConfig request false)
  = StreamingDelegate.effectiveMaxWidth HOMEKIT_MAX_WIDTH videoConfig
  /\ StreamingDelegate.ResolutionInfo.height
       (StreamingDelegate.determineResolution HOMEKIT_MAX_WIDTH
          HOMEKIT_MAX_HEIGHT videoConfig request false)
     = StreamingDelegate.effectiveMaxHeight HOMEKIT_MAX_HEIGHT videoConfig.
Proof.
  intros Hm. rewrite determineResolution_min. cbn zeta.
  cbn [StreamingDelegate.ResolutionInfo.width
       StreamingDelegate.ResolutionInfo.height].
  unfold StreamingDelegate.requestedAfterMode. rewrite Hm. simpl. lia.
Qed.

Lemma determineResolution_force_max_witness :
  let videoConfig :=
    StreamingDelegate.mkVideoConfig (Some 1280) (Some 720) (Some "force-max")
      None None None false false None in
  StreamingDelegate.resolutionMode videoConfig = Some "force-max"
  /\ StreamingDelegate.ResolutionInfo.width
       (StreamingDelegate.determineResolution 1920 1080 videoConfig
          (StreamingDelegate.mkRequest 320 240) false)
     = StreamingDelegate.effectiveMaxWidth 1920 videoConfig
  /\ StreamingDelegate.ResolutionInfo.height
       (StreamingDelegate.determineResolution 1920 1080 videoConfig
          (StreamingDelegate.mkRequest 320 240) false)
     = StreamingDelegate.effectiveMaxHeight 1080 videoConfig.
Proof.
  intros videoConfig. split; [reflexivity|].
  apply (determineResolution_force_max 1920 1080 videoConfig
           (StreamingDelegate.mkRequest 320 240)).
  reflexivity.
Defined.

(** X14. 'force-custom' with a custom dimension missing or zero falls
    back to the caller's request: a live-stream request resolves exactly
    as it does with no resolution mode configured. *)
Theorem determineResolution_force_custom_unset HOMEKIT_MAX_WIDTH
    HOMEKIT_MAX_HEIGHT videoConfig request :
  StreamingDelegate.resolutionMode videoConfig = Some "force-custom" ->
  Js.truthyNumber (StreamingDelegate.customWidth videoConfig)
  && Js.truthyNumber (StreamingDelegate.customHeight videoConfig) = false ->
  StreamingDelegate.determineResolution HOMEKIT_MAX_WIDTH HOMEKIT_MAX_HEIGHT
    videoConfig request false
  = StreamingDelegate.determineResolution HOMEKIT_MAX_WIDTH HOMEKIT_MAX_HEIGHT
      (StreamingDelegate.mkVideoConfig
         (StreamingDelegate.maxWidth videoConfig)
         (StreamingDelegate.maxHeight videoConfig)
         None
         (StreamingDelegate.customWidth videoConfig)
         (StreamingDelegate.customHeight videoConfig)
         (StreamingDelegate.encoder videoConfig)
         (StreamingDelegate.hflip videoConfig)
         (StreamingDelegate.vflip videoConfig)
         (StreamingDelegate.videoFilter videoConfig))
      request false.
Proof.
  intros Hm Hc. rewrite !determineResolution_min.
  unfold StreamingDelegate.requestedAfterMode. rewrite Hm, Hc. reflexivity.
Qed.

Lemma determineResolution_force_custom_unset_witness :
  let videoConfig :=
    StreamingDelegate.mkVideoConfig (Some 1920) (Some 1080)
      (Some "force-custom") (Some 1280) None (Some "vaapi") false false None in
  let request := StreamingDelegate.mkRequest 2560 1440 in
  StreamingDelegate.resolutionMode videoConfig = Some "force-custom"
  /\ Js.truthyNumber (StreamingDelegate.customWidth videoConfig)
     && Js.truthyNumber (StreamingDelegate.customHeight videoConfig) = false
  /\ StreamingDelegate.determineResolution 1920 1080 videoConfig request false
     = StreamingDelegate.determineResolution 1920 1080
         (StreamingDelegate.mkVideoConfig (Some 1920) (Some 1080) None
            (Some 1280) None (Some "vaapi") false false None)
         request false.
Proof.
  intros videoConfig request. split; [reflexivity|]. split; [reflexivity|].
  apply (determineResolution_force_custom_unset 1920 1080 videoConfig request);
    reflexivity.
Defined.

(** X15. A snapshot never takes a hardware path: its result, filter chain
    included, is the same whatever encoder is configured, and it is the
    result a live stream gets with the software encoder and no resolution
    mode. *)
Theorem determineResolution_snapshot_software HOMEKIT_MAX_WIDTH
    HOMEKIT_MAX_HEIGHT videoConfig request :
  let withEncoder mode encoder :=
    StreamingDelegate.mkVideoConfig
      (StreamingDelegate.maxWidth videoConfig)
      (StreamingDelegate.maxHeight videoConfig)
      mode
      (StreamingDelegate.customWidth videoConfig)
      (StreamingDelegate.customHeight videoConfig)
      encoder
      (StreamingDelegate.hflip videoConfig)
      (StreamingDelegate.vflip videoConfig)
      (StreamingDelegate.videoFilter videoConfig) in
  (forall encoder,
     StreamingDelegate.determineResolution HOMEKIT_MAX_WIDTH HOMEKIT_MAX_HEIGHT
       (withEncoder (StreamingDelegate.resolutionMode videoConfig) encoder)
       request true
     = StreamingDelegate.determineResolution HOMEKIT_MAX_WIDTH
         HOMEKIT_MAX_HEIGHT videoConfig request true)
  /\ StreamingDelegate.determineResolution HOMEKIT_MAX_WIDTH HOMEKIT_MAX_HEIGHT
       videoConfig request true
     = StreamingDelegate.determineResolution HOMEKIT_MAX_WIDTH
         HOMEKIT_MAX_HEIGHT (withEncoder None (Some "software")) request false.
Proof.
  intros withEncoder. split.
  - intros encoder. rewrite !determineResolution_min. cbn zeta.
    unfold StreamingDelegate.filterChain. cbn.
    rewrite !andb_false_r. reflexivity.
  - rewrite !determineResolution_min. cbn zeta.
    unfold StreamingDelegate.filterChain. cbn.
    rewrite !andb_false_r. reflexivity.
Qed.

(** ** The event stream, continued *)

Section EventStreamMore.

Import DahuaEvents.

Lemma span_accepts f s :
  Forall (fun c => f c = true) (list_ascii_of_string (fst (span f s))).
Proof.
  induction s as [|c s IH]; simpl; [constructor|].
  destruct (f c) eqn:E; [|constructor].
  destruct (span f s) as [run rest]. simpl in *. constructor; assumption.
Qed.

Lemma matchAt_digits s g1 g2 g3 rest :
  matchAt s = Some (g1, g2, g3, rest) ->
  Forall (fun c => isDigit c = true) (list_ascii_of_string g3).
Proof.
  unfold matchAt.
  destruct (stripPrefix "Code=" s) as [s1|]; [|discriminate].
  destruct (span notSemicolon s1) as [r1 s2].
  destruct (negb (nonEmpty r1)); [discriminate|].
  destruct (stripPrefix ";action=" s2) as [s3|]; [|discriminate].
  destruct (span notSemicolon s3) as [r2 s4].
  destruct (negb (nonEmpty r2)); [discriminate|].
  destruct (stripPrefix ";index=" s4) as [s5|]; [|discriminate].
  pose proof (span_accepts isDigit s5) as H.
  destruct (span isDigit s5) as [r3 s6].
  destruct (negb (nonEmpty r3)); [discriminate|].
  intros [= _ _ <- _]. exact H.
Qed.

Lemma execAll_digits fuel :
  forall s,
    Forall (fun m : string * string * string =>
              Forall (fun c => isDigit c = true)
                     (list_ascii_of_string (snd m)))
           (execAll fuel s).
Proof.
  induction fuel as [|fuel IH]; intros s; simpl; [constructor|].
  destruct (matchAt s) as [[[[g1 g2] g3] rest]|] eqn:E.
  - constructor; [|apply IH]. simpl. eapply matchAt_digits, E.
  - destruct s; [constructor|apply IH].
Qed.

Lemma parseInt_fold_nonneg cs :
  Forall (fun c => isDigit c = true) cs ->
  forall acc,
    0 <= acc ->
    0 <= fold_left
           (fun acc c => 10 * acc + (Z.of_nat (nat_of_ascii c) - 48)) cs acc.
Proof.
  induction 1 as [|c cs Hc _ IH]; intros acc Hacc; [exact Hacc|].
  simpl. apply IH. unfold isDigit in Hc.
  apply andb_true_iff in Hc as [Hc _]. apply Nat.leb_le in Hc. lia.
Qed.

Lemma parseInt_nonneg digits :
  Forall (fun c => isDigit c = true) (list_ascii_of_string digits) ->
  0 <= parseInt digits.
Proof. intros H. apply parseInt_fold_nonneg; [exact H|lia]. Qed.

End EventStreamMore.

(** X16. Whatever text has been received, every event handed to the
    listeners has one of the four motion types and a channel of at least
    1, the index of the record plus one; and [handleChunk] only ever calls
    a callback registered for the channel of the event it passes. *)
Theorem handleChunk_dispatch_sound chunk ev :
  let '(_, events, calls) := DahuaEvents.handleChunk chunk ev in
  Forall (fun e => 1 <= DahuaEvents.channel e
                   /\ In (DahuaEvents.eventType e) DahuaEvents.dahuaMotionEvents)
         events
  /\ Forall (fun call =>
               In (DahuaEvents.arguments call) events
               /\ DahuaEvents.callback call
                  ∈ default []
                      (DahuaEvents.listeners ev
                         !! DahuaEvents.channel (DahuaEvents.arguments call)))
       calls.
Proof.
  unfold DahuaEvents.handleChunk. cbn zeta.
  set (buffer := String.append (DahuaEvents.buffer ev) chunk).
  split.
  - unfold DahuaEvents.dispatched.
    pose proof (execAll_digits (S (String.length buffer)) buffer) as H.
    induction H as [|[[ty action] digits] ms Hd _ IH]; [constructor|].
    simpl. unfold DahuaEvents.parseEvent at 1.
    destruct (existsb (String.eqb ty) DahuaEvents.dahuaMotionEvents) eqn:E;
      simpl; [|exact IH].
    constructor; [|exact IH]. simpl. split.
    + simpl in Hd. apply parseInt_nonneg in Hd. lia.
    + apply existsb_exists in E as (x & Hx & Heq).
      apply String.eqb_eq in Heq. subst. exact Hx.
  - generalize (DahuaEvents.dispatched buffer) as events. intros events.
    apply list.Forall_forall. intros call Hcall.
    apply list_elem_of_In, in_concat in Hcall as (cs & Hcs & Hin).
    apply in_map_iff in Hcs as (e & <- & He).
    unfold DahuaEvents.notifyListeners in Hin.
    destruct (DahuaEvents.listeners ev !! DahuaEvents.channel e)
      as [callbacks|] eqn:El; [|inversion Hin].
    apply in_map_iff in Hin as (cb & <- & Hcb). simpl.
    split; [exact He|]. rewrite El. simpl. apply list_elem_of_In, Hcb.
Qed.

Section Registry.

Import DahuaEvents.

Lemma removeFirst_snoc cb callbacks :
  cb ∉ callbacks -> removeFirst cb (callbacks ++ [cb]) = callbacks.
Proof.
  induction callbacks as [|c callbacks IH]; intros Hn; simpl.
  - rewrite Nat.eqb_refl. reflexivity.
  - apply not_elem_of_cons in Hn as [Hne Hn].
    destruct (c =? cb)%nat eqn:E; [apply Nat.eqb_eq in E; congruence|].
    f_equal. apply IH, Hn.
Qed.

End Registry.

(** X17. Registration keeps the order and the channels apart, and
    [offMotion] undoes [onMotion]: after [onMotion(channelId, cb)] an
    event of that channel calls the callbacks registered before, in their
    order, then [cb]; events of other channels call what they called
    before; and when [cb] was not registered for the channel,
    [offMotion(channelId, cb)] afterwards restores the calls of every
    event. *)
Theorem onMotion_offMotion channelId cb ev e :
  let registered := DahuaEvents.onMotion channelId cb ev in
  (DahuaEvents.channel e = channelId ->
   DahuaEvents.notifyListeners (DahuaEvents.listeners registered) e
   = DahuaEvents.notifyListeners (DahuaEvents.listeners ev) e
     ++ [DahuaEvents.mkCall cb e])
  /\ (DahuaEvents.channel e <> channelId ->
      DahuaEvents.notifyListeners (DahuaEvents.listeners registered) e
      = DahuaEvents.notifyListeners (DahuaEvents.listeners ev) e)
  /\ (cb ∉ default [] (DahuaEvents.listeners ev !! channelId) ->
      DahuaEvents.notifyListeners
        (DahuaEvents.listeners (DahuaEvents.offMotion channelId cb registered)) e
      = DahuaEvents.notifyListeners (DahuaEvents.listeners ev) e).
Proof.
  intros registered. unfold registered, DahuaEvents.onMotion,
    DahuaEvents.offMotion, DahuaEvents.notifyListeners.
  cbn [DahuaEvents.listeners DahuaEvents.buffer DahuaEvents.debug].
  split; [|split].
  - intros <-. rewrite lookup_insert_eq.
    destruct (DahuaEvents.listeners ev !! DahuaEvents.channel e); simpl;
      [rewrite List.map_app|]; reflexivity.
  - intros Hne. rewrite lookup_insert_ne by congruence. reflexivity.
  - intros Hn. rewrite lookup_insert_eq.
    cbn [DahuaEvents.listeners]. rewrite removeFirst_snoc by exact Hn.
    destruct (decide (DahuaEvents.channel e = channelId)) as [<-|Hne].
    + rewrite lookup_insert_eq.
      destruct (DahuaEvents.listeners ev !! DahuaEvents.channel e);
        reflexivity.
    + rewrite !lookup_insert_ne by congruence. reflexivity.
Qed.


Lemma onMotion_offMotion_witness :
  let ev := DahuaEvents.onMotion 5 1%nat (DahuaEvents.new false) in
  let e := DahuaEvents.mkEvent 5 "VideoMotion" true in
  DahuaEvents.channel e = 5
  /\ (2%nat ∉ default [] (DahuaEvents.listeners ev !! 5))
  /\ DahuaEvents.notifyListeners
       (DahuaEvents.listeners (DahuaEvents.onMotion 5 2%nat ev)) e
     = DahuaEvents.notifyListeners (DahuaEvents.listeners ev) e
       ++ [DahuaEvents.mkCall 2%nat e]
  /\ DahuaEvents.notifyListeners
       (DahuaEvents.listeners
          (DahuaEvents.offMotion 5 2%nat (DahuaEvents.onMotion 5 2%nat ev))) e
     = DahuaEvents.notifyListeners (DahuaEvents.listeners ev) e.
Proof.
  intros ev e.
  assert (H1 : DahuaEvents.channel e = 5) by reflexivity.
  assert (H2 : 2%nat ∉ default [] (DahuaEvents.listeners ev !! 5)).
  { unfold ev, DahuaEvents.onMotion. cbn [DahuaEvents.listeners].
    rewrite lookup_insert_eq. simpl. intros H.
    apply list_elem_of_singleton in H. discriminate. }
  destruct (onMotion_offMotion 5 2%nat ev e) as (Ha & _ & Hc).
  split; [exact H1|]. split; [exact H2|].
  split; [exact (Ha H1)|exact (Hc H2)].
Defined.

(** ** Listening on a random port *)

Section ListenServerFacts.

Import ListenServer.

Lemma round_random (r : Q) :
  (0 <= r)%Q -> (r < 1)%Q -> 0 <= round (r * 30000) <= 30000.
Proof.
  intros H0 H1. unfold round. split.
  - change 0 with (Qfloor 0). apply Qfloor_resp_le.
    apply Qle_trans with (r * 30000)%Q.
    + apply Qmult_le_0_compat; [exact H0|discriminate].
    + rewrite <- (Qplus_0_r (r * 30000)) at 1. apply Qplus_le_r. discriminate.
  - change 30000 with (Qfloor (30000 + (1 # 2))). apply Qfloor_resp_le.
    apply Qplus_le_l.
    apply Qle_trans with (1 * 30000)%Q; [|discriminate].
    apply Qmult_le_compat_r; [apply Qlt_le_weak; exact H1|discriminate].
Qed.

Lemma listenServer_retries failures turn rest :
  Forall (fun t => outcome t = Failed) failures ->
  outcome turn <> Failed ->
  List.length (fst (listenServer (failures ++ turn :: rest)))
  = S (List.length failures)
  /\ snd (listenServer (failures ++ turn :: rest))
     = match outcome turn with
       | Listening (Some addressPort) => Some addressPort
       | _ => Some 0
       end.
Proof.
  intros Hf Hl. induction Hf as [|t failures Ht _ IH]; simpl.
  - destruct (outcome turn) as [[p|]|]; [split; reflexivity ..|congruence].
  - rewrite Ht. destruct (listenServer (failures ++ turn :: rest)) as [ports r].
    simpl in *. destruct IH as [-> ->]. split; reflexivity.
Qed.

Lemma listenServer_failing turns :
  Forall (fun t => outcome t = Failed) turns ->
  List.length (fst (listenServer turns)) = List.length turns
  /\ snd (listenServer turns) = None.
Proof.
  induction 1 as [|t turns Ht _ IH]; simpl; [split; reflexivity|].
  rewrite Ht. destruct (listenServer turns) as [ports r]. simpl in *.
  destruct IH as [-> ->]. split; reflexivity.
Qed.

End ListenServerFacts.

(** X18. [listenServer] only ever asks for ports from 10000 to 40000.  A
    failed [listen] is retried with a new port; the first [listen] that
    succeeds ends the loop, and the result is the port of the address of
    the server, or 0 when the server has no such address; while every
    [listen] fails nothing is returned. *)
Theorem listenServer_ports turns :
  Forall (fun turn => (0 <= ListenServer.random turn)%Q
                      /\ (ListenServer.random turn < 1)%Q) turns ->
  Forall (fun port => 10000 <= port <= 40000)
    (fst (ListenServer.listenServer turns))
  /\ (forall failures turn rest,
        turns = failures ++ turn :: rest ->
        Forall (fun t => ListenServer.outcome t = ListenServer.Failed)
          failures ->
        ListenServer.outcome turn <> ListenServer.Failed ->
        List.length (fst (ListenServer.listenServer turns))
        = S (List.length failures)
        /\ snd (ListenServer.listenServer turns)
           = match ListenServer.outcome turn with
             | ListenServer.Listening (Some addressPort) => Some addressPort
             | _ => Some 0
             end)
  /\ (Forall (fun t => ListenServer.outcome t = ListenServer.Failed) turns ->
      List.length (fst (ListenServer.listenServer turns)) = List.length turns
      /\ snd (ListenServer.listenServer turns) = None).
Proof.
  intros Hr. split; [|split].
  - induction Hr as [|t turns [H0 H1] _ IH]; simpl; [constructor|].
    pose proof (round_random _ H0 H1) as Hp.
    destruct (ListenServer.outcome t) as [[p|]|].
    + repeat constructor; lia.
    + repeat constructor; lia.
    + destruct (ListenServer.listenServer turns) as [ports r]. simpl in *.
      constructor; [lia|exact IH].
  - intros failures turn rest -> Hf Hl. apply listenServer_retries; assumption.
  - apply listenServer_failing.
Qed.

Lemma listenServer_ports_witness :
  let turns :=
    [ListenServer.mkTurn (1 # 3) ListenServer.Failed;
     ListenServer.mkTurn (999 # 1000)
       (ListenServer.Listening (Some 39970));
     ListenServer.mkTurn 0 ListenServer.Failed] in
  Forall (fun turn => (0 <= ListenServer.random turn)%Q
                      /\ (ListenServer.random turn < 1)%Q) turns
  /\ Forall (fun port => 10000 <= port <= 40000)
       (fst (ListenServer.listenServer turns))
  /\ ListenServer.listenServer turns = ([20000; 39970], Some 39970).
Proof.
  intros turns.
  assert (H : Forall (fun turn => (0 <= ListenServer.random turn)%Q
                                  /\ (ListenServer.random turn < 1)%Q) turns)
    by (repeat constructor; discriminate).
  split; [exact H|]. split; [|reflexivity].
  apply (listenServer_ports turns H).
Defined.

(** ** Recording streams and their subprocesses *)

Section RecordingStreamsFacts.

Import RecordingStreams.

Lemma settled_alter_kill signal cp cp' processes :
  settled processes cp ->
  settled (alter (ChildProcess.kill signal) cp' processes) cp.
Proof.
  unfold settled. destruct (decide (cp' = cp)) as [->|Hne].
  - rewrite lookup_alter_eq. destruct (processes !! cp) as [p|]; simpl; [|auto].
    unfold ChildProcess.kill.
    destruct (ChildProcess.handle p) eqn:E; simpl; auto.
  - rewrite lookup_alter_ne by exact Hne. auto.
Qed.

Lemma settled_kill signal cp processes :
  settled (alter (ChildProcess.kill signal) cp processes) cp.
Proof.
  unfold settled. rewrite lookup_alter_eq.
  destruct (processes !! cp) as [p|]; simpl; [|auto].
  unfold ChildProcess.kill.
  destruct (ChildProcess.handle p) eqn:E; simpl; auto.
Qed.

Lemma settled_killedOf cp processes :
  killedOf processes cp = true -> settled processes cp.
Proof.
  unfold killedOf, settled. destruct (processes !! cp); [auto|discriminate].
Qed.

Lemma settled_unless_killed signal cp cp' processes :
  settled processes cp ->
  settled (if negb (killedOf processes cp')
           then alter (ChildProcess.kill signal) cp' processes
           else processes) cp.
Proof.
  intros H. destruct (negb _); [apply settled_alter_kill|]; exact H.
Qed.

Lemma settled_kill_unless_killed signal cp processes :
  settled (if negb (killedOf processes cp)
           then alter (ChildProcess.kill signal) cp processes
           else processes) cp.
Proof.
  destruct (killedOf processes cp) eqn:E; simpl;
    [apply settled_killedOf, E|apply settled_kill].
Qed.

Lemma settled_alter_exited cp cp' processes :
  settled processes cp ->
  settled (alter ChildProcess.exited cp' processes) cp.
Proof.
  unfold settled. destruct (decide (cp' = cp)) as [->|Hne].
  - rewrite lookup_alter_eq. destruct (processes !! cp) as [p|]; simpl; auto.
  - rewrite lookup_alter_ne by exact Hne. auto.
Qed.

Lemma settled_sweep cp (entries : list (Z * nat)) :
  forall processes,
    settled processes cp ->
    settled
      (foldl
         (fun processes (entry : Z * nat) =>
            if negb (killedOf processes (snd entry))
            then alter (ChildProcess.kill ChildProcess.SIGTERM) (snd entry)
                   processes
            else processes)
         processes entries) cp.
Proof.
  induction entries as [|entry entries IH]; intros processes H; simpl;
    [exact H|].
  apply IH, settled_unless_killed, H.
Qed.

Lemma settled_swept cp (entries : list (Z * nat)) :
  forall processes,
    cp ∈ map snd entries ->
    settled
      (foldl
         (fun processes (entry : Z * nat) =>
            if negb (killedOf processes (snd entry))
            then alter (ChildProcess.kill ChildProcess.SIGTERM) (snd entry)
                   processes
            else processes)
         processes entries) cp.
Proof.
  induction entries as [|entry entries IH]; intros processes H; simpl in *.
  - inversion H.
  - apply elem_of_cons in H as [->|H]; [|apply IH, H].
    apply settled_sweep, settled_kill_unless_killed.
Qed.

(** Every step but the spawn of the subprocess itself keeps a settled
    subprocess settled. *)
Lemma step_settled op d cp :
  (forall spawns, op <> StartSession cp spawns) ->
  settled (processes d) cp ->
  settled (processes (step d op)) cp.
Proof.
  intros Hop H. destruct op; simpl; try exact H.
  - destruct (decide (cp0 = cp)) as [->|Hne]; [destruct (Hop spawns eq_refl)|].
    unfold settled. rewrite lookup_insert_ne by exact Hne.
    fold (settled
            (match process d with
             | Some previous =>
                 if negb (killedOf (processes d) previous)
                 then alter (ChildProcess.kill ChildProcess.SIGKILL) previous
                        (processes d)
                 else processes d
             | None => processes d
             end) cp).
    destruct (process d); [apply settled_unless_killed|]; exact H.
  - apply settled_unless_killed, H.
  - apply settled_unless_killed, H.
  - unfold closeRecordingStream.
    destruct (streamAbortControllers d !! streamId); simpl;
      destruct (activeFFmpegProcesses d !! streamId); simpl; try exact H;
      destruct (negb _); simpl; try exact H; apply settled_alter_kill, H.
  - unfold shutdown. destruct (preBufferSession d); simpl;
      apply settled_sweep; [apply settled_alter_kill|]; exact H.
  - apply settled_alter_exited, H.
Qed.

Lemma run_settled ops :
  forall d cp,
    cp ∉ started ops ->
    settled (processes d) cp ->
    settled (processes (run ops d)) cp.
Proof.
  induction ops as [|op ops IH]; intros d cp Hn H; [exact H|].
  simpl. apply IH.
  - intros Hin. apply Hn. unfold started in *. simpl.
    destruct op; try exact Hin. right. exact Hin.
  - apply step_settled; [|exact H].
    intros spawns ->. apply Hn. unfold started. simpl. left.
Qed.

Lemma step_known op d cp :
  is_Some (processes d !! cp) -> is_Some (processes (step d op) !! cp).
Proof.
  assert (Hk : forall signal cp' (processes : gmap nat ChildProcess.t),
             is_Some (processes !! cp) ->
             is_Some ((if negb (killedOf processes cp')
                       then alter (ChildProcess.kill signal) cp' processes
                       else processes) !! cp)).
  { intros signal cp' processes H. destruct (negb _); [|exact H].
    apply lookup_alter_is_Some, H. }
  intros H. destruct op; simpl; try exact H.
  - destruct (decide (cp0 = cp)) as [->|Hne];
      [rewrite lookup_insert_eq; eauto|].
    rewrite lookup_insert_ne by exact Hne.
    destruct (process d); [apply Hk|]; exact H.
  - apply Hk, H.
  - apply Hk, H.
  - unfold closeRecordingStream.
    destruct (streamAbortControllers d !! streamId); simpl;
      destruct (activeFFmpegProcesses d !! streamId); simpl; try exact H;
      destruct (negb _); simpl; try exact H; apply lookup_alter_is_Some, H.
  - unfold shutdown.
    assert (Hs : forall (entries : list (Z * nat)) processes,
               is_Some (processes !! cp) ->
               is_Some
                 (foldl
                    (fun processes (entry : Z * nat) =>
                       if negb (killedOf processes (snd entry))
                       then alter (ChildProcess.kill ChildProcess.SIGTERM)
                              (snd entry) processes
                       else processes)
                    processes entries !! cp)).
    { induction entries as [|entry entries IH]; intros processes Hp;
        [exact Hp|]. simpl. apply IH, Hk, Hp. }
    destruct (preBufferSession d); simpl; apply Hs;
      [apply lookup_alter_is_Some|]; exact H.
  - apply lookup_alter_is_Some, H.
Qed.

Lemma run_known ops :
  forall d cp,
    is_Some (processes d !! cp) -> is_Some (processes (run ops d) !! cp).
Proof.
  induction ops as [|op ops IH]; intros d cp H; [exact H|].
  simpl. apply IH, step_known, H.
Qed.

Lemma run_started ops :
  forall d cp,
    cp ∈ started ops -> is_Some (processes (run ops d) !! cp).
Proof.
  induction ops as [|op ops IH]; intros d cp H; [inversion H|].
  simpl. destruct op; try (apply IH; exact H).
  unfold started in H. simpl in H. apply elem_of_cons in H as [->|H].
  - apply run_known. simpl. rewrite lookup_insert_eq. eauto.
  - apply IH, H.
Qed.

Lemma run_single ops :
  forall d (before : list nat),
    (forall cp, cp ∈ before -> process d <> Some cp ->
                settled (processes d) cp) ->
    forall cp,
      cp ∈ before ++ started ops ->
      process (run ops d) <> Some cp ->
      settled (processes (run ops d)) cp.
Proof.
  induction ops as [|op ops IH]; intros d before Hb cp Hin Hcur.
  - simpl in *. rewrite app_nil_r in Hin. apply Hb; assumption.
  - change (run (op :: ops) d) with (run ops (step d op)) in *.
    assert (Hs : started (op :: ops) = started [op] ++ started ops)
      by (unfold started; destruct op; reflexivity).
    rewrite Hs, app_assoc in Hin.
    apply (IH (step d op) (before ++ started [op])); [|exact Hin|exact Hcur].
    clear cp Hin Hcur Hs. intros cp Hin Hcur.
    assert (Hdec : (exists spawns, op = StartSession cp spawns)
                   \/ (forall spawns, op <> StartSession cp spawns)).
    { destruct op; try (right; intros; discriminate).
      destruct (decide (cp0 = cp)) as [->|Hne]; [left; eauto|].
      right. intros s [= ? ?]. contradiction. }
    destruct Hdec as [[spawns ->]|Hop'].
    { destruct Hcur. reflexivity. }
    assert (Hin' : cp ∈ before).
    { apply elem_of_app in Hin as [Hin|Hin]; [exact Hin|].
      destruct op; try (inversion Hin; fail).
      unfold started in Hin. simpl in Hin.
      apply list_elem_of_singleton in Hin. subst.
      destruct (Hop' spawns eq_refl). }
    destruct (decide (process d = Some cp)) as [Hp|Hp];
      [|apply step_settled; [exact Hop'|apply Hb; assumption]].
    destruct op; simpl in *; try congruence.
    + assert (Hne : cp0 <> cp) by (intros ->; apply (Hop' spawns eq_refl)).
      unfold settled. rewrite lookup_insert_ne by exact Hne.
      rewrite Hp. apply settled_kill_unless_killed.
    + unfold closeRecordingStream in Hcur.
      destruct (streamAbortControllers d !! streamId); simpl in Hcur;
        destruct (activeFFmpegProcesses d !! streamId); simpl in Hcur;
        try congruence; destruct (negb _); simpl in Hcur; congruence.
    + unfold shutdown in Hcur.
      destruct (preBufferSession d); simpl in Hcur; congruence.
Qed.

End RecordingStreamsFacts.

(** X19. The delegate keeps one transcoder at a time: whatever happens
    to it, every subprocess a recording session spawned, other than the
    one [this.process] holds, has exited or has been sent a signal --
    also when its stream is still being recorded. *)
Theorem startFFMPegFragmentedMP4Session_single ops d cp :
  cp ∈ RecordingStreams.started ops ->
  RecordingStreams.process (RecordingStreams.run ops d) <> Some cp ->
  exists p,
    RecordingStreams.processes (RecordingStreams.run ops d) !! cp = Some p
    /\ (ChildProcess.killed p = true \/ ChildProcess.handle p = false).
Proof.
  intros Hin Hcur.
  destruct (run_started ops d cp Hin) as [p Hp].
  exists p. split; [exact Hp|].
  pose proof (run_single ops d [] (fun cp H => False_ind _ (not_elem_of_nil cp H))
                cp Hin Hcur) as H.
  unfold RecordingStreams.settled in H. rewrite Hp in H. exact H.
Qed.

Lemma startFFMPegFragmentedMP4Session_single_witness :
  let d :=
    RecordingStreams.mk None None ∅ ∅ ∅ ∅ ∅ in
  let ops :=
    [RecordingStreams.RegisterAbortController 1 0%nat;
     RecordingStreams.StartSession 10%nat true;
     RecordingStreams.RegisterProcess 1 10%nat;
     RecordingStreams.RegisterAbortController 2 1%nat;
     RecordingStreams.StartSession 11%nat true;
     RecordingStreams.RegisterProcess 2 11%nat] in
  (10%nat ∈ RecordingStreams.started ops)
  /\ RecordingStreams.process (RecordingStreams.run ops d) <> Some 10%nat
  /\ RecordingStreams.activeFFmpegProcesses (RecordingStreams.run ops d) !! 1
     = Some 10%nat
  /\ exists p,
       RecordingStreams.processes (RecordingStreams.run ops d) !! 10%nat
       = Some p
       /\ (ChildProcess.killed p = true \/ ChildProcess.handle p = false).
Proof.
  intros d ops.
  assert (H1 : 10%nat ∈ RecordingStreams.started ops) by (left).
  assert (H2 : RecordingStreams.process (RecordingStreams.run ops d)
               <> Some 10%nat) by discriminate.
  split; [exact H1|]. split; [exact H2|]. split; [reflexivity|].
  apply (startFFMPegFragmentedMP4Session_single ops d 10%nat H1 H2).
Defined.

(** X20. The SIGKILL of the timer never goes out: once the [finally] of
    [handleFragmentsRequests] has run for a subprocess, [killed] is set
    or the subprocess has exited, and so it stays whatever happens until
    the timer fires; the timer then changes nothing. *)
Theorem killTimer_never_kills streamId cp between d :
  cp ∉ RecordingStreams.started between ->
  let d1 :=
    RecordingStreams.run between
      (RecordingStreams.cleanupProcess streamId cp d) in
  RecordingStreams.killTimer cp d1 = d1.
Proof.
  intros Hn d1.
  assert (H : RecordingStreams.settled (RecordingStreams.processes d1) cp).
  { apply run_settled; [exact Hn|]. simpl. apply settled_kill_unless_killed. }
  unfold RecordingStreams.killTimer, RecordingStreams.settled in *.
  unfold RecordingStreams.killedOf.
  destruct (RecordingStreams.processes d1 !! cp) as [p|] eqn:Hp.
  - destruct H as [-> | Hh]; simpl; [destruct d1; reflexivity|].
    destruct (ChildProcess.killed p); simpl; [destruct d1; reflexivity|].
    rewrite alter_id; [destruct d1; reflexivity|].
    intros x Hx. rewrite Hp in Hx. injection Hx as <-.
    unfold ChildProcess.kill. rewrite Hh. reflexivity.
  - simpl. rewrite alter_id; [destruct d1; reflexivity|].
    intros x Hx. rewrite Hp in Hx. discriminate.
Qed.

Lemma killTimer_never_kills_witness :
  let d :=
    RecordingStreams.run
      [RecordingStreams.StartSession 10%nat true;
       RecordingStreams.RegisterProcess 1 10%nat]
      (RecordingStreams.mk None None ∅ ∅ ∅ ∅ ∅) in
  let between := [RecordingStreams.ProcessExited 11%nat] in
  let d1 :=
    RecordingStreams.run between
      (RecordingStreams.cleanupProcess 1 10%nat d) in
  (10%nat ∉ RecordingStreams.started between)
  /\ RecordingStreams.processes d1 !! 10%nat
     = Some (ChildProcess.mk true true [ChildProcess.SIGTERM])
  /\ RecordingStreams.killTimer 10%nat d1 = d1.
Proof.
  intros d between d1.
  assert (H : 10%nat ∉ RecordingStreams.started between)
    by (apply not_elem_of_nil).
  split; [exact H|]. split; [reflexivity|].
  apply (killTimer_never_kills 1 10%nat between d H).
Defined.

(** X21. [closeRecordingStream] aborts the controller registered for the
    stream and no other, forgets it, leaves the subprocess of the stream
    signalled or exited, leaves the entries of other streams alone, and
    a second call for the same stream changes nothing. *)
Theorem closeRecordingStream_closes streamId d :
  let closed := RecordingStreams.closeRecordingStream streamId d in
  (forall abortController,
     RecordingStreams.aborted closed abortController = true
     <-> RecordingStreams.aborted d abortController = true
         \/ RecordingStreams.streamAbortControllers d !! streamId
            = Some abortController)
  /\ RecordingStreams.streamAbortControllers closed !! streamId = None
  /\ (forall cp,
        RecordingStreams.activeFFmpegProcesses d !! streamId = Some cp ->
        RecordingStreams.settled (RecordingStreams.processes closed) cp)
  /\ (forall other,
        other <> streamId ->
        RecordingStreams.streamAbortControllers closed !! other
        = RecordingStreams.streamAbortControllers d !! other
        /\ RecordingStreams.activeFFmpegProcesses closed !! other
           = RecordingStreams.activeFFmpegProcesses d !! other)
  /\ RecordingStreams.closeRecordingStream streamId closed = closed.
Proof.
  intros closed. subst closed.
  destruct d as [pr pbs act ctls ab ps cs].
  unfold RecordingStreams.closeRecordingStream, RecordingStreams.aborted.
  cbn [RecordingStreams.streamAbortControllers].
  assert (Hab : forall (ctl a : nat),
             a ∈ ({[ctl]} ∪ ab : gset nat) <-> a ∈ ab \/ Some ctl = Some a).
  { intros ctl a. rewrite elem_of_union, elem_of_singleton.
    split; [intros [->|?]; auto|intros [?|[= ->]]; auto]. }
  destruct (ctls !! streamId) as [ctl|] eqn:Hc;
    cbn [RecordingStreams.activeFFmpegProcesses RecordingStreams.processes];
    (destruct (act !! streamId) as [cp|] eqn:Ha;
     [destruct (RecordingStreams.killedOf ps cp) eqn:Hk|]);
    cbn [negb RecordingStreams.activeFFmpegProcesses
         RecordingStreams.processes RecordingStreams.streamAbortControllers
         RecordingStreams.abortedSignals RecordingStreams.process
         RecordingStreams.preBufferSession RecordingStreams.closedServers];
    (split;
     [intros a; rewrite !bool_decide_eq_true;
      first [apply Hab
            |split; [auto|intros [?|?]; [assumption|discriminate]]]|]);
    (split; [first [apply lookup_delete_eq|exact Hc]|]);
    (split;
     [intros cp' [= <-];
      first [apply settled_killedOf, Hk|apply settled_kill]|]);
    (split;
     [intros other Hne;
      rewrite ?lookup_delete_ne by congruence; split; reflexivity|]);
    repeat
      (rewrite ?lookup_delete_eq, ?Hc, ?Ha, ?Hk;
       cbn [negb RecordingStreams.activeFFmpegProcesses
            RecordingStreams.processes RecordingStreams.streamAbortControllers
            RecordingStreams.abortedSignals RecordingStreams.process
            RecordingStreams.preBufferSession
            RecordingStreams.closedServers]);
    reflexivity.
Qed.

(** X22. On shutdown both maps are emptied, every subprocess of a
    stream that was being recorded is left signalled or exited, the
    subprocess of the prebuffer is sent SIGTERM and its server closed;
    no abort controller is aborted. *)
Theorem shutdown_terminates d :
  let down := RecordingStreams.shutdown d in
  RecordingStreams.activeFFmpegProcesses down = ∅
  /\ RecordingStreams.streamAbortControllers down = ∅
  /\ RecordingStreams.abortedSignals down = RecordingStreams.abortedSignals d
  /\ (forall streamId cp,
        RecordingStreams.activeFFmpegProcesses d !! streamId = Some cp ->
        RecordingStreams.settled (RecordingStreams.processes down) cp)
  /\ (forall session,
        RecordingStreams.preBufferSession d = Some session ->
        RecordingStreams.settled (RecordingStreams.processes down)
          (PreBuffer.process session)
        /\ PreBuffer.server session ∈ RecordingStreams.closedServers down).
Proof.
  intros down. unfold down, RecordingStreams.shutdown.
  destruct (RecordingStreams.preBufferSession d) as [session|];
    cbn [RecordingStreams.activeFFmpegProcesses RecordingStreams.processes
         RecordingStreams.streamAbortControllers
         RecordingStreams.abortedSignals RecordingStreams.closedServers];
    repeat split; try reflexivity.
  - intros streamId cp H. apply settled_swept.
    apply list_elem_of_fmap. exists (streamId, cp). split; [reflexivity|].
    apply elem_of_map_to_list, H.
  - injection H as <-. apply settled_sweep, settled_kill.
  - injection H as <-. set_solver.
  - intros streamId cp H. apply settled_swept.
    apply list_elem_of_fmap. exists (streamId, cp). split; [reflexivity|].
    apply elem_of_map_to_list, H.
  - discriminate.
  - discriminate.
Qed.

(** ** Live streams *)

(** X23. The bitrate of a stream is the requested one brought under
    [maxBitrate] and then over [minBitrate], each when set: it is never
    below a set minimum; it is not above a set maximum unless a minimum
    above that maximum is set, in which case every stream gets that
    minimum; and a request within the limits is kept. *)
Theorem clampBitrate_limits videoConfig requested :
  let bitrate := LiveStream.clampBitrate videoConfig requested in
  let maxBitrate := LiveStream.maxBitrate videoConfig in
  let minBitrate := LiveStream.minBitrate videoConfig in
  (Js.truthyNumber minBitrate = true -> default 0 minBitrate <= bitrate)
  /\ (Js.truthyNumber maxBitrate = true ->
      Js.truthyNumber minBitrate = false
      \/ default 0 minBitrate <= default 0 maxBitrate ->
      bitrate <= default 0 maxBitrate)
  /\ (Js.truthyNumber maxBitrate = true ->
      Js.truthyNumber minBitrate = true ->
      default 0 maxBitrate < default 0 minBitrate ->
      bitrate = default 0 minBitrate)
  /\ ((Js.truthyNumber maxBitrate = true -> requested <= default 0 maxBitrate) ->
      (Js.truthyNumber minBitrate = true -> default 0 minBitrate <= requested) ->
      bitrate = requested).
Proof.
  intros bitrate maxBitrate minBitrate.
  unfold bitrate, maxBitrate, minBitrate, LiveStream.clampBitrate,
    Js.truthyNumber.
  destruct (LiveStream.maxBitrate videoConfig) as [M|];
    destruct (LiveStream.minBitrate videoConfig) as [m|]; simpl;
    repeat match goal with
           | |- context [?a =? ?b] => destruct (Z.eqb_spec a b); simpl
           | |- context [?a <? ?b] => destruct (Z.ltb_spec a b); simpl
           end;
    repeat split; intros; try discriminate; try lia;
    repeat match goal with
           | H : ?a = ?a -> _ |- _ => specialize (H eq_refl)
           | H : _ \/ _ |- _ => destruct H
           | H : context [?a <? ?b] |- _ => destruct (Z.ltb_spec a b)
           end; try discriminate; lia.
Qed.

Lemma clampBitrate_limits_witness :
  let videoConfig :=
    LiveStream.mkVideoConfig
      (StreamingDelegate.mkVideoConfig None None None None None None false
         false None)
      None None (Some 300) (Some 500) None None None None None false None
      None false in
  Js.truthyNumber (LiveStream.maxBitrate videoConfig) = true
  /\ Js.truthyNumber (LiveStream.minBitrate videoConfig) = true
  /\ LiveStream.clampBitrate videoConfig 100 = 500.
Proof.
  intros videoConfig. split; [reflexivity|]. split; [reflexivity|].
  destruct (clampBitrate_limits videoConfig 100) as (_ & _ & H & _).
  apply H; [reflexivity|reflexivity|simpl; lia].
Defined.

Section EncoderFacts.

Import LiveStream.

Lemma profileSettings_paired qualityProfile speed quality balanced none :
  let '(gopSize, bframes, _) :=
    profileSettings qualityProfile speed quality balanced none in
  (0 < gopSize <-> 0 <= bframes)
  /\ (0 < gopSize ->
      In qualityProfile [Some "speed"; Some "quality"; Some "balanced"]).
Proof.
  unfold profileSettings. destruct qualityProfile as [profile|];
    [|simpl; split; [lia|lia]].
  destruct (String.eqb_spec profile "speed") as [->|_];
    [simpl; split; [lia|auto]|].
  destruct (String.eqb_spec profile "quality") as [->|_];
    [simpl; split; [lia|auto]|].
  destruct (String.eqb_spec profile "balanced") as [->|_];
    [simpl; split; [lia|auto]|].
  simpl. split; lia.
Qed.

End EncoderFacts.

(** X24. The flags [-g] and [-bf] go together: [buildFfmpegArgs] settles
    on a GOP size above 0 exactly when it settles on a number of B-frames
    of 0 or more, and only when no encoder options are configured, the
    codec is not [libx264] and the quality profile is 'speed', 'quality'
    or 'balanced'; encoder options that are configured are passed on as
    they are, without these flags. *)
Theorem encoderSettings_profile videoConfig :
  let '(gopSize, bframes, encoderOptions) :=
    LiveStream.encoderSettings videoConfig in
  (0 < gopSize <-> 0 <= bframes)
  /\ (0 < gopSize ->
      Js.orString (LiveStream.encoderOptions videoConfig) "" = ""
      /\ LiveStream.vcodecOf videoConfig <> "libx264"
      /\ In (LiveStream.qualityProfile videoConfig)
           [Some "speed"; Some "quality"; Some "balanced"])
  /\ (Js.orString (LiveStream.encoderOptions videoConfig) "" <> "" ->
      encoderOptions = Js.orString (LiveStream.encoderOptions videoConfig) ""
      /\ gopSize = 0 /\ bframes = -1).
Proof.
  unfold LiveStream.encoderSettings.
  destruct (LiveStream.encoderOptions videoConfig) as [[|c options]|];
    simpl Js.orString; cycle 1.
  { split; [lia|]. split; [lia|]. intros _. repeat split. }
  all: destruct (String.eqb_spec (LiveStream.vcodecOf videoConfig) "libx264")
         as [E|E]; [split; [lia|]; split; [lia|congruence]|].
  all: repeat
         match goal with
         | |- context [if ?b then _ else _] =>
             match b with
             | String.eqb _ _ => destruct b
             | Js.includes _ _ => destruct b
             end
         end.
  all: try (split; [lia|]; split; [lia|congruence]).
  all: match goal with
       | |- context [LiveStream.profileSettings ?q ?a ?b ?c ?d] =>
           pose proof (profileSettings_paired q a b c d) as H;
           destruct (LiveStream.profileSettings q a b c d) as [[g bf] o];
           destruct H as [H1 H2]
       end.
  all: split; [exact H1|]; split; [auto|congruence].
Qed.

Lemma encoderSettings_profile_witness :
  let videoConfig :=
    LiveStream.mkVideoConfig
      (StreamingDelegate.mkVideoConfig None None None None None
         (Some "vaapi") false false None)
      None None None None None None None (Some "quality") None false None
      None false in
  LiveStream.encoderSettings videoConfig = (13, 2, "-quality 7")
  /\ Js.orString (LiveStream.encoderOptions videoConfig) "" = ""
  /\ LiveStream.vcodecOf videoConfig <> "libx264"
  /\ In (LiveStream.qualityProfile videoConfig)
       [Some "speed"; Some "quality"; Some "balanced"].
Proof.
  intros videoConfig. split; [reflexivity|].
  pose proof (encoderSettings_profile videoConfig) as H.
  change (LiveStream.encoderSettings videoConfig) with (13, 2, "-quality 7")
    in H.
  destruct H as (_ & H & _). apply H. lia.
Defined.

Section LiveStreamFacts.

Import LiveStream.

Lemma activeSessions_stopStream sessionID d :
  activeSessions (stopStream sessionID d) = delete sessionID (activeSessions d).
Proof.
  unfold stopStream.
  destruct (activeSessions d !! sessionID) eqn:E; simpl; [reflexivity|].
  symmetry. apply delete_id, E.
Qed.

Lemma stopStream_active sessionID d session :
  activeSessions d !! sessionID = Some session ->
  stopStream sessionID d
  = mk (videoConfig d) (videoProcessor d) (pendingSessions d)
      (delete sessionID (activeSessions d))
      (cachedSnapshot d) (cachedSnapshotTime d)
      (alter (ChildProcess.kill ChildProcess.SIGKILL)
         (videoProcess session) (processes d))
      (host d).
Proof. intros H. unfold stopStream. rewrite H. reflexivity. Qed.

Lemma processes_stopStream sessionID d pid :
  exists n,
    (n <= 1)%nat
    /\ processes (stopStream sessionID d) !! pid
       = Nat.iter n (ChildProcess.kill ChildProcess.SIGKILL)
           <$> processes d !! pid
    /\ (forall session,
          activeSessions d !! sessionID = Some session ->
          videoProcess session = pid -> n = 1%nat)
    /\ ((forall session,
           activeSessions d !! sessionID = Some session ->
           videoProcess session <> pid) -> n = 0%nat).
Proof.
  unfold stopStream.
  destruct (activeSessions d !! sessionID) as [session|] eqn:E; simpl.
  - destruct (decide (videoProcess session = pid)) as [<-|Hne].
    + exists 1%nat. rewrite lookup_alter_eq. repeat split; [lia|].
      intros H. destruct (H session eq_refl eq_refl).
    + exists 0%nat. rewrite lookup_alter_ne by exact Hne.
      split; [lia|]. split; [symmetry; apply option_fmap_id|].
      split; [|reflexivity]. intros s [= <-] Hs. contradiction.
  - exists 0%nat. split; [lia|]. split; [symmetry; apply option_fmap_id|].
    split; [discriminate|reflexivity].
Qed.

Lemma stopStream_others sessionID d :
  videoConfig (stopStream sessionID d) = videoConfig d
  /\ videoProcessor (stopStream sessionID d) = videoProcessor d
  /\ pendingSessions (stopStream sessionID d) = pendingSessions d
  /\ cachedSnapshot (stopStream sessionID d) = cachedSnapshot d
  /\ cachedSnapshotTime (stopStream sessionID d) = cachedSnapshotTime d
  /\ host (stopStream sessionID d) = host d.
Proof.
  unfold stopStream. destruct (activeSessions d !! sessionID); repeat split.
Qed.

Lemma stopStreams_others sessionIDs :
  forall d,
    pendingSessions (stopStreams sessionIDs d) = pendingSessions d
    /\ cachedSnapshot (stopStreams sessionIDs d) = cachedSnapshot d
    /\ host (stopStreams sessionIDs d) = host d.
Proof.
  induction sessionIDs as [|k ks IH]; intros d; [repeat split|].
  simpl. destruct (IH (stopStream k d)) as (-> & -> & ->).
  destruct (stopStream_others k d) as (_ & _ & -> & -> & _ & ->).
  repeat split.
Qed.

Lemma activeSessions_stopStreams sessionIDs :
  forall d i,
    activeSessions (stopStreams sessionIDs d) !! i
    = if decide (i ∈ sessionIDs) then None else activeSessions d !! i.
Proof.
  induction sessionIDs as [|k ks IH]; intros d i; simpl.
  - destruct (decide (i ∈ [])) as [H|_]; [inversion H|reflexivity].
  - fold (stopStreams ks (stopStream k d)). rewrite IH.
    rewrite activeSessions_stopStream.
    destruct (decide (i ∈ ks)) as [Hin|Hn];
      [rewrite decide_True by (right; exact Hin); reflexivity|].
    destruct (decide (k = i)) as [->|Hne].
    + rewrite decide_True by left. apply lookup_delete_eq.
    + rewrite decide_False
        by (intros H; apply elem_of_cons in H as [->|H]; contradiction).
      apply lookup_delete_ne, Hne.
Qed.

Lemma iter_kill_fmap n m (p : option ChildProcess.t) :
  Nat.iter n (ChildProcess.kill ChildProcess.SIGKILL)
    <$> (Nat.iter m (ChildProcess.kill ChildProcess.SIGKILL) <$> p)
  = Nat.iter (n + m) (ChildProcess.kill ChildProcess.SIGKILL) <$> p.
Proof.
  destruct p as [p|]; simpl; [|reflexivity].
  f_equal. symmetry. apply Nat.iter_add.
Qed.

Lemma processes_stopStreams sessionIDs :
  forall d pid,
    exists n,
      processes (stopStreams sessionIDs d) !! pid
      = Nat.iter n (ChildProcess.kill ChildProcess.SIGKILL)
          <$> processes d !! pid
      /\ (forall sessionID session,
            sessionID ∈ sessionIDs ->
            activeSessions d !! sessionID = Some session ->
            videoProcess session = pid -> (0 < n)%nat)
      /\ ((forall sessionID session,
             activeSessions d !! sessionID = Some session ->
             videoProcess session <> pid) -> n = 0%nat).
Proof.
  induction sessionIDs as [|k ks IH]; intros d pid.
  - exists 0%nat. simpl. split; [symmetry; apply option_fmap_id|].
    split; [intros ? ? H; inversion H|reflexivity].
  - simpl. fold (stopStreams ks (stopStream k d)).
    destruct (IH (stopStream k d) pid) as (n & Hn & Hpos & Hzero).
    destruct (processes_stopStream k d pid) as (m & Hm1 & Hm & Hone & Hnone).
    exists (n + m)%nat. rewrite Hn, Hm, iter_kill_fmap.
    split; [reflexivity|]. split.
    + intros sessionID session Hin Ha Hv.
      destruct (decide (sessionID = k)) as [->|Hne].
      * rewrite (Hone session Ha Hv). lia.
      * apply elem_of_cons in Hin as [->|Hin]; [contradiction|].
        enough (0 < n)%nat by lia.
        apply (Hpos sessionID session Hin); [|exact Hv].
        rewrite activeSessions_stopStream, lookup_delete_ne by congruence.
        exact Ha.
    + intros H. rewrite Hnone.
      * rewrite Hzero; [reflexivity|].
        intros sessionID session Ha. apply (H sessionID).
        rewrite activeSessions_stopStream in Ha.
        apply lookup_delete_Some in Ha as [_ Ha]. exact Ha.
      * intros session. apply H.
Qed.

Lemma snapshotEvents_data chunks :
  forall rest collected d,
    snapshotEvents (List.map Data chunks ++ rest) collected d
    = snapshotEvents rest (collected ++ chunks) d.
Proof.
  induction chunks as [|chunk chunks IH]; intros rest collected d; simpl.
  - rewrite app_nil_r. reflexivity.
  - rewrite IH, <- app_assoc. reflexivity.
Qed.

End LiveStreamFacts.

(** X25. A START consumes the prepared session whatever becomes of it:
    afterwards nothing is pending for the session, so that a further
    START for it -- also after one that failed for want of video
    information or of a source -- is answered 'Session not found' and
    changes nothing.  A START that succeeds spawns one subprocess and
    makes the session active; one that fails spawns nothing. *)
Theorem startStream_consumes HOMEKIT_MAX_WIDTH HOMEKIT_MAX_HEIGHT pid request d :
  let '(d1, answer) :=
    LiveStream.startStream HOMEKIT_MAX_WIDTH HOMEKIT_MAX_HEIGHT pid request d in
  LiveStream.pendingSessions d1 !! LiveStream.sessionID request = None
  /\ (answer = LiveStream.Success tt ->
      exists sessionInfo args,
        LiveStream.pendingSessions d !! LiveStream.sessionID request
        = Some sessionInfo
        /\ LiveStream.activeSessions d1
           = <[LiveStream.sessionID request
               := LiveStream.mkActiveSession sessionInfo pid]>
               (LiveStream.activeSessions d)
        /\ LiveStream.processes d1
           = <[pid := ChildProcess.spawned]> (LiveStream.processes d)
        /\ LiveStream.host d1
           = LiveStream.host d ++ [Spawn (LiveStream.videoProcessor d) args])
  /\ (answer <> LiveStream.Success tt ->
      LiveStream.activeSessions d1 = LiveStream.activeSessions d
      /\ LiveStream.processes d1 = LiveStream.processes d
      /\ LiveStream.host d1 = LiveStream.host d)
  /\ (forall pid' request',
        LiveStream.sessionID request' = LiveStream.sessionID request ->
        LiveStream.startStream HOMEKIT_MAX_WIDTH HOMEKIT_MAX_HEIGHT pid'
          request' d1
        = (d1, LiveStream.Failure "Session not found")).
Proof.
  unfold LiveStream.startStream.
  destruct (LiveStream.pendingSessions d !! LiveStream.sessionID request)
    as [sessionInfo|] eqn:Hp.
  - cbn [LiveStream.videoConfig LiveStream.source LiveStream.pendingSessions
         LiveStream.activeSessions LiveStream.processes LiveStream.host
         LiveStream.videoProcessor LiveStream.cachedSnapshot
         LiveStream.cachedSnapshotTime].
    destruct (LiveStream.video request) as [video|];
      [destruct (LiveStream.source (LiveStream.videoConfig d))
         as [[|c s]|]|];
      cbn [LiveStream.pendingSessions LiveStream.activeSessions
           LiveStream.processes LiveStream.host];
      (split; [apply lookup_delete_eq|]);
      (split; [first [discriminate|intros _; eauto 10]|]);
      (split; [first [intros H; destruct (H eq_refl)|intros _; repeat split]|]);
      intros pid' request' ->; rewrite lookup_delete_eq; reflexivity.
  - split; [exact Hp|]. split; [discriminate|].
    split; [intros _; repeat split|].
    intros pid' request' ->. rewrite Hp. reflexivity.
Qed.

(** X26. A stream from [prepareStream] through START to STOP: with a
    source configured and video information in the request, START and
    STOP both succeed, one subprocess is spawned and it is sent SIGKILL
    once, the session is neither pending nor active afterwards, and a
    further stop of the session changes nothing.  When the subprocess
    closes by itself instead, its handler stops the stream as well, and
    no signal goes out. *)
Theorem stream_lifecycle HOMEKIT_MAX_WIDTH HOMEKIT_MAX_HEIGHT pid pid' prepare
    picked video requestAudio d :
  Js.orString (LiveStream.source (LiveStream.videoConfig d)) "" <> "" ->
  let sessionID := LiveStream.prepareSessionID prepare in
  let prepared := fst (LiveStream.prepareStream prepare picked d) in
  let started :=
    LiveStream.handleStreamRequest HOMEKIT_MAX_WIDTH HOMEKIT_MAX_HEIGHT pid
      (LiveStream.mkStreamingRequest LiveStream.START sessionID (Some video)
         requestAudio) prepared in
  let stopped :=
    LiveStream.handleStreamRequest HOMEKIT_MAX_WIDTH HOMEKIT_MAX_HEIGHT pid'
      (LiveStream.mkStreamingRequest LiveStream.STOP sessionID None None)
      (fst started) in
  snd started = LiveStream.Success tt
  /\ snd stopped = LiveStream.Success tt
  /\ LiveStream.pendingSessions (fst stopped)
     = delete sessionID (LiveStream.pendingSessions d)
  /\ LiveStream.activeSessions (fst stopped)
     = delete sessionID (LiveStream.activeSessions d)
  /\ LiveStream.processes (fst stopped) !! pid
     = Some (ChildProcess.mk true true [ChildProcess.SIGKILL])
  /\ (exists args,
        LiveStream.host (fst stopped)
        = LiveStream.host d ++ [Spawn (LiveStream.videoProcessor d) args])
  /\ LiveStream.stopStream sessionID (fst stopped) = fst stopped
  /\ (let closed :=
        LiveStream.videoProcessClosed pid sessionID (fst started) in
      LiveStream.activeSessions closed
      = delete sessionID (LiveStream.activeSessions d)
      /\ LiveStream.processes closed !! pid
         = Some (ChildProcess.mk false false [])).
Proof.
  intros Hs sessionID prepared started stopped.
  unfold LiveStream.videoProcessClosed.
  unfold stopped, started, prepared, LiveStream.handleStreamRequest,
    LiveStream.prepareStream, LiveStream.startStream.
  cbn [fst snd LiveStream.type LiveStream.sessionID LiveStream.video
       LiveStream.audio_ LiveStream.pendingSessions LiveStream.videoConfig
       LiveStream.videoProcessor LiveStream.activeSessions
       LiveStream.processes LiveStream.host LiveStream.cachedSnapshot
       LiveStream.cachedSnapshotTime].
  rewrite lookup_insert_eq.
  cbn [fst snd LiveStream.type LiveStream.sessionID LiveStream.video
       LiveStream.audio_ LiveStream.pendingSessions LiveStream.videoConfig
       LiveStream.videoProcessor LiveStream.activeSessions
       LiveStream.processes LiveStream.host LiveStream.cachedSnapshot
       LiveStream.cachedSnapshotTime].
  destruct (LiveStream.source (LiveStream.videoConfig d)) as [[|c s]|];
    [destruct Hs; reflexivity| |destruct Hs; reflexivity].
  cbn [fst snd].
  erewrite (stopStream_active sessionID)
    by (cbn [LiveStream.activeSessions]; apply lookup_insert_eq).
  cbn [LiveStream.pendingSessions LiveStream.activeSessions
       LiveStream.processes LiveStream.host LiveStream.videoProcess
       LiveStream.videoConfig LiveStream.videoProcessor
       LiveStream.cachedSnapshot LiveStream.cachedSnapshotTime].
  split; [reflexivity|]. split; [reflexivity|].
  split; [apply delete_insert_eq|]. split; [apply delete_insert_eq|].
  split; [rewrite lookup_alter_eq, lookup_insert_eq; reflexivity|].
  split; [eauto|]. split.
  - unfold LiveStream.stopStream. cbn [LiveStream.activeSessions].
    rewrite lookup_delete_eq. reflexivity.
  - erewrite (stopStream_active sessionID)
      by (cbn [LiveStream.activeSessions]; apply lookup_insert_eq).
    cbn [LiveStream.activeSessions LiveStream.processes
         LiveStream.videoProcess].
    split; [apply delete_insert_eq|].
    rewrite !lookup_alter_eq, lookup_insert_eq. reflexivity.
Qed.

Lemma stream_lifecycle_witness :
  let videoConfig :=
    LiveStream.mkVideoConfig
      (StreamingDelegate.mkVideoConfig (Some 1920) (Some 1080) None None None
         None false false None)
      (Some "-i rtsp://camera/stream") None None None None None None None
      None false None None false in
  let d := LiveStream.new videoConfig "ffmpeg" in
  let prepare :=
    LiveStream.mkPrepareStreamRequest "session-1" "192.168.1.5" "ipv4"
      (LiveStream.mkSource 50000 0 [x01]%byte [x02]%byte)
      (LiveStream.mkSource 50002 0 [x03]%byte [x04]%byte) in
  let picked := LiveStream.mkPicked 40000 40001 40002 40003 1 2 in
  let video := LiveStream.mkVideoInfo 1280 720 299 (Some 99) in
  let started :=
    LiveStream.handleStreamRequest 1920 1080 7%nat
      (LiveStream.mkStreamingRequest LiveStream.START "session-1" (Some video)
         None)
      (fst (LiveStream.prepareStream prepare picked d)) in
  let stopped :=
    LiveStream.handleStreamRequest 1920 1080 8%nat
      (LiveStream.mkStreamingRequest LiveStream.STOP "session-1" None None)
      (fst started) in
  Js.orString (LiveStream.source (LiveStream.videoConfig d)) "" <> ""
  /\ snd started = LiveStream.Success tt
  /\ LiveStream.processes (fst stopped) !! 7%nat
     = Some (ChildProcess.mk true true [ChildProcess.SIGKILL]).
Proof.
  intros videoConfig d prepare picked video started stopped.
  assert (H : Js.orString (LiveStream.source (LiveStream.videoConfig d)) ""
              <> "") by discriminate.
  split; [exact H|].
  destruct (stream_lifecycle 1920 1080 7%nat 8%nat prepare picked video None d H)
    as (H1 & _ & _ & _ & H5 & _).
  split; [exact H1|exact H5].
Defined.

(** X27. [stopAllStreams] leaves no stream active: the subprocess of
    every session that was active is sent SIGKILL (if it has not exited;
    once for each session that holds it), every other subprocess is left
    alone, and what is pending stays pending. *)
Theorem stopAllStreams_stops d :
  let stopped := LiveStream.stopAllStreams d in
  LiveStream.activeSessions stopped = ∅
  /\ LiveStream.pendingSessions stopped = LiveStream.pendingSessions d
  /\ (forall sessionID session,
        LiveStream.activeSessions d !! sessionID = Some session ->
        exists n,
          (0 < n)%nat
          /\ LiveStream.processes stopped !! LiveStream.videoProcess session
             = Nat.iter n (ChildProcess.kill ChildProcess.SIGKILL)
                 <$> LiveStream.processes d !! LiveStream.videoProcess session)
  /\ (forall pid,
        (forall sessionID session,
           LiveStream.activeSessions d !! sessionID = Some session ->
           LiveStream.videoProcess session <> pid) ->
        LiveStream.processes stopped !! pid = LiveStream.processes d !! pid).
Proof.
  intros stopped. unfold stopped, LiveStream.stopAllStreams.
  set (sessionIDs := (map_to_list (LiveStream.activeSessions d)).*1).
  assert (Hk : forall i session,
             LiveStream.activeSessions d !! i = Some session ->
             i ∈ sessionIDs).
  { intros i session H. apply list_elem_of_fmap. exists (i, session).
    split; [reflexivity|]. apply elem_of_map_to_list, H. }
  split; [|split; [apply stopStreams_others|split]].
  - apply map_eq. intros i. rewrite activeSessions_stopStreams, lookup_empty.
    destruct (decide (i ∈ sessionIDs)) as [_|Hn]; [reflexivity|].
    destruct (LiveStream.activeSessions d !! i) as [session|] eqn:E;
      [|reflexivity].
    destruct Hn. apply (Hk i session E).
  - intros sessionID session Ha.
    destruct (processes_stopStreams sessionIDs d
                (LiveStream.videoProcess session)) as (n & Hn & Hpos & _).
    exists n. split; [|exact Hn].
    apply (Hpos sessionID session (Hk _ _ Ha) Ha eq_refl).
  - intros pid H.
    destruct (processes_stopStreams sessionIDs d pid) as (n & Hn & _ & Hzero).
    rewrite Hn, (Hzero H). apply option_fmap_id.
Qed.

(** ** Snapshots *)

(** X28. A snapshot is cached from the moment its subprocess closes:
    after a capture that exits with code 0 and a non-empty output, every
    request made less than 3000 ms after that moment is answered with the
    very same image, whatever dimensions it asks for, and spawns
    nothing. *)
Theorem handleSnapshotRequest_cache HOMEKIT_MAX_WIDTH HOMEKIT_MAX_HEIGHT request
    now chunks closedAt d request' now' events' :
  LiveStream.cachedSnapshot d = None
  \/ 3000 <= now - LiveStream.cachedSnapshotTime d ->
  Js.orString (LiveStream.stillImageSource (LiveStream.videoConfig d))
    (Js.orString (LiveStream.source (LiveStream.videoConfig d)) "") <> "" ->
  List.concat chunks <> [] ->
  now' - closedAt < 3000 ->
  let '(d1, answers) :=
    LiveStream.handleSnapshotRequest HOMEKIT_MAX_WIDTH HOMEKIT_MAX_HEIGHT
      request now
      (List.map LiveStream.Data chunks
       ++ [LiveStream.Close (Some 0) closedAt]) d in
  answers = [LiveStream.Success (List.concat chunks)]
  /\ List.length (LiveStream.host d1) = S (List.length (LiveStream.host d))
  /\ LiveStream.handleSnapshotRequest HOMEKIT_MAX_WIDTH HOMEKIT_MAX_HEIGHT
       request' now' events' d1
     = (d1, [LiveStream.Success (List.concat chunks)]).
Proof.
  intros Hmiss Hsrc Hout Hnow.
  unfold LiveStream.handleSnapshotRequest at 1.
  assert (Hcap :
    match LiveStream.cachedSnapshot d with
    | Some cached =>
        if now - LiveStream.cachedSnapshotTime d <? 3000 then true else false
    | None => false
    end = false).
  { destruct Hmiss as [->|H]; [reflexivity|].
    destruct (LiveStream.cachedSnapshot d); [|reflexivity].
    destruct (Z.ltb_spec (now - LiveStream.cachedSnapshotTime d) 3000);
      [lia|reflexivity]. }
  cbn zeta.
  destruct (LiveStream.cachedSnapshot d) as [cached|] eqn:Hc;
    [destruct (now - LiveStream.cachedSnapshotTime d <? 3000);
     [discriminate|]|].
  all: cbn [LiveStream.videoConfig].
  all: destruct (LiveStream.stillImageSource (LiveStream.videoConfig d))
         as [[|c s]|];
       [destruct (LiveStream.source (LiveStream.videoConfig d)) as [[|c s]|];
        [destruct Hsrc; reflexivity| |destruct Hsrc; reflexivity]
       |
       |destruct (LiveStream.source (LiveStream.videoConfig d)) as [[|c s]|];
        [destruct Hsrc; reflexivity| |destruct Hsrc; reflexivity]].
  all: rewrite snapshotEvents_data; cbn [LiveStream.snapshotEvents app].
  all: destruct (List.concat chunks) as [|b bs] eqn:Hcc;
       [destruct Hout; reflexivity|].
  all: cbn [LiveStream.host LiveStream.videoConfig LiveStream.videoProcessor
            LiveStream.pendingSessions LiveStream.activeSessions
            LiveStream.processes].
  all: split; [reflexivity|].
  all: split; [rewrite length_app; simpl; lia|].
  all: unfold LiveStream.handleSnapshotRequest;
       cbn [LiveStream.cachedSnapshot LiveStream.cachedSnapshotTime];
       destruct (Z.ltb_spec (now' - closedAt) 3000); [reflexivity|lia].
Qed.

Lemma handleSnapshotRequest_cache_witness :
  let videoConfig :=
    LiveStream.mkVideoConfig
      (StreamingDelegate.mkVideoConfig (Some 1920) (Some 1080) None None None
         None false false None)
      (Some "-i rtsp://camera/stream") None None None None None None None
      None false None None false in
  let d := LiveStream.new videoConfig "ffmpeg" in
  let chunks := [[x01; x02]%byte; [x03]%byte] in
  let captured :=
    LiveStream.handleSnapshotRequest 1920 1080
      (StreamingDelegate.mkRequest 320 240) 10000
      (List.map LiveStream.Data chunks ++ [LiveStream.Close (Some 0) 10400]) d in
  snd captured = [LiveStream.Success [x01; x02; x03]%byte]
  /\ LiveStream.handleSnapshotRequest 1920 1080
       (StreamingDelegate.mkRequest 1920 1080) 13399 [] (fst captured)
     = (fst captured, [LiveStream.Success [x01; x02; x03]%byte]).
Proof.
  intros videoConfig d chunks captured.
  pose proof (handleSnapshotRequest_cache 1920 1080
                (StreamingDelegate.mkRequest 320 240) 10000 chunks 10400 d
                (StreamingDelegate.mkRequest 1920 1080) 13399 []) as H.
  fold captured in H. destruct captured as [d1 answers].
  destruct H as (H1 & _ & H3);
    [left; reflexivity|discriminate|discriminate|lia|].
  split; [exact H1|exact H3].
Defined.

(** X29. A capture that fails -- no source configured, a subprocess
    that closes with a code other than 0 or with none, or an empty
    output -- is answered with one error and leaves the cached snapshot
    and its time as they were. *)
Theorem handleSnapshotRequest_failure HOMEKIT_MAX_WIDTH HOMEKIT_MAX_HEIGHT
    request now chunks code closedAt d :
  LiveStream.cachedSnapshot d = None
  \/ 3000 <= now - LiveStream.cachedSnapshotTime d ->
  code <> Some 0 \/ List.concat chunks = [] ->
  let '(d1, answers) :=
    LiveStream.handleSnapshotRequest HOMEKIT_MAX_WIDTH HOMEKIT_MAX_HEIGHT
      request now
      (List.map LiveStream.Data chunks ++ [LiveStream.Close code closedAt]) d in
  (exists message, answers = [LiveStream.Failure message])
  /\ LiveStream.cachedSnapshot d1 = LiveStream.cachedSnapshot d
  /\ LiveStream.cachedSnapshotTime d1 = LiveStream.cachedSnapshotTime d
  /\ (Js.orString (LiveStream.stillImageSource (LiveStream.videoConfig d))
        (Js.orString (LiveStream.source (LiveStream.videoConfig d)) "") = "" ->
      d1 = d).
Proof.
  intros Hmiss Hfail.
  unfold LiveStream.handleSnapshotRequest. cbn zeta.
  assert (Hfailed : forall d0,
    let '(d1, answers) :=
      LiveStream.snapshotEvents
        (List.map LiveStream.Data chunks ++ [LiveStream.Close code closedAt])
        [] d0 in
    (exists message, answers = [LiveStream.Failure message]) /\ d1 = d0).
  { intros d0. rewrite snapshotEvents_data.
    cbn [LiveStream.snapshotEvents app].
    destruct code as [[|other|other]|];
      [destruct (List.concat chunks) as [|b bs];
       [|destruct Hfail as [H|H]; [destruct H; reflexivity|discriminate]]
      | | |]; split; eauto. }
  assert (Hgoal :
    let '(d1, answers) :=
      match
        match LiveStream.stillImageSource (LiveStream.videoConfig d) with
        | Some (String c s) => Some (String c s)
        | _ => LiveStream.source (LiveStream.videoConfig d)
        end
      with
      | Some (String c s) =>
          LiveStream.snapshotEvents
            (List.map LiveStream.Data chunks
             ++ [LiveStream.Close code closedAt]) []
            (LiveStream.mk (LiveStream.videoConfig d)
               (LiveStream.videoProcessor d) (LiveStream.pendingSessions d)
               (LiveStream.activeSessions d) (LiveStream.cachedSnapshot d)
               (LiveStream.cachedSnapshotTime d) (LiveStream.processes d)
               (LiveStream.host d
                ++ [Spawn (LiveStream.videoProcessor d)
                      (["-hide_banner"] ++ LiveStream.splitSpaces (String c s)
                       ++ ["-frames:v"; "1"]
                       ++ match
                            StreamingDelegate.ResolutionInfo.videoFilter
                              (StreamingDelegate.determineResolution
                                 HOMEKIT_MAX_WIDTH HOMEKIT_MAX_HEIGHT
                                 (LiveStream.negotiation
                                    (LiveStream.videoConfig d)) request true)
                          with
                          | Some (String f fs) => ["-vf"; String f fs]
                          | _ => []
                          end
                       ++ ["-f"; "image2"; "-"])]))
      | _ => (d, [LiveStream.Failure "No source configured"])
      end in
    (exists message, answers = [LiveStream.Failure message])
    /\ LiveStream.cachedSnapshot d1 = LiveStream.cachedSnapshot d
    /\ LiveStream.cachedSnapshotTime d1 = LiveStream.cachedSnapshotTime d
    /\ (Js.orString (LiveStream.stillImageSource (LiveStream.videoConfig d))
          (Js.orString (LiveStream.source (LiveStream.videoConfig d)) "") = ""
        -> d1 = d)).
  { destruct (LiveStream.stillImageSource (LiveStream.videoConfig d))
      as [[|c s]|];
      [destruct (LiveStream.source (LiveStream.videoConfig d)) as [[|c s]|]
      |
      |destruct (LiveStream.source (LiveStream.videoConfig d)) as [[|c s]|]];
      cbn [Js.orString];
      try (split; [eauto|]; split; [reflexivity|]; split; reflexivity);
      match goal with
      | |- context [LiveStream.snapshotEvents ?e ?c ?d0] =>
          pose proof (Hfailed d0) as H;
          destruct (LiveStream.snapshotEvents e c d0) as [d1 answers];
          destruct H as [H ->]
      end;
      (split; [exact H|]); (split; [reflexivity|]);
      (split; [reflexivity|]); discriminate. }
  destruct (LiveStream.cachedSnapshot d) as [cached|] eqn:Hc; [|exact Hgoal].
  destruct (Z.ltb_spec (now - LiveStream.cachedSnapshotTime d) 3000);
    [|exact Hgoal].
  destruct Hmiss as [?|?]; [discriminate|lia].
Qed.

Lemma handleSnapshotRequest_failure_witness :
  let videoConfig :=
    LiveStream.mkVideoConfig
      (StreamingDelegate.mkVideoConfig (Some 1920) (Some 1080) None None None
         None false false None)
      (Some "-i rtsp://camera/stream") None None None None None None None
      None false None None false in
  let d :=
    fst (LiveStream.handleSnapshotRequest 1920 1080
           (StreamingDelegate.mkRequest 320 240) 10000
           [LiveStream.Data [x01]%byte; LiveStream.Close (Some 0) 10400]
           (LiveStream.new videoConfig "ffmpeg")) in
  let failed :=
    LiveStream.handleSnapshotRequest 1920 1080
      (StreamingDelegate.mkRequest 320 240) 20000
      (List.map LiveStream.Data [[x02]%byte] ++ [LiveStream.Close None 30000])
      d in
  (exists message, snd failed = [LiveStream.Failure message])
  /\ LiveStream.cachedSnapshot (fst failed) = Some [x01]%byte
  /\ LiveStream.cachedSnapshotTime (fst failed) = 10400.
Proof.
  intros videoConfig d failed.
  pose proof (handleSnapshotRequest_failure 1920 1080
                (StreamingDelegate.mkRequest 320 240) 20000 [[x02]%byte] None
                30000 d) as H.
  fold failed in H. destruct failed as [d1 answers].
  destruct H as (H1 & H2 & H3 & _);
    [right; vm_compute; discriminate|left; discriminate|].
  split; [exact H1|]. split; [exact H2|exact H3].
Defined.

(** ** The event stream: records across chunks *)

Section Redispatch.

Import DahuaEvents.

Lemma string_append_cons x (a b : string) :
  String.append (String x a) b = String x (String.append a b).
Proof. reflexivity. Qed.

Lemma string_append_nil (b : string) : String.append "" b = b.
Proof. reflexivity. Qed.

Lemma string_append_assoc (a b c : string) :
  String.append (String.append a b) c = String.append a (String.append b c).
Proof.
  induction a as [|x a IH]; [reflexivity|].
  rewrite !string_append_cons, IH. reflexivity.
Qed.

Lemma string_append_nil_r (a : string) : String.append a "" = a.
Proof.
  induction a as [|x a IH]; [reflexivity|].
  rewrite string_append_cons, IH. reflexivity.
Qed.

Lemma string_length_append (a b : string) :
  String.length (String.append a b) = (String.length a + String.length b)%nat.
Proof.
  induction a as [|x a IH]; [reflexivity|].
  rewrite string_append_cons. cbn [String.length Nat.add].
  rewrite IH. reflexivity.
Qed.

Lemma stripPrefix_append p s : stripPrefix p (String.append p s) = Some s.
Proof.
  induction p as [|a p IH]; [reflexivity|].
  rewrite string_append_cons. cbn [stripPrefix].
  rewrite Ascii.eqb_refl. exact IH.
Qed.

Lemma span_append f run rest :
  allChars f run = true ->
  startsWith f rest = false ->
  span f (String.append run rest) = (run, rest).
Proof.
  intros Hrun Hrest. induction run as [|c run IH].
  - rewrite string_append_nil. destruct rest as [|c rest]; [reflexivity|].
    cbn [span startsWith] in *. rewrite Hrest. reflexivity.
  - cbn [allChars] in Hrun. apply andb_true_iff in Hrun as [Hc Hrun].
    rewrite string_append_cons. cbn [span]. rewrite Hc, (IH Hrun).
    reflexivity.
Qed.

Lemma nonEmpty_negb s : Js.nonEmpty s = true -> negb (nonEmpty s) = false.
Proof. destruct s; [discriminate|reflexivity]. Qed.

(** The pattern matches a record at its head, whatever follows the
    index, unless a digit does. *)
Lemma matchAt_record eventType action digits rest :
  Js.nonEmpty eventType = true -> allChars notSemicolon eventType = true ->
  Js.nonEmpty action = true -> allChars notSemicolon action = true ->
  Js.nonEmpty digits = true -> allChars isDigit digits = true ->
  startsWith isDigit rest = false ->
  matchAt (String.append (record eventType action digits) rest)
  = Some (eventType, action, digits, rest).
Proof.
  intros Ht1 Ht2 Ha1 Ha2 Hd1 Hd2 Hr.
  unfold record. cbn [String.concat].
  rewrite !string_append_nil, !string_append_assoc.
  unfold matchAt. rewrite stripPrefix_append.
  rewrite (span_append notSemicolon eventType) by (assumption || reflexivity).
  rewrite (nonEmpty_negb _ Ht1).
  rewrite stripPrefix_append.
  rewrite (span_append notSemicolon action) by (assumption || reflexivity).
  rewrite (nonEmpty_negb _ Ha1).
  rewrite stripPrefix_append.
  rewrite (span_append isDigit digits) by assumption.
  rewrite (nonEmpty_negb _ Hd1). reflexivity.
Qed.

Lemma dispatched_record eventType action digits rest :
  Js.nonEmpty eventType = true -> allChars notSemicolon eventType = true ->
  Js.nonEmpty action = true -> allChars notSemicolon action = true ->
  Js.nonEmpty digits = true -> allChars isDigit digits = true ->
  startsWith isDigit rest = false ->
  dispatched (String.append (record eventType action digits) rest)
  = option_list (parseEvent eventType action (parseInt digits))
    ++ dispatched rest.
Proof.
  intros Ht1 Ht2 Ha1 Ha2 Hd1 Hd2 Hr. unfold dispatched.
  cbn [execAll].
  rewrite (matchAt_record _ _ _ _ Ht1 Ht2 Ha1 Ha2 Hd1 Hd2 Hr).
  rewrite (execAll_fuel _ (S (String.length rest)) rest).
  - cbn [omap list_omap].
    destruct (parseEvent eventType action (parseInt digits)); reflexivity.
  - rewrite string_length_append. unfold record. cbn [String.concat].
    rewrite string_length_append. cbn [String.length]. lia.
  - lia.
Qed.

Lemma lastIndexOfAux_digits digits :
  allChars isDigit digits = true ->
  forall i, lastIndexOfAux "index=" digits i = None.
Proof.
  induction digits as [|c digits IH]; intros H i; [reflexivity|].
  simpl in H. apply andb_true_iff in H as [Hc H].
  cbn [lastIndexOfAux]. rewrite (IH H).
  cbn [String.prefix]. destruct (ascii_dec "i" c) as [<-|_];
    [discriminate|reflexivity].
Qed.

Lemma lastIndexOfAux_tail digits i :
  allChars isDigit digits = true ->
  lastIndexOfAux "index=" (String.append "index=" digits) i = Some i.
Proof.
  intros H. rewrite !string_append_cons, string_append_nil.
  cbn [lastIndexOfAux]. rewrite (lastIndexOfAux_digits digits H).
  destruct digits; reflexivity.
Qed.

Lemma lastIndexOfAux_append needle tail pre :
  forall i,
    lastIndexOfAux needle tail (i + String.length pre)
    = Some (i + String.length pre)%nat ->
    lastIndexOfAux needle (String.append pre tail) i
    = Some (i + String.length pre)%nat.
Proof.
  induction pre as [|c pre IH]; intros i H.
  - rewrite string_append_nil. cbn [String.length] in *.
    rewrite Nat.add_0_r in *. exact H.
  - rewrite string_append_cons. cbn [lastIndexOfAux String.length] in *.
    rewrite (IH (S i)); [f_equal; lia|].
    replace (S i + String.length pre)%nat with (i + S (String.length pre))%nat
      by lia. exact H.
Qed.

Lemma substringFrom_append pre tail :
  substringFrom (String.length pre) (String.append pre tail) = tail.
Proof.
  induction pre as [|c pre IH];
    [rewrite string_append_nil; destruct tail; reflexivity|].
  rewrite string_append_cons. cbn [String.length substringFrom]. exact IH.
Qed.

Lemma indexOfAux_absent c0 needle s :
  allChars (fun c => negb (Ascii.eqb c c0)) s = true ->
  forall i, indexOfAux (String c0 needle) s i = None.
Proof.
  induction s as [|c s IH]; intros H i; [reflexivity|].
  simpl in H. apply andb_true_iff in H as [Hc H].
  cbn [indexOfAux String.prefix].
  destruct (ascii_dec c0 c) as [<-|_];
    [rewrite Ascii.eqb_refl in Hc; discriminate|].
  apply IH, H.
Qed.

Lemma allChars_digits_not c0 digits :
  isDigit c0 = false ->
  allChars isDigit digits = true ->
  allChars (fun c => negb (Ascii.eqb c c0)) digits = true.
Proof.
  intros H0. induction digits as [|c digits IH]; intros H; [reflexivity|].
  simpl in *. apply andb_true_iff in H as [Hc H]. rewrite (IH H).
  destruct (Ascii.eqb_spec c c0) as [->|_]; [congruence|reflexivity].
Qed.

(** Nothing is cut off a buffer that ends with the index of a record. *)
Lemma trim_record eventType action digits :
  allChars isDigit digits = true ->
  trim (record eventType action digits) = record eventType action digits.
Proof.
  intros Hd.
  set (pre := String.append "Code="
                (String.append eventType
                   (String.append ";action=" (String.append action ";")))).
  set (tail := String.append "index=" digits).
  assert (Hr : record eventType action digits = String.append pre tail).
  { unfold record, pre, tail. cbn [String.concat].
    rewrite !string_append_nil, !string_append_assoc. reflexivity. }
  assert (Hl : lastIndexOf "index=" (String.append pre tail)
               = Some (String.length pre)).
  { unfold lastIndexOf. apply (lastIndexOfAux_append "index=" tail pre 0).
    apply lastIndexOfAux_tail, Hd. }
  assert (Hn : forall c0 needle,
             isDigit c0 = false ->
             allChars (fun c => negb (Ascii.eqb c c0)) "index=" = true ->
             indexOf (String c0 needle) (String.append pre tail)
               (String.length pre) = None).
  { intros c0 needle H0 Hi. unfold indexOf. rewrite substringFrom_append.
    apply indexOfAux_absent. unfold tail.
    pose proof (allChars_digits_not c0 digits H0 Hd) as Hds.
    rewrite !string_append_cons, string_append_nil.
    cbn [allChars] in *.
    repeat (apply andb_true_iff in Hi as [-> Hi]). exact Hds. }
  rewrite Hr. unfold trim. rewrite Hl.
  change "--" with (String "-" "-").
  rewrite (Hn "-"%char "-") by reflexivity.
  unfold newline. rewrite (Hn (ascii_of_nat 10) "") by reflexivity.
  reflexivity.
Qed.

End Redispatch.

(** X30. A record that ends the text received so far is dispatched again
    with the next chunk: the buffer keeps a record whose index nothing
    follows, so that after the event it gave rise to was handed to the
    listeners, the next chunk (unless it starts with a digit) makes
    [handleChunk] hand over that event once more, before those of the
    chunk itself. *)
Theorem handleChunk_redispatch eventType action digits chunk ev :
  DahuaEvents.buffer ev = "" ->
  Js.nonEmpty eventType = true ->
  allChars DahuaEvents.notSemicolon eventType = true ->
  Js.nonEmpty action = true ->
  allChars DahuaEvents.notSemicolon action = true ->
  Js.nonEmpty digits = true ->
  allChars DahuaEvents.isDigit digits = true ->
  Z.of_nat (String.length (record eventType action digits)) <= 100000 ->
  startsWith DahuaEvents.isDigit chunk = false ->
  let first := DahuaEvents.handleChunk (record eventType action digits) ev in
  let second := DahuaEvents.handleChunk chunk (fst (fst first)) in
  snd (fst first)
  = option_list
      (DahuaEvents.parseEvent eventType action (DahuaEvents.parseInt digits))
  /\ DahuaEvents.buffer (fst (fst first)) = record eventType action digits
  /\ snd (fst second) = snd (fst first) ++ DahuaEvents.dispatched chunk.
Proof.
  intros Hb Ht1 Ht2 Ha1 Ha2 Hd1 Hd2 Hlen Hc first second.
  unfold second, first, DahuaEvents.handleChunk.
  rewrite Hb, string_append_nil. cbn zeta.
  rewrite (trim_record _ _ _ Hd2).
  destruct (Z.ltb_spec 100000
              (Z.of_nat (String.length (record eventType action digits))))
    as [Hgt|_]; [lia|].
  cbn [fst snd DahuaEvents.buffer].
  rewrite (dispatched_record _ _ _ chunk Ht1 Ht2 Ha1 Ha2 Hd1 Hd2 Hc).
  pose proof (dispatched_record _ _ _ "" Ht1 Ht2 Ha1 Ha2 Hd1 Hd2 eq_refl)
    as H0.
  rewrite string_append_nil_r in H0. rewrite H0.
  change (DahuaEvents.dispatched "") with (@nil DahuaEvents.MotionEvent).
  rewrite !app_nil_r. repeat split.
Qed.

Lemma handleChunk_redispatch_witness :
  let ev := DahuaEvents.onMotion 5 0%nat (DahuaEvents.new false) in
  let motion := DahuaEvents.mkEvent 5 "VideoMotion" true in
  let first :=
    DahuaEvents.handleChunk (record "VideoMotion" "Start" "4") ev in
  let second :=
    DahuaEvents.handleChunk DahuaEvents.newline (fst (fst first)) in
  record "VideoMotion" "Start" "4" = "Code=VideoMotion;action=Start;index=4"
  /\ snd (fst first) = [motion]
  /\ snd (fst second) = [motion]
  /\ snd second = [DahuaEvents.mkCall 0%nat motion].
Proof.
  intros ev motion first second. split; [reflexivity|].
  destruct (handleChunk_redispatch "VideoMotion" "Start" "4"
              DahuaEvents.newline ev) as (H1 & _ & H3);
    try reflexivity; [vm_compute; discriminate|].
  fold first in H1, H3. fold second in H3.
  split; [exact H1|]. split; [rewrite H3, H1; reflexivity|].
  vm_compute. reflexivity.
Defined.
